(** * The length-prefixed TCP message protocol of [tcp_socket/server.py] and
    [tcp_socket/client.py]

    A shallow embedding of the frame codec ([TCPProtocol]), of the server side
    connection handler and registry ([TCPClientHandler], [TCPServer]) and of
    the client ([TCPClient]: its send path, and further down its receiving
    loop), followed by the properties the design document states about
    them and by further properties of the code.

    Conventions.
    - [bytes] is a list of [Byte.byte]; a Python [str] is the list of its
      Unicode code points ([str := list Z]).
    - Python objects that travel in messages are values of [pyval].
    - A call that can raise returns a [result]; code that also mutates shared
      objects runs in the state-and-exception monad [M].
    - The library calls the code makes ([struct.pack], [str.encode],
      [json.dumps], [json.loads], [datetime.isoformat]) are written out as
      functions, following the library's documented behaviour.

    Outside the model: what [print] writes; threads (a method runs from its
    first statement to its last with nothing in between); a [send] that
    hands over only part of its buffer; the limits of the interpreter
    (recursion depth, digits of an [int]); the value of a [float], of which
    only the literal is kept. *)

From Stdlib Require Import Ascii String.
From Stdlib Require Import DecimalFacts DecimalPos.
From Stdlib Require Import ZArith List Bool Lia.
From Stdlib Require Strings.Byte.
Import ListNotations.

Local Open Scope Z_scope.

(* ================================================================== *)
(** * Python values, exceptions *)
(* ================================================================== *)

Definition byte := Init.Byte.byte.
Definition bytes := list byte.

(** A Python [str]: the sequence of its code points. *)
Definition str := list Z.

(** The exceptions the modelled code can meet. *)
Inductive exn : Type :=
| StructError          (* struct.error *)
| UnicodeEncodeError
| UnicodeDecodeError
| JSONDecodeError
| AttributeError
| OSError              (* socket errors: bad descriptor, broken pipe, reset *)
| RuntimeError.        (* dictionary changed size during iteration *)

Inductive result (A : Type) : Type :=
| Ok (a : A)
| Raise (e : exn).
Arguments Ok {A} a.
Arguments Raise {A} e.

Definition rbind {A B} (r : result A) (k : A -> result B) : result B :=
  match r with
  | Ok a => k a
  | Raise e => Raise e
  end.

(** [lit "abc"] is the Python string literal ['abc'] (ASCII only). *)
Fixpoint lit (s : string) : str :=
  match s with
  | EmptyString => []
  | String a r => Z.of_N (N_of_ascii a) :: lit r
  end.

(** Python values: what [json.loads] can return and [json.dumps] accepts.
    A [float] is kept as the text of the literal that denotes it: no property
    below computes with floating-point numbers. Dictionaries keep insertion
    order, as Python's do; their keys are strings. *)
#[warnings="-register-all"]
Inductive pyval : Type :=
| PyNone
| PyBool (b : bool)
| PyInt (n : Z)
| PyFloat (literal : str)
| PyStr (s : str)
| PyList (l : list pyval)
| PyDict (d : list (str * pyval)).

Definition str_eqb (a b : str) : bool :=
  if list_eq_dec Z.eq_dec a b then true else false.

(** ** Insertion-ordered dictionaries *)

Section Dict.
Context {V : Type}.

(** [d.get(k)] *)
Fixpoint dict_get (k : str) (d : list (str * V)) : option V :=
  match d with
  | [] => None
  | (k', v) :: r => if str_eqb k k' then Some v else dict_get k r
  end.

(** [k in d] *)
Definition dict_mem (k : str) (d : list (str * V)) : bool :=
  match dict_get k d with Some _ => true | None => false end.

(** [d[k] = v]: an existing key keeps its position. *)
Fixpoint dict_set (k : str) (v : V) (d : list (str * V)) : list (str * V) :=
  match d with
  | [] => [(k, v)]
  | (k', v') :: r =>
      if str_eqb k k' then (k, v) :: r else (k', v') :: dict_set k v r
  end.

(** [del d[k]] (for a key that is present): no entry for [k] is left. *)
Fixpoint dict_del (k : str) (d : list (str * V)) : list (str * V) :=
  match d with
  | [] => []
  | (k', v') :: r =>
      if str_eqb k k' then dict_del k r else (k', v') :: dict_del k r
  end.

(** [dict(pairs)] *)
Definition dict_of_pairs (l : list (str * V)) : list (str * V) :=
  fold_left (fun d kv => dict_set (fst kv) (snd kv) d) l [].
End Dict.

(* ================================================================== *)
(** * [struct.pack('>I', n)] and [struct.unpack('>I', b)] *)
(* ================================================================== *)

Definition byte_of_Z (z : Z) : byte :=
  match Strings.Byte.of_N (Z.to_N (z mod 256)) with
  | Some b => b
  | None => Init.Byte.x00
  end.

Definition Z_of_byte (b : byte) : Z := Z.of_N (Strings.Byte.to_N b).

(** [struct.pack('>I', n)]: raises [struct.error] outside [0, 2^32). *)
Definition pack_u32 (n : Z) : result bytes :=
  if (0 <=? n) && (n <? 4294967296) then
    Ok [byte_of_Z (n / 16777216); byte_of_Z (n / 65536);
        byte_of_Z (n / 256); byte_of_Z n]
  else Raise StructError.

(** [struct.unpack('>I', b)[0]]: raises [struct.error] unless [b] has
    exactly four bytes. *)
Definition unpack_u32 (b : bytes) : result Z :=
  match b with
  | [b0; b1; b2; b3] =>
      Ok (Z_of_byte b0 * 16777216 + Z_of_byte b1 * 65536
          + Z_of_byte b2 * 256 + Z_of_byte b3)
  | _ => Raise StructError
  end.

(* ================================================================== *)
(** * [str.encode('utf-8')] and [bytes.decode('utf-8')] *)
(* ================================================================== *)

Definition is_surrogate (c : Z) : bool := (0xD800 <=? c) && (c <=? 0xDFFF).

(** The UTF-8 bytes of one code point; [None] for a surrogate (and for a
    number that is no code point at all). *)
Definition utf8_encode_char (c : Z) : option bytes :=
  if c <? 0 then None
  else if c <? 0x80 then Some [byte_of_Z c]
  else if c <? 0x800 then
    Some [byte_of_Z (0xC0 + c / 64); byte_of_Z (0x80 + c mod 64)]
  else if c <? 0x10000 then
    if is_surrogate c then None
    else Some [byte_of_Z (0xE0 + c / 4096);
               byte_of_Z (0x80 + (c / 64) mod 64);
               byte_of_Z (0x80 + c mod 64)]
  else if c <? 0x110000 then
    Some [byte_of_Z (0xF0 + c / 262144);
          byte_of_Z (0x80 + (c / 4096) mod 64);
          byte_of_Z (0x80 + (c / 64) mod 64);
          byte_of_Z (0x80 + c mod 64)]
  else None.

(** [s.encode('utf-8')] *)
Fixpoint utf8_encode (s : str) : result bytes :=
  match s with
  | [] => Ok []
  | c :: r =>
      match utf8_encode_char c with
      | None => Raise UnicodeEncodeError
      | Some bs => rbind (utf8_encode r) (fun rest => Ok (bs ++ rest))
      end
  end.

Definition is_cont (b : Z) : bool := (0x80 <=? b) && (b <=? 0xBF).

(** [b.decode('utf-8')], strict: a lead byte announces the length of the
    sequence, the continuation bytes must be [10xxxxxx], and the value must be
    the shortest encoding of a code point that is not a surrogate. *)
Fixpoint utf8_decode_Z (fuel : nat) (b : list Z) : result str :=
  match fuel with
  | O => match b with [] => Ok [] | _ => Raise UnicodeDecodeError end
  | S fuel' =>
      match b with
      | [] => Ok []
      | b0 :: r0 =>
          if b0 <? 0x80 then
            rbind (utf8_decode_Z fuel' r0) (fun s => Ok (b0 :: s))
          else if (0xC0 <=? b0) && (b0 <? 0xE0) then
            match r0 with
            | b1 :: r1 =>
                let c := (b0 - 0xC0) * 64 + (b1 - 0x80) in
                if is_cont b1 && (0x80 <=? c) then
                  rbind (utf8_decode_Z fuel' r1) (fun s => Ok (c :: s))
                else Raise UnicodeDecodeError
            | _ => Raise UnicodeDecodeError
            end
          else if (0xE0 <=? b0) && (b0 <? 0xF0) then
            match r0 with
            | b1 :: b2 :: r2 =>
                let c := (b0 - 0xE0) * 4096 + (b1 - 0x80) * 64 + (b2 - 0x80) in
                if is_cont b1 && is_cont b2 && (0x800 <=? c)
                   && negb (is_surrogate c) then
                  rbind (utf8_decode_Z fuel' r2) (fun s => Ok (c :: s))
                else Raise UnicodeDecodeError
            | _ => Raise UnicodeDecodeError
            end
          else if (0xF0 <=? b0) && (b0 <? 0xF8) then
            match r0 with
            | b1 :: b2 :: b3 :: r3 =>
                let c := (b0 - 0xF0) * 262144 + (b1 - 0x80) * 4096
                         + (b2 - 0x80) * 64 + (b3 - 0x80) in
                if is_cont b1 && is_cont b2 && is_cont b3
                   && (0x10000 <=? c) && (c <? 0x110000) then
                  rbind (utf8_decode_Z fuel' r3) (fun s => Ok (c :: s))
                else Raise UnicodeDecodeError
            | _ => Raise UnicodeDecodeError
            end
          else Raise UnicodeDecodeError
      end
  end.

Definition utf8_decode (b : bytes) : result str :=
  utf8_decode_Z (length b) (map Z_of_byte b).

(* ================================================================== *)
(** * [json.dumps] *)
(* ================================================================== *)

(** The default encoder: [ensure_ascii=True], separators [", "] and [": "],
    no indentation, keys in insertion order. *)

Fixpoint digits (u : Decimal.uint) : str :=
  match u with
  | Decimal.Nil => []
  | Decimal.D0 r => 48 :: digits r
  | Decimal.D1 r => 49 :: digits r
  | Decimal.D2 r => 50 :: digits r
  | Decimal.D3 r => 51 :: digits r
  | Decimal.D4 r => 52 :: digits r
  | Decimal.D5 r => 53 :: digits r
  | Decimal.D6 r => 54 :: digits r
  | Decimal.D7 r => 55 :: digits r
  | Decimal.D8 r => 56 :: digits r
  | Decimal.D9 r => 57 :: digits r
  end.

(** [int.__repr__] *)
Definition repr_int (n : Z) : str :=
  match n with
  | Z0 => [48]
  | Zpos p => digits (Pos.to_uint p)
  | Zneg p => 45 :: digits (Pos.to_uint p)
  end.

Definition hex_digit (n : Z) : Z := if n <? 10 then 48 + n else 87 + n.

(** ['\\u{0:04x}'.format(n)] for [n < 0x10000] *)
Definition u_escape (n : Z) : str :=
  [92; 117; hex_digit (n / 4096); hex_digit ((n / 256) mod 16);
   hex_digit ((n / 16) mod 16); hex_digit (n mod 16)].

(** The replacement of one character by [encode_basestring_ascii]:
    printable ASCII other than the quote and the backslash stands for
    itself. *)
Definition escape_char (c : Z) : str :=
  if c =? 34 then [92; 34]
  else if c =? 92 then [92; 92]
  else if c =? 8 then [92; 98]
  else if c =? 12 then [92; 102]
  else if c =? 10 then [92; 110]
  else if c =? 13 then [92; 114]
  else if c =? 9 then [92; 116]
  else if (32 <=? c) && (c <=? 126) then [c]
  else if c <? 0x10000 then u_escape c
  else
    let n := c - 0x10000 in
    u_escape (0xD800 + (n / 1024) mod 1024) ++ u_escape (0xDC00 + n mod 1024).

Definition encode_basestring_ascii (s : str) : str :=
  34 :: flat_map escape_char s ++ [34].

(** [sep.join(l)] *)
Fixpoint join (sep : str) (l : list str) : str :=
  match l with
  | [] => []
  | x :: r =>
      match r with
      | [] => x
      | _ :: _ => x ++ sep ++ join sep r
      end
  end.

Fixpoint json_dumps (v : pyval) : str :=
  match v with
  | PyNone => lit "null"
  | PyBool true => lit "true"
  | PyBool false => lit "false"
  | PyInt n => repr_int n
  | PyFloat literal => literal
  | PyStr s => encode_basestring_ascii s
  | PyList l => lit "[" ++ join (lit ", ") (map json_dumps l) ++ lit "]"
  | PyDict d =>
      lit "{"
      ++ join (lit ", ")
           (map (fun kv => encode_basestring_ascii (fst kv) ++ lit ": "
                           ++ json_dumps (snd kv)) d)
      ++ lit "}"
  end.

(* ================================================================== *)
(** * [json.loads] *)
(* ================================================================== *)

(** The default decoder ([strict=True]); [None] stands for
    [json.JSONDecodeError]. *)

Definition is_ws (c : Z) : bool :=
  (c =? 32) || (c =? 9) || (c =? 10) || (c =? 13).

Fixpoint skip_ws (s : str) : str :=
  match s with
  | [] => []
  | c :: r => if is_ws c then skip_ws r else s
  end.

(** [s.startswith(p)], with what follows the prefix. *)
Fixpoint strip_prefix (p s : str) : option str :=
  match p with
  | [] => Some s
  | a :: p' =>
      match s with
      | [] => None
      | b :: s' => if a =? b then strip_prefix p' s' else None
      end
  end.

Definition is_digit (c : Z) : bool := (48 <=? c) && (c <=? 57).

Fixpoint span_digits (s : str) : str * str :=
  match s with
  | [] => ([], [])
  | c :: r =>
      if is_digit c then let (ds, rest) := span_digits r in (c :: ds, rest)
      else ([], s)
  end.

Definition uint_cons (c : Z) (u : Decimal.uint) : Decimal.uint :=
  if c =? 48 then Decimal.D0 u
  else if c =? 49 then Decimal.D1 u
  else if c =? 50 then Decimal.D2 u
  else if c =? 51 then Decimal.D3 u
  else if c =? 52 then Decimal.D4 u
  else if c =? 53 then Decimal.D5 u
  else if c =? 54 then Decimal.D6 u
  else if c =? 55 then Decimal.D7 u
  else if c =? 56 then Decimal.D8 u
  else Decimal.D9 u.

(** [int(ds)] for a run of ASCII digits *)
Definition int_of_digits (ds : str) : Z :=
  Z.of_uint (fold_right uint_cons Decimal.Nil ds).

(** [NUMBER_RE]: an optional minus sign, then either a single zero or a
    digit run that starts with a non-zero digit; then optionally a point
    with at least one digit; then optionally [e] or [E], an optional sign
    and at least one digit. The result is an [int] when neither fraction nor
    exponent matched, else a [float]. *)
Definition match_frac (s : str) : str * str :=
  match s with
  | p :: d :: _ =>
      if (p =? 46) && is_digit d then
        let (fs, rest) := span_digits (tl s) in (p :: fs, rest)
      else ([], s)
  | _ => ([], s)
  end.

Definition match_exp (s : str) : str * str :=
  match s with
  | e :: r =>
      if (e =? 101) || (e =? 69) then
        let '(sign, r') :=
          match r with
          | g :: r' => if (g =? 45) || (g =? 43) then ([g], r') else ([], r)
          | [] => ([], r)
          end in
        match r' with
        | d :: _ =>
            if is_digit d then
              let (es, rest) := span_digits r' in (e :: sign ++ es, rest)
            else ([], s)
        | [] => ([], s)
        end
      else ([], s)
  | [] => ([], s)
  end.

Definition match_number (s : str) : option (pyval * str) :=
  let '(neg, s1) :=
    match s with
    | c :: r => if c =? 45 then (true, r) else (false, s)
    | [] => (false, s)
    end in
  match s1 with
  | [] => None
  | c :: r =>
      if is_digit c then
        let '(integer, s2) :=
          if c =? 48 then ([48], r) else span_digits s1 in
        let '(frac, s3) := match_frac s2 in
        let '(exp, s4) := match_exp s3 in
        let sign := if neg then [45] else [] in
        match frac, exp with
        | [], [] =>
            Some (PyInt (if neg then - int_of_digits integer
                         else int_of_digits integer), s4)
        | _, _ => Some (PyFloat (sign ++ integer ++ frac ++ exp), s4)
        end
      else None
  end.

Definition hex_val (c : Z) : option Z :=
  if is_digit c then Some (c - 48)
  else if (97 <=? c) && (c <=? 102) then Some (c - 87)
  else if (65 <=? c) && (c <=? 70) then Some (c - 55)
  else None.

(** Four hexadecimal digits after a backslash-u. *)
Definition parse_hex4 (s : str) : option (Z * str) :=
  match s with
  | a :: b :: c :: d :: r =>
      match hex_val a, hex_val b, hex_val c, hex_val d with
      | Some x, Some y, Some z, Some w =>
          Some (x * 4096 + y * 256 + z * 16 + w, r)
      | _, _, _, _ => None
      end
  | _ => None
  end.

(** The character a one-letter escape denotes. *)
Definition backslash (e : Z) : option Z :=
  if e =? 34 then Some 34
  else if e =? 92 then Some 92
  else if e =? 47 then Some 47
  else if e =? 98 then Some 8
  else if e =? 102 then Some 12
  else if e =? 110 then Some 10
  else if e =? 114 then Some 13
  else if e =? 116 then Some 9
  else None.

(** [scanstring]: the text after an opening quote, up to the closing one.
    A high surrogate escape directly followed by a low surrogate escape
    denotes one code point. *)
Fixpoint scanstring (fuel : nat) (s : str) : option (str * str) :=
  match fuel with
  | O => None
  | S fuel' =>
      match s with
      | [] => None
      | c :: r =>
          if c =? 34 then Some ([], r)
          else if c =? 92 then
            match r with
            | [] => None
            | e :: r1 =>
                if e =? 117 then
                  match parse_hex4 r1 with
                  | None => None
                  | Some (uni, r2) =>
                      let pair :=
                        if (0xD800 <=? uni) && (uni <=? 0xDBFF) then
                          match strip_prefix [92; 117] r2 with
                          | Some r3 =>
                              match parse_hex4 r3 with
                              | None => None
                              | Some (uni2, r4) =>
                                  if (0xDC00 <=? uni2) && (uni2 <=? 0xDFFF)
                                  then Some (0x10000 + (uni - 0xD800) * 1024
                                             + (uni2 - 0xDC00), r4)
                                  else Some (uni, r2)
                              end
                          | None => Some (uni, r2)
                          end
                        else Some (uni, r2) in
                      match pair with
                      | None => None
                      | Some (ch, rest) =>
                          match scanstring fuel' rest with
                          | Some (t, rest') => Some (ch :: t, rest')
                          | None => None
                          end
                      end
                  end
                else
                  match backslash e with
                  | None => None
                  | Some ch =>
                      match scanstring fuel' r1 with
                      | Some (t, rest') => Some (ch :: t, rest')
                      | None => None
                      end
                  end
            end
          else if c <=? 31 then None
          else
            match scanstring fuel' r with
            | Some (t, rest') => Some (c :: t, rest')
            | None => None
            end
      end
  end.

Definition parse_string (s : str) : option (str * str) :=
  scanstring (length s) s.

(** [scan_once], [JSONArray] and [JSONObject]. [parse_array] reads the items
    after the opening bracket of a non-empty array, [parse_object] the pairs
    of a non-empty object from the quote that opens a key. The fuel bounds
    the number of nested calls; [json_loads] supplies more than the text is
    long. *)
Fixpoint scan_once (fuel : nat) (s : str) : option (pyval * str) :=
  match fuel with
  | O => None
  | S fuel' =>
      match s with
      | [] => None
      | c :: r =>
          if c =? 34 then
            match parse_string r with
            | Some (t, rest) => Some (PyStr t, rest)
            | None => None
            end
          else if c =? 123 then
            match skip_ws r with
            | [] => None
            | c' :: r' =>
                if c' =? 125 then Some (PyDict [], r')
                else
                  match parse_object fuel' (c' :: r') with
                  | Some (pairs, rest) =>
                      Some (PyDict (dict_of_pairs pairs), rest)
                  | None => None
                  end
            end
          else if c =? 91 then
            match skip_ws r with
            | [] => None
            | c' :: r' =>
                if c' =? 93 then Some (PyList [], r')
                else
                  match parse_array fuel' (c' :: r') with
                  | Some (items, rest) => Some (PyList items, rest)
                  | None => None
                  end
            end
          else
            match strip_prefix (lit "null") s with
            | Some rest => Some (PyNone, rest)
            | None =>
            match strip_prefix (lit "true") s with
            | Some rest => Some (PyBool true, rest)
            | None =>
            match strip_prefix (lit "false") s with
            | Some rest => Some (PyBool false, rest)
            | None =>
            match match_number s with
            | Some res => Some res
            | None =>
            match strip_prefix (lit "NaN") s with
            | Some rest => Some (PyFloat (lit "NaN"), rest)
            | None =>
            match strip_prefix (lit "Infinity") s with
            | Some rest => Some (PyFloat (lit "Infinity"), rest)
            | None =>
            match strip_prefix (lit "-Infinity") s with
            | Some rest => Some (PyFloat (lit "-Infinity"), rest)
            | None => None
            end end end end end end end
      end
  end

with parse_array (fuel : nat) (s : str) : option (list pyval * str) :=
  match fuel with
  | O => None
  | S fuel' =>
      match scan_once fuel' s with
      | None => None
      | Some (v, r) =>
          match skip_ws r with
          | [] => None
          | c :: r' =>
              if c =? 93 then Some ([v], r')
              else if c =? 44 then
                match parse_array fuel' (skip_ws r') with
                | Some (vs, rest) => Some (v :: vs, rest)
                | None => None
                end
              else None
          end
      end
  end

with parse_object (fuel : nat) (s : str) : option (list (str * pyval) * str) :=
  match fuel with
  | O => None
  | S fuel' =>
      match s with
      | [] => None
      | q :: r =>
          if q =? 34 then
            match parse_string r with
            | None => None
            | Some (key, r1) =>
                match skip_ws r1 with
                | [] => None
                | c1 :: r2 =>
                    if c1 =? 58 then
                      match scan_once fuel' (skip_ws r2) with
                      | None => None
                      | Some (v, r3) =>
                          match skip_ws r3 with
                          | [] => None
                          | c3 :: r4 =>
                              if c3 =? 125 then Some ([(key, v)], r4)
                              else if c3 =? 44 then
                                match parse_object fuel' (skip_ws r4) with
                                | Some (kvs, rest) =>
                                    Some ((key, v) :: kvs, rest)
                                | None => None
                                end
                              else None
                          end
                      end
                    else None
                end
            end
          else None
      end
  end.

(** [json.loads(s)]: leading white space, one value, trailing white space,
    and nothing else. *)
Definition json_loads (s : str) : result pyval :=
  match scan_once (S (length s)) (skip_ws s) with
  | Some (v, rest) =>
      match skip_ws rest with
      | [] => Ok v
      | _ :: _ => Raise JSONDecodeError
      end
  | None => Raise JSONDecodeError
  end.

(* ================================================================== *)
(** * [TCPProtocol] (the same text in server.py and client.py) *)
(* ================================================================== *)

Module TCPProtocol.

(** [l[lo:hi]] for [0 <= lo <= hi] *)
Definition slice {A} (lo hi : Z) (l : list A) : list A :=
  firstn (Z.to_nat (hi - lo)) (skipn (Z.to_nat lo) l).

(** [l[lo:]] *)
Definition slice_from {A} (lo : Z) (l : list A) : list A :=
  skipn (Z.to_nat lo) l.

Definition len {A} (l : list A) : Z := Z.of_nat (length l).

(** [encode_message(message)]: a [dict] goes through [json.dumps]; anything
    else must have an [encode] method, which of the values here only a
    [str] has. *)
Definition encode_message (message : pyval) : result bytes :=
  rbind (match message with
         | PyDict _ => Ok (json_dumps message)
         | PyStr s => Ok s
         | _ => Raise AttributeError
         end) (fun message =>
  rbind (utf8_encode message) (fun message_bytes =>
  let length := len message_bytes in
  rbind (pack_u32 length) (fun length_prefix =>
  Ok (length_prefix ++ message_bytes)))).

(** [decode_message(data)]: Python's [None] is [PyNone]. Only
    [json.JSONDecodeError] is caught. *)
Definition decode_message (data : bytes) : result (pyval * bytes) :=
  if len data <? 4 then Ok (PyNone, data)
  else
    rbind (unpack_u32 (slice 0 4 data)) (fun length =>
    if len data <? 4 + length then Ok (PyNone, data)
    else
      let message_bytes := slice 4 (4 + length) data in
      let remaining_data := slice_from (4 + length) data in
      match rbind (utf8_decode message_bytes) json_loads with
      | Ok message => Ok (message, remaining_data)
      | Raise JSONDecodeError =>
          rbind (utf8_decode message_bytes) (fun text =>
          Ok (PyStr text, remaining_data))
      | Raise e => Raise e
      end).

End TCPProtocol.

(* ================================================================== *)
(** * [datetime] *)
(* ================================================================== *)

(** A naive [datetime], as [datetime.now()] returns it. *)
Record datetime : Type := mk_datetime {
  year : Z; month : Z; day : Z;
  hour : Z; minute : Z; second : Z; microsecond : Z
}.

(** ['%0{width}d' % n] for [0 <= n] *)
Definition pad (width : nat) (n : Z) : str :=
  let ds := repr_int n in
  repeat 48 (width - length ds) ++ ds.

(** [d.isoformat()]: the microseconds are left out when they are zero. *)
Definition isoformat (d : datetime) : str :=
  pad 4 (year d) ++ lit "-" ++ pad 2 (month d) ++ lit "-" ++ pad 2 (day d)
  ++ lit "T" ++ pad 2 (hour d) ++ lit ":" ++ pad 2 (minute d) ++ lit ":"
  ++ pad 2 (second d)
  ++ (if microsecond d =? 0 then [] else lit "." ++ pad 6 (microsecond d)).

Definition is_leap (y : Z) : bool :=
  (y mod 4 =? 0) && (negb (y mod 100 =? 0) || (y mod 400 =? 0)).

Definition days_before_year (y : Z) : Z :=
  let y := y - 1 in y * 365 + y / 4 - y / 100 + y / 400.

Definition days_before_month (y m : Z) : Z :=
  nth (Z.to_nat m) [0; 0; 31; 59; 90; 120; 151; 181; 212; 243; 273; 304; 334] 0
  + (if (2 <? m) && is_leap y then 1 else 0).

(** Microseconds since the start of year 1: the scale on which two
    [datetime]s are subtracted and compared. *)
Definition to_microseconds (d : datetime) : Z :=
  let ordinal := days_before_year (year d) + days_before_month (year d) (month d)
                 + day d in
  (((ordinal * 24 + hour d) * 60 + minute d) * 60 + second d) * 1000000
  + microsecond d.

(** [int((a - b).total_seconds())]: [int] truncates towards zero. The
    float [total_seconds] returns is the exact quotient as long as the
    difference stays below 2^33 seconds, some 272 years. *)
Definition seconds_between (a b : datetime) : Z :=
  Z.quot (to_microseconds a - to_microseconds b) 1000000.

(* ================================================================== *)
(** * Sockets *)
(* ================================================================== *)

(** What the environment decides about a socket. A [send] on an open socket
    hands the whole buffer to the peer; on a socket whose peer is gone
    ([SockBroken]) or that was closed ([SockClosed]) it raises. [sent] lists
    the buffers handed over, oldest first. *)
Inductive sock_status : Type := SockOpen | SockBroken | SockClosed.

Record socket : Type := mk_socket {
  status : sock_status;
  sent : list bytes
}.

Definition socket_send (s : socket) (data : bytes) : result socket :=
  match status s with
  | SockOpen => Ok (mk_socket SockOpen (sent s ++ [data]))
  | _ => Raise OSError
  end.

Definition socket_close (s : socket) : result socket :=
  Ok (mk_socket SockClosed (sent s)).

(* ================================================================== *)
(** * [TCPClientHandler] and [TCPServer] *)
(* ================================================================== *)

Module TCPServer.
Import TCPProtocol.

(** A [TCPClientHandler] object. *)
Record handler : Type := mk_handler {
  client_id : str;
  running : bool;
  client_socket : socket;
  buffer : bytes
}.

(** The [TCPServer] object together with the handler objects it and their
    threads refer to. A reference to a handler is its index in [handlers]:
    a handler taken out of [clients] is still an object, and its thread
    still runs its methods. [clients] is the dictionary [self.clients], in
    insertion order. [now] and [ticks] are the clock: the [n]-th call of
    [datetime.now()] returns [now n]. *)
Record server : Type := mk_server {
  handlers : list handler;
  clients : list (str * nat);
  message_count : Z;
  start_time : datetime;
  now : nat -> datetime;
  ticks : nat
}.

(** Code that reads and writes the server and can raise. An exception
    leaves the writes made before it in place. *)
Definition M (A : Type) : Type := server -> server * result A.

Definition ret {A} (a : A) : M A := fun w => (w, Ok a).

Definition bind {A B} (m : M A) (k : A -> M B) : M B :=
  fun w =>
    match m w with
    | (w', Ok a) => k a w'
    | (w', Raise e) => (w', Raise e)
    end.

Definition raise {A} (e : exn) : M A := fun w => (w, Raise e).

Definition lift {A} (r : result A) : M A := fun w => (w, r).

(** [try: m  except Exception: h] *)
Definition try_except {A} (m : M A) (h : exn -> M A) : M A :=
  fun w =>
    match m w with
    | (w', Ok a) => (w', Ok a)
    | (w', Raise e) => h e w'
    end.

(** [try: m  finally: f] *)
Definition try_finally {A} (m : M A) (f : M unit) : M A :=
  fun w =>
    match m w with
    | (w', r) =>
        match f w' with
        | (w'', Ok _) => (w'', r)
        | (w'', Raise e) => (w'', Raise e)
        end
    end.

Declare Scope monad_scope.
Delimit Scope monad_scope with monad.
Notation "x <- m ;; k" := (bind m (fun x => k))
  (at level 61, m at next level, right associativity) : monad_scope.
Notation "m ;; k" := (bind m (fun _ => k))
  (at level 61, right associativity) : monad_scope.
Local Open Scope monad_scope.

(** What [get_handler] returns for an index no handler has. The program
    never holds such a reference; the value only makes the function
    total. *)
Definition dead_handler : handler :=
  mk_handler [] false (mk_socket SockClosed []) [].

Fixpoint list_update {A} (n : nat) (x : A) (l : list A) : list A :=
  match l, n with
  | [], _ => []
  | _ :: r, O => x :: r
  | y :: r, S n' => y :: list_update n' x r
  end.

Definition get_handler (self : nat) (w : server) : handler :=
  nth self (handlers w) dead_handler.

Definition set_handlers (hs : list handler) (w : server) : server :=
  mk_server hs (clients w) (message_count w) (start_time w) (now w) (ticks w).

Definition set_handler (self : nat) (h : handler) (w : server) : server :=
  set_handlers (list_update self h (handlers w)) w.

Definition set_clients (c : list (str * nat)) (w : server) : server :=
  mk_server (handlers w) c (message_count w) (start_time w) (now w) (ticks w).

Definition set_message_count (n : Z) (w : server) : server :=
  mk_server (handlers w) (clients w) n (start_time w) (now w) (ticks w).

(** Reading and writing the attributes of [self]. *)
Definition get (self : nat) : M handler := fun w => (w, Ok (get_handler self w)).

Definition set_running (self : nat) (b : bool) : M unit :=
  fun w =>
    let h := get_handler self w in
    (set_handler self
       (mk_handler (client_id h) b (client_socket h) (buffer h)) w, Ok tt).

Definition set_socket (self : nat) (s : socket) : M unit :=
  fun w =>
    let h := get_handler self w in
    (set_handler self (mk_handler (client_id h) (running h) s (buffer h)) w,
     Ok tt).

Definition set_buffer (self : nat) (b : bytes) : M unit :=
  fun w =>
    let h := get_handler self w in
    (set_handler self
       (mk_handler (client_id h) (running h) (client_socket h) b) w, Ok tt).

(** [datetime.now()] *)
Definition datetime_now : M datetime :=
  fun w =>
    (mk_server (handlers w) (clients w) (message_count w) (start_time w)
       (now w) (S (ticks w)),
     Ok (now w (ticks w))).

(** [datetime.now().isoformat()] *)
Definition now_isoformat : M pyval :=
  d <- datetime_now ;; ret (PyStr (isoformat d)).

(** [self.client_socket.send(data)] *)
Definition client_socket_send (self : nat) (data : bytes) : M unit :=
  h <- get self ;;
  s <- lift (socket_send (client_socket h) data) ;;
  set_socket self s.

(** [self.client_socket.close()] *)
Definition client_socket_close (self : nat) : M unit :=
  h <- get self ;;
  s <- lift (socket_close (client_socket h)) ;;
  set_socket self s.

(** [TCPClientHandler._cleanup] *)
Definition _cleanup (self : nat) : M unit :=
  set_running self false ;;
  try_except (client_socket_close self) (fun _ => ret tt) ;;
  h <- get self ;;
  fun w =>
    if dict_mem (client_id h) (clients w)
    then (set_clients (dict_del (client_id h) (clients w)) w, Ok tt)
    else (w, Ok tt).

(** [TCPClientHandler.send_message] *)
Definition send_message (self : nat) (message : pyval) : M unit :=
  try_except
    (encoded <- lift (encode_message message) ;;
     client_socket_send self encoded)
    (fun _ => _cleanup self).

(** [for client_id, client_handler in self.clients.items(): body]. The
    iterator raises [RuntimeError] at the step that finds the size of the
    dictionary changed. The bodies run here can only delete entries, so
    while the sizes agree the entries are those of [items], the content of
    the dictionary when the loop began, [used] being their number. *)
Fixpoint for_items (items : list (str * nat)) (used : nat)
    (body : str -> nat -> M unit) : M unit :=
  fun w =>
    if negb (length (clients w) =? used)%nat then (w, Raise RuntimeError)
    else
      match items with
      | [] => (w, Ok tt)
      | (k, h) :: rest => (body k h ;; for_items rest used body) w
      end.

(** [client_id != exclude_client], where [exclude_client] may be [None] *)
Definition differs (k : str) (exclude_client : option str) : bool :=
  match exclude_client with
  | None => true
  | Some e => negb (str_eqb k e)
  end.

(** The truth value of [exclude_client]: neither [None] nor empty. *)
Definition truthy (exclude_client : option str) : bool :=
  match exclude_client with
  | None => false
  | Some [] => false
  | Some (_ :: _) => true
  end.

(** [TCPServer.broadcast_message] *)
Definition broadcast_message (message : pyval) (exclude_client : option str)
    : M unit :=
  (fun w =>
     for_items (clients w) (length (clients w))
       (fun client_id client_handler =>
          if differs client_id exclude_client
          then send_message client_handler message
          else ret tt) w) ;;
  (fun w =>
     (set_message_count (message_count w + len (clients w)) w, Ok tt)) ;;
  if truthy exclude_client
  then fun w => (set_message_count (message_count w - 1) w, Ok tt)
  else ret tt.

(** [TCPServer.get_stats] *)
Definition get_stats : M pyval :=
  t <- datetime_now ;;
  fun w =>
    let uptime_seconds := seconds_between t (start_time w) in
    (t' <- now_isoformat ;;
     ret (PyDict
            [(lit "type", PyStr (lit "server_stats"));
             (lit "connected_clients", PyInt (len (clients w)));
             (lit "uptime_seconds", PyInt uptime_seconds);
             (lit "total_messages", PyInt (message_count w));
             (lit "server_start_time", PyStr (isoformat (start_time w)));
             (lit "current_time", t')])) w.

(** [message.get(key, default)] *)
Definition dict_get_default (d : list (str * pyval)) (key : str)
    (default : pyval) : pyval :=
  match dict_get key d with
  | Some v => v
  | None => default
  end.

(** [v == 'text'] for a string literal *)
Definition eq_str (v : pyval) (text : str) : bool :=
  match v with
  | PyStr s => str_eqb s text
  | _ => false
  end.

(** [TCPClientHandler._handle_ping] *)
Definition _handle_ping (self : nat) (message : list (str * pyval)) : M unit :=
  t <- now_isoformat ;;
  h <- get self ;;
  let pong := PyDict
    [(lit "type", PyStr (lit "pong"));
     (lit "ping_timestamp", dict_get_default message (lit "timestamp") PyNone);
     (lit "pong_timestamp", t);
     (lit "client_id", PyStr (client_id h))] in
  send_message self pong.

(** [TCPClientHandler._handle_echo] *)
Definition _handle_echo (self : nat) (message : list (str * pyval)) : M unit :=
  t <- now_isoformat ;;
  let echo_response := PyDict
    [(lit "type", PyStr (lit "echo_response"));
     (lit "content", dict_get_default message (lit "content") (PyStr []));
     (lit "timestamp", t);
     (lit "echoed_by", PyStr (lit "TCP Server"))] in
  send_message self echo_response.

(** [TCPClientHandler._handle_broadcast] *)
Definition _handle_broadcast (self : nat) (message : list (str * pyval))
    : M unit :=
  h <- get self ;;
  t <- now_isoformat ;;
  let broadcast_msg := PyDict
    [(lit "type", PyStr (lit "broadcast"));
     (lit "from_client", PyStr (client_id h));
     (lit "content", dict_get_default message (lit "content") (PyStr []));
     (lit "timestamp", t)] in
  broadcast_message broadcast_msg (Some (client_id h)) ;;
  n <- (fun w => (w, Ok (len (clients w) - 1))) ;;
  t' <- now_isoformat ;;
  let confirmation := PyDict
    [(lit "type", PyStr (lit "broadcast_sent"));
     (lit "recipients", PyInt n);
     (lit "timestamp", t')] in
  send_message self confirmation.

(** [TCPClientHandler._handle_get_stats] *)
Definition _handle_get_stats (self : nat) : M unit :=
  stats <- get_stats ;;
  send_message self stats.

(** [TCPClientHandler._process_message] *)
Definition _process_message (self : nat) (message : pyval) : M unit :=
  match message with
  | PyDict d =>
      let msg_type := dict_get_default d (lit "type") (PyStr (lit "unknown")) in
      if eq_str msg_type (lit "ping") then _handle_ping self d
      else if eq_str msg_type (lit "echo") then _handle_echo self d
      else if eq_str msg_type (lit "broadcast") then _handle_broadcast self d
      else if eq_str msg_type (lit "get_stats") then _handle_get_stats self
      else
        t <- now_isoformat ;;
        send_message self
          (PyDict [(lit "type", PyStr (lit "response"));
                   (lit "original_message", message);
                   (lit "timestamp", t);
                   (lit "from_server", PyBool true)])
  | _ =>
      t <- now_isoformat ;;
      send_message self
        (PyDict [(lit "type", PyStr (lit "echo"));
                 (lit "original_text", message);
                 (lit "timestamp", t);
                 (lit "from_server", PyBool true)])
  end.

(** The inner loop of [_handle_client]: decode and process until
    [decode_message] returns [None]. Every message taken off the buffer
    shortens it, so [fuel] at least the length of the buffer is enough. *)
Fixpoint drain (fuel : nat) (self : nat) : M unit :=
  match fuel with
  | O => ret tt
  | S fuel' =>
      h <- get self ;;
      r <- lift (decode_message (buffer h)) ;;
      set_buffer self (snd r) ;;
      match fst r with
      | PyNone => ret tt
      | message => _process_message self message ;; drain fuel' self
      end
  end.

(** The outer loop of [_handle_client], over what the successive
    [recv(4096)] return; an empty read, or no more reads, is the peer
    closing. *)
Fixpoint receive (chunks : list bytes) (self : nat) : M unit :=
  match chunks with
  | [] => ret tt
  | data :: rest =>
      h <- get self ;;
      if negb (running h) then ret tt
      else
        match data with
        | [] => ret tt
        | _ :: _ =>
            set_buffer self (buffer h ++ data) ;;
            drain (S (length (buffer h ++ data))) self ;;
            receive rest self
        end
  end.

(** [TCPClientHandler._handle_client] *)
Definition _handle_client (self : nat) (chunks : list bytes) : M unit :=
  try_finally
    (try_except (receive chunks self) (fun _ => ret tt))
    (_cleanup self).

(** [TCPClientHandler.start], without the thread it spawns. *)
Definition start (self : nat) : M unit :=
  h <- get self ;;
  t <- now_isoformat ;;
  send_message self
    (PyDict [(lit "type", PyStr (lit "welcome"));
             (lit "client_id", PyStr (client_id h));
             (lit "message", PyStr (lit "Welcome to TCP Server!"));
             (lit "timestamp", t)]).

(** One turn of the loop of [_accept_connections]: a connection from
    [host:port] arrives on socket [s]. *)
Definition accept (s : socket) (host : str) (port : Z) : M nat :=
  fun w =>
    let id := host ++ lit ":" ++ repr_int port in
    let self := length (handlers w) in
    let w1 := set_handlers (handlers w ++ [mk_handler id true s []]) w in
    let w2 := set_clients (dict_set id self (clients w1)) w1 in
    (start self ;; ret self) w2.

(** [TCPServer.stop], the handlers' part: [list(self.clients.values())]
    is a copy, so the deletions do not disturb the loop. *)
Definition stop : M unit :=
  fun w =>
    fold_left (fun (m : M unit) h => m ;; _cleanup h)
              (map snd (clients w)) (ret tt) w.

End TCPServer.

(* ================================================================== *)
(** * [TCPClient] *)
(* ================================================================== *)

Module TCPClient.
Import TCPProtocol.

(** A [TCPClient] object; [sock] is [self.socket], [None] until [connect]
    creates it. The callback and the receiving thread play no part in the
    send path. *)
Record client : Type := mk_client {
  host : str;
  port : Z;
  sock : option socket;
  connected : bool;
  buffer : bytes
}.

(** [TCPClient.__init__] *)
Definition init (host : str) (port : Z) : client :=
  mk_client host port None false [].

(** [self.socket.send(encoded)] *)
Definition sock_send (c : client) (encoded : bytes) : result client :=
  match sock c with
  | None => Raise AttributeError
  | Some s =>
      rbind (socket_send s encoded) (fun s' =>
      Ok (mk_client (host c) (port c) (Some s') (connected c) (buffer c)))
  end.

(** [TCPClient.send_message]: the new state of the client and the value
    returned. *)
Definition send_message (message : pyval) (c : client) : client * bool :=
  if negb (connected c) then (c, false)
  else
    match rbind (encode_message message) (sock_send c) with
    | Ok c' => (c', true)
    | Raise _ => (c, false)
    end.

(** [TCPClient.ping]; [now] is what [datetime.now()] returns. *)
Definition ping (now : datetime) (c : client) : client * bool :=
  send_message
    (PyDict [(lit "type", PyStr (lit "ping"));
             (lit "timestamp", PyStr (isoformat now));
             (lit "client_info",
              PyStr (lit "TCP Client " ++ host c ++ lit ":"
                     ++ repr_int (port c)))]) c.

(** [TCPClient.echo] *)
Definition echo (content : pyval) (now : datetime) (c : client)
    : client * bool :=
  send_message
    (PyDict [(lit "type", PyStr (lit "echo"));
             (lit "content", content);
             (lit "timestamp", PyStr (isoformat now))]) c.

(** [TCPClient.broadcast] *)
Definition broadcast (content : pyval) (now : datetime) (c : client)
    : client * bool :=
  send_message
    (PyDict [(lit "type", PyStr (lit "broadcast"));
             (lit "content", content);
             (lit "timestamp", PyStr (isoformat now))]) c.

(** [TCPClient.get_server_stats] *)
Definition get_server_stats (now : datetime) (c : client) : client * bool :=
  send_message
    (PyDict [(lit "type", PyStr (lit "get_stats"));
             (lit "timestamp", PyStr (isoformat now))]) c.

(** [TCPClient.disconnect], without the join of the receiving thread. *)
Definition disconnect (c : client) : client :=
  let s := match sock c with
           | Some s =>
               match socket_close s with
               | Ok s' => Some s'
               | Raise _ => Some s
               end
           | None => None
           end in
  mk_client (host c) (port c) s false (buffer c).

(** The buffers this client has handed to its socket. *)
Definition written (c : client) : list bytes :=
  match sock c with
  | Some s => sent s
  | None => []
  end.

End TCPClient.


(* ================================================================== *)
(** * Notions the statements use *)
(* ================================================================== *)

(** What may follow a number without being read as part of it. *)
Definition no_digit_ahead (rest : str) : Prop :=
  match rest with
  | [] => True
  | c :: _ => is_digit c = false
  end.

(** What may follow a value in the text [json.dumps] writes: the end, a
    comma, or a closing bracket or brace. *)
Definition value_end (rest : str) : Prop :=
  match rest with
  | [] => True
  | c :: _ => c = 44 \/ c = 93 \/ c = 125
  end.

(** A Unicode scalar value: a code point that is not a surrogate. *)
Definition scalar (c : Z) : bool :=
  (0 <=? c) && (c <? 0x110000) && negb (is_surrogate c).

(** The result of [scanstring] with one more character in front. *)
Definition scanned (c : Z) (r : option (str * str)) : option (str * str) :=
  match r with
  | Some (t, rest) => Some (c :: t, rest)
  | None => None
  end.

Fixpoint keys_distinct {V} (d : list (str * V)) : bool :=
  match d with
  | [] => true
  | (k, _) :: r => negb (dict_mem k r) && keys_distinct r
  end.

(** The values [json.loads (json.dumps v)] gives back unchanged: no
    [float]s, strings of Unicode scalar values, dictionaries whose keys are
    distinct (as the keys of a Python dictionary are). *)
Fixpoint json_ok (v : pyval) : bool :=
  match v with
  | PyNone | PyBool _ | PyInt _ => true
  | PyFloat _ => false
  | PyStr s => forallb scalar s
  | PyList l => forallb json_ok l
  | PyDict d =>
      forallb (fun kv => forallb scalar (fst kv) && json_ok (snd kv)) d
      && keys_distinct d
  end.

(** The first character of a value [json.dumps] writes: no white space and
    no closing bracket. *)
Definition value_start (s : str) : Prop :=
  exists c t, s = c :: t /\ is_ws c = false /\ c <> 93 /\ c <> 125.

(** [scan_once] reads back the value [json.dumps] wrote, and stops where the
    text of the value ends. *)
Definition scans_back (v : pyval) : Prop :=
  json_ok v = true ->
  forall (fuel : nat) (rest : str),
    value_end rest -> (length (json_dumps v) <= fuel)%nat ->
    scan_once fuel (json_dumps v ++ rest) = Some (v, rest).

(** The text of one [key: value] pair of a dictionary. *)
Definition dumps_item (kv : str * pyval) : str :=
  encode_basestring_ascii (fst kv) ++ lit ": " ++ json_dumps (snd kv).

(** The messages the frame codec gives back as they were sent: a dictionary
    that [json.loads] gives back, and a text that is not itself a JSON
    document. *)
Definition round_trips (m : pyval) : Prop :=
  match m with
  | PyDict _ => json_ok m = true
  | PyStr s => json_loads s = Raise JSONDecodeError
  | _ => False
  end.

(** A buffer that does not yet hold a whole frame. *)
Definition incomplete (data : bytes) : Prop :=
  TCPProtocol.len data < 4
  \/ exists n, unpack_u32 (TCPProtocol.slice 0 4 data) = Ok n
               /\ TCPProtocol.len data < 4 + n.

(** ASCII text. *)
Definition ascii (s : str) : Prop := Forall (fun c => 0 <= c < 128) s.

(** ** Sample objects *)

Definition sample_ping : pyval :=
  PyDict [(lit "type", PyStr (lit "ping"));
          (lit "timestamp", PyStr (lit "2024-05-01T10:00:00"))].

Definition bytes_of (l : list Z) : bytes := map byte_of_Z l.

(** The bytes of a frame, or nothing when the encoder raises. *)
Definition frame_of (m : pyval) : bytes :=
  match TCPProtocol.encode_message m with
  | Ok b => b
  | Raise _ => []
  end.

(** [encode_message(sample_ping)] *)
Definition sample_ping_frame : bytes := Eval vm_compute in frame_of sample_ping.

(** [encode_message("123")], [encode_message("null")] and
    [encode_message("hello")] *)
Definition text_123_frame : bytes :=
  Eval vm_compute in frame_of (PyStr (lit "123")).
Definition text_null_frame : bytes :=
  Eval vm_compute in frame_of (PyStr (lit "null")).
Definition text_hello_frame : bytes :=
  Eval vm_compute in frame_of (PyStr (lit "hello")).

(** A frame that announces one byte of payload and carries [0xFF], which is
    not UTF-8. *)
Definition bad_utf8_frame : bytes := bytes_of [0; 0; 0; 1; 255].

(* ================================================================== *)
(** * Notions the statements about the server use *)
(* ================================================================== *)

Import TCPServer.

(** The buffers handed to the socket of handler [r], oldest first. *)
Definition sent_to (r : nat) (w : server) : list bytes :=
  sent (client_socket (get_handler r w)).

(** The socket of handler [r] accepts a [send]. *)
Definition is_open (r : nat) (w : server) : Prop :=
  status (client_socket (get_handler r w)) = SockOpen.

(** The server after [frame] went out on the open socket of handler [r]. *)
Definition push (r : nat) (frame : bytes) (w : server) : server :=
  let h := get_handler r w in
  set_handler r
    (mk_handler (client_id h) (running h)
       (mk_socket SockOpen (sent (client_socket h) ++ [frame])) (buffer h)) w.

(** The server after one more call of [datetime.now()]. *)
Definition tick (w : server) : server :=
  mk_server (handlers w) (clients w) (message_count w) (start_time w)
    (now w) (S (ticks w)).

(** What the next call of [datetime.now()] returns. *)
Definition clock (w : server) : datetime := now w (ticks w).

(** The server after [frame] went out to every entry of [items] whose key
    differs from [exclude_client]. *)
Fixpoint deliver (frame : bytes) (items : list (str * nat))
    (exclude_client : option str) (w : server) : server :=
  match items with
  | [] => w
  | (k, r) :: rest =>
      deliver frame rest exclude_client
        (if differs k exclude_client then push r frame w else w)
  end.

(** Every entry of [items] that a broadcast sends to has an open socket. *)
Definition recipients_open (items : list (str * nat))
    (exclude_client : option str) (w : server) : Prop :=
  forall k r, In (k, r) items -> differs k exclude_client = true ->
              is_open r w.

(** The server after the teardown of handler [self]. *)
Definition cleaned (self : nat) (w : server) : server :=
  let h := get_handler self w in
  set_clients (dict_del (client_id h) (clients w))
    (set_handler self
       (mk_handler (client_id h) false
          (mk_socket SockClosed (sent (client_socket h))) (buffer h)) w).

(** The server after handler [self] set its buffer to [b]. *)
Definition with_buffer (self : nat) (b : bytes) (w : server) : server :=
  let h := get_handler self w in
  set_handler self
    (mk_handler (client_id h) (running h) (client_socket h) b) w.

(** The state [_cleanup] leaves a handler in: not running, its socket
    closed, no entry under its name in the registry. *)
Definition torn_down (self : nat) (w : server) : Prop :=
  running (get_handler self w) = false
  /\ status (client_socket (get_handler self w)) = SockClosed
  /\ dict_mem (client_id (get_handler self w)) (clients w) = false.

(** A computation that leaves the buffer of every handler as it was. *)
Definition keeps_buffers {A} (m : M A) : Prop :=
  forall w r, buffer (get_handler r (fst (m w))) = buffer (get_handler r w).

(** The messages the handlers build. *)
Definition pong_message (ping_timestamp : pyval) (t : datetime) (id : str)
    : pyval :=
  PyDict [(lit "type", PyStr (lit "pong"));
          (lit "ping_timestamp", ping_timestamp);
          (lit "pong_timestamp", PyStr (isoformat t));
          (lit "client_id", PyStr id)].

Definition echo_response_message (content : pyval) (t : datetime) : pyval :=
  PyDict [(lit "type", PyStr (lit "echo_response"));
          (lit "content", content);
          (lit "timestamp", PyStr (isoformat t));
          (lit "echoed_by", PyStr (lit "TCP Server"))].

Definition broadcast_fanout_message (from_client : str) (content : pyval)
    (t : datetime) : pyval :=
  PyDict [(lit "type", PyStr (lit "broadcast"));
          (lit "from_client", PyStr from_client);
          (lit "content", content);
          (lit "timestamp", PyStr (isoformat t))].

Definition broadcast_sent_message (recipients : Z) (t : datetime) : pyval :=
  PyDict [(lit "type", PyStr (lit "broadcast_sent"));
          (lit "recipients", PyInt recipients);
          (lit "timestamp", PyStr (isoformat t))].


(** ** Sample servers *)

Definition noon : datetime := mk_datetime 2024 5 1 12 0 0 0.

Definition open_socket : socket := mk_socket SockOpen [].
Definition broken_socket : socket := mk_socket SockBroken [].

Definition id_a : str := lit "10.0.0.1:5001".
Definition id_b : str := lit "10.0.0.2:5002".
Definition id_c : str := lit "10.0.0.3:5003".

(** Three connected clients A, B and C (handlers 0, 1 and 2); [sb] is the
    socket of B. *)
Definition three_clients (sb : socket) : server :=
  mk_server
    [mk_handler id_a true open_socket [];
     mk_handler id_b true sb [];
     mk_handler id_c true open_socket []]
    [(id_a, 0%nat); (id_b, 1%nat); (id_c, 2%nat)]
    0 noon (fun _ => noon) 0.

(** A server nobody is connected to. *)
Definition empty_server : server :=
  mk_server [] [] 0 noon (fun _ => noon) 0.

(** A server whose only handler was taken out of the registry by an
    earlier failed send, while its thread still has messages to process. *)
Definition orphan_server : server :=
  mk_server [mk_handler id_a false (mk_socket SockClosed []) []] []
    0 noon (fun _ => noon) 0.

(** A server with the single client A on socket [sa]. *)
Definition one_client (sa : socket) : server :=
  mk_server [mk_handler id_a true sa []] [(id_a, 0%nat)]
    0 noon (fun _ => noon) 0.

(** [{"type": "broadcast", "content": "hi"}] *)
Definition broadcast_hi : pyval :=
  PyDict [(lit "type", PyStr (lit "broadcast"));
          (lit "content", PyStr (lit "hi"))].

(** [{"type": "echo", "content": "one"}] *)
Definition echo_one : pyval :=
  PyDict [(lit "type", PyStr (lit "echo"));
          (lit "content", PyStr (lit "one"))].

(** A ping stamped by a client whose clock is years ahead of the
    server's. *)
Definition new_year_2030 : datetime := mk_datetime 2030 1 1 0 0 0 0.

Definition ping_2030 : list (str * pyval) :=
  [(lit "type", PyStr (lit "ping"));
   (lit "timestamp", PyStr (isoformat new_year_2030))].

(** The frames of the answers the sample servers give at [noon]. *)
Definition fanout_hi_frame : bytes :=
  Eval vm_compute in
    frame_of (broadcast_fanout_message id_a (PyStr (lit "hi")) noon).

Definition confirmation_2_frame : bytes :=
  Eval vm_compute in frame_of (broadcast_sent_message 2 noon).

Definition pong_2030_frame : bytes :=
  Eval vm_compute in
    frame_of (pong_message (PyStr (isoformat new_year_2030)) noon id_a).


Definition echo_empty_frame : bytes :=
  Eval vm_compute in frame_of (echo_response_message (PyStr []) noon).

(** [{"type": "echo"}], [{"type": "ping"}] and [{"type": "broadcast"}]:
    messages without their field. *)
Definition bare_echo : list (str * pyval) := [(lit "type", PyStr (lit "echo"))].
Definition bare_ping : list (str * pyval) := [(lit "type", PyStr (lit "ping"))].
Definition bare_broadcast : list (str * pyval) :=
  [(lit "type", PyStr (lit "broadcast"))].

(** A client that has not connected: [TCPClient()] *)
Definition fresh_client : TCPClient.client :=
  TCPClient.init (lit "localhost") 9999.

(** A client whose connection is up. *)
Definition connected_client : TCPClient.client :=
  TCPClient.mk_client (lit "localhost") 9999 (Some open_socket) true [].

(* ================================================================== *)
(** * The rest of the server: messages, the environment, the registry *)
(* ================================================================== *)

(** The answer to a message whose type is none of the four known ones. *)
Definition response_message (original_message : pyval) (t : datetime)
    : pyval :=
  PyDict [(lit "type", PyStr (lit "response"));
          (lit "original_message", original_message);
          (lit "timestamp", PyStr (isoformat t));
          (lit "from_server", PyBool true)].

(** What [get_stats] returns when the clock reads [t] at its first call and
    [t'] at its second. *)
Definition stats_message (w : server) (t t' : datetime) : pyval :=
  PyDict [(lit "type", PyStr (lit "server_stats"));
          (lit "connected_clients", PyInt (TCPProtocol.len (clients w)));
          (lit "uptime_seconds", PyInt (seconds_between t (start_time w)));
          (lit "total_messages", PyInt (message_count w));
          (lit "server_start_time", PyStr (isoformat (start_time w)));
          (lit "current_time", PyStr (isoformat t'))].

(** The greeting [start] sends. *)
Definition welcome_message (id : str) (t : datetime) : pyval :=
  PyDict [(lit "type", PyStr (lit "welcome"));
          (lit "client_id", PyStr id);
          (lit "message", PyStr (lit "Welcome to TCP Server!"));
          (lit "timestamp", PyStr (isoformat t))].

(** The type of a message is one of those [_process_message] has a handler
    for. *)
Definition known_type (msg_type : pyval) : bool :=
  eq_str msg_type (lit "ping") || eq_str msg_type (lit "echo")
  || eq_str msg_type (lit "broadcast") || eq_str msg_type (lit "get_stats").

(** The name [accept] gives the connection from [host:port]. *)
Definition address_id (host : str) (port : Z) : str :=
  host ++ lit ":" ++ repr_int port.

(** ** The environment *)

(** The peer of handler [r] goes away: from now on a [send] on its socket
    raises. A socket the server has closed stays closed. *)
Definition peer_gone (r : nat) (w : server) : server :=
  let h := get_handler r w in
  match status (client_socket h) with
  | SockClosed => w
  | _ =>
      set_handler r
        (mk_handler (client_id h) (running h)
           (mk_socket SockBroken (sent (client_socket h))) (buffer h)) w
  end.

(** The states the server goes through: it starts with no connection;
    connections arrive on sockets that are not closed; the thread of a
    handler reads and processes what arrives; peers go away; a broadcast is
    asked for from outside; the server is stopped. Each method runs from its
    first statement to its last. *)
Inductive reachable : server -> Prop :=
| reach_init (start_time : datetime) (now : nat -> datetime) :
    reachable (mk_server [] [] 0 start_time now 0)
| reach_accept (w : server) (s : socket) (host : str) (port : Z) :
    reachable w -> status s <> SockClosed ->
    reachable (fst (accept s host port w))
| reach_handle_client (w : server) (self : nat) (chunks : list bytes) :
    reachable w -> reachable (fst (_handle_client self chunks w))
| reach_peer_gone (w : server) (r : nat) :
    reachable w -> reachable (peer_gone r w)
| reach_broadcast (w : server) (m : pyval) (e : option str) :
    reachable w -> reachable (fst (broadcast_message m e w))
| reach_stop (w : server) :
    reachable w -> reachable (fst (stop w)).

(** What the registry holds: one entry per name, and under each name a
    handler that exists, bears that name, is running, and whose socket has
    not been closed. *)
Definition registry_ok (w : server) : Prop :=
  keys_distinct (clients w) = true
  /\ forall k r, In (k, r) (clients w) ->
       (r < length (handlers w))%nat
       /\ client_id (get_handler r w) = k
       /\ running (get_handler r w) = true
       /\ status (client_socket (get_handler r w)) <> SockClosed.

(** A computation that keeps [registry_ok]. *)
Definition keeps_registry {A} (m : M A) : Prop :=
  forall w, registry_ok w -> registry_ok (fst (m w)).

(** The server after the teardown of the handlers [l], one after the
    other. *)
Definition cleaned_all (l : list nat) (w : server) : server :=
  fold_left (fun w h => cleaned h w) l w.

(** Handler [self] was sent [frame], and nothing else changed hands: the
    other handlers, the registry and the message count are as in [w]. *)
Definition answered (self : nat) (frame : bytes) (w w' : server) : Prop :=
  sent_to self w' = sent_to self w ++ [frame]
  /\ (forall r, r <> self -> get_handler r w' = get_handler r w)
  /\ clients w' = clients w
  /\ message_count w' = message_count w.

(* ================================================================== *)
(** * The rest of [TCPClient] *)
(* ================================================================== *)

Module TCPClientRest.
Import TCPProtocol.
Import TCPClient.

(** [message.update(data)]: the entries of [data], in order, written over
    [message]. *)
Definition dict_update {V} (message data : list (str * V))
    : list (str * V) :=
  fold_left (fun d kv => dict_set (fst kv) (snd kv) d) data message.

(** The message [send_custom_message] builds; [data] is [None] or a
    dictionary, and an empty dictionary is as false as [None]. *)
Definition custom_message (msg_type : pyval)
    (data : option (list (str * pyval))) (now : datetime)
    : list (str * pyval) :=
  let message := [(lit "type", msg_type);
                  (lit "timestamp", PyStr (isoformat now))] in
  match data with
  | Some (kv :: rest) => dict_update message (kv :: rest)
  | _ => message
  end.

(** [TCPClient.send_custom_message] *)
Definition send_custom_message (msg_type : pyval)
    (data : option (list (str * pyval))) (now : datetime) (c : client)
    : client * bool :=
  send_message (PyDict (custom_message msg_type data now)) c.

(** [TCPClient.connect]: [outcome] is the socket when the connection could
    be made, [None] when [socket.connect] raised; [self.socket] is then the
    socket just created, on which every [send] raises. The thread it starts
    is [_receive_messages]. *)
Definition connect (outcome : option socket) (c : client) : client * bool :=
  match outcome with
  | Some s => (mk_client (host c) (port c) (Some s) true (buffer c), true)
  | None =>
      (mk_client (host c) (port c) (Some (mk_socket SockBroken []))
         (connected c) (buffer c), false)
  end.

Definition set_connected (b : bool) (c : client) : client :=
  mk_client (host c) (port c) (sock c) b (buffer c).

Definition set_buffer (b : bytes) (c : client) : client :=
  mk_client (host c) (port c) (sock c) (connected c) b.

(** The inner loop of [_receive_messages]. The callback is the one that
    appends the message to the list of messages delivered;
    [_handle_received_message] hands every message to it. The result says
    whether the loop ended normally or by an exception. *)
Fixpoint drain (fuel : nat) (c : client) (delivered : list pyval)
    : client * list pyval * result unit :=
  match fuel with
  | O => (c, delivered, Ok tt)
  | S fuel' =>
      match decode_message (buffer c) with
      | Raise e => (c, delivered, Raise e)
      | Ok (message, rest) =>
          let c := set_buffer rest c in
          match message with
          | PyNone => (c, delivered, Ok tt)
          | _ => drain fuel' c (delivered ++ [message])
          end
      end
  end.

(** The outer loop of [_receive_messages], over what the successive
    [recv(4096)] return; an empty read, or no more reads, is the server
    closing the connection. *)
Fixpoint receive (chunks : list bytes) (c : client) (delivered : list pyval)
    : client * list pyval * result unit :=
  match chunks with
  | [] => (c, delivered, Ok tt)
  | data :: rest =>
      if negb (connected c) then (c, delivered, Ok tt)
      else
        match data with
        | [] => (c, delivered, Ok tt)
        | _ :: _ =>
            let c := set_buffer (buffer c ++ data) c in
            match drain (S (length (buffer c))) c delivered with
            | (c, delivered, Ok _) => receive rest c delivered
            | (c, delivered, Raise e) => (c, delivered, Raise e)
            end
        end
  end.

(** [TCPClient._receive_messages]: every exception ends the loop and is
    swallowed; [connected] is false afterwards. The result is the client
    and the messages its callback has been handed. *)
Definition _receive_messages (chunks : list bytes) (c : client)
    (delivered : list pyval) : client * list pyval :=
  match receive chunks c delivered with
  | (c, delivered, _) => (set_connected false c, delivered)
  end.

End TCPClientRest.

(** [fs] are the frames of the messages [ms], which the codec gives back
    as they were sent. *)
Definition frames_of (ms : list pyval) (fs : list bytes) : Prop :=
  Forall2 (fun m f => round_trips m /\ TCPProtocol.encode_message m = Ok f)
    ms fs.

(** The buffer [b] holds the beginning of the first of the frames [fs], not
    all of it; nothing when no frame is left. *)
Definition pending (fs : list bytes) (b : bytes) : Prop :=
  match fs with
  | [] => b = []
  | f :: _ => exists k, (k < length f)%nat /\ b = firstn k f
  end.

(** ** Sample objects *)

(** A message of a type the server has no handler for. *)
Definition custom_test : list (str * pyval) :=
  [(lit "type", PyStr (lit "custom_test"));
   (lit "test_id", PyInt 123)].

Definition custom_response_frame : bytes :=
  Eval vm_compute in frame_of (response_message (PyDict custom_test) noon).

Definition stats_request : list (str * pyval) :=
  [(lit "type", PyStr (lit "get_stats"))].

Definition stats_frame : bytes :=
  Eval vm_compute in
    frame_of (stats_message (one_client open_socket) noon noon).

Definition welcome_a_frame : bytes :=
  Eval vm_compute in frame_of (welcome_message id_a noon).


(** The message [TCPClient.ping] sends. *)
Definition client_ping_message (t : datetime) (host : str) (port : Z)
    : pyval :=
  PyDict [(lit "type", PyStr (lit "ping"));
          (lit "timestamp", PyStr (isoformat t));
          (lit "client_info",
           PyStr (lit "TCP Client " ++ host ++ lit ":" ++ repr_int port))].

Definition ping_noon_frame : bytes :=
  Eval vm_compute in
    frame_of (client_ping_message noon (lit "localhost") 9999).

Definition pong_noon_frame : bytes :=
  Eval vm_compute in
    frame_of (pong_message (PyStr (isoformat noon)) noon id_a).

(** A server whose only client has a whole frame in its buffer. *)
Definition reading_client : server :=
  with_buffer 0 text_hello_frame (one_client open_socket).

(** The message [TCPClient.echo] sends. *)
Definition client_echo_message (content : pyval) (t : datetime) : pyval :=
  PyDict [(lit "type", PyStr (lit "echo"));
          (lit "content", content);
          (lit "timestamp", PyStr (isoformat t))].

(** A content that is a dictionary with a list and a text outside ASCII
    in it. *)
Definition rich_content : pyval :=
  PyDict [(lit "items", PyList [PyInt (-7); PyBool true; PyNone]);
          (lit "text", PyStr [104; 233; 8364; 128512])].

Definition echo_rich_frame : bytes :=
  Eval vm_compute in frame_of (client_echo_message rich_content noon).

Definition echo_rich_response_frame : bytes :=
  Eval vm_compute in frame_of (echo_response_message rich_content noon).
(* ================================================================== *)
(** * Bytes and the length prefix *)
(* ================================================================== *)

#[local] Arguments Z.add : simpl never.
#[local] Arguments Z.sub : simpl never.
#[local] Arguments Z.mul : simpl never.
#[local] Arguments Z.div : simpl never.
#[local] Arguments Z.modulo : simpl never.
#[local] Arguments Z.ltb : simpl never.
#[local] Arguments Z.leb : simpl never.
#[local] Arguments Z.eqb : simpl never.

Lemma Z_of_byte_range (b : byte) : 0 <= Z_of_byte b < 256.
Proof.
  unfold Z_of_byte. pose proof (Strings.Byte.to_N_bounded b). lia.
Qed.

Lemma Z_of_byte_of_Z (z : Z) : 0 <= z < 256 -> Z_of_byte (byte_of_Z z) = z.
Proof.
  intros Hz. unfold Z_of_byte, byte_of_Z.
  rewrite Z.mod_small by lia.
  destruct (Strings.Byte.of_N (Z.to_N z)) as [b|] eqn:E.
  - apply Strings.Byte.to_of_N in E. rewrite E. lia.
  - apply Strings.Byte.of_N_None_iff in E. lia.
Qed.

Lemma byte_of_Z_of_byte (b : byte) : byte_of_Z (Z_of_byte b) = b.
Proof.
  unfold byte_of_Z. pose proof (Z_of_byte_range b) as Hr.
  rewrite Z.mod_small by lia. unfold Z_of_byte. rewrite N2Z.id.
  now rewrite Strings.Byte.of_to_N.
Qed.

Lemma unpack_pack (n : Z) (b : bytes) :
  pack_u32 n = Ok b -> unpack_u32 b = Ok n /\ length b = 4%nat.
Proof.
  unfold pack_u32. destruct (_ && _) eqn:E; [|discriminate].
  intros H; injection H as <-. split; [|reflexivity].
  apply andb_true_iff in E as [H0 H1].
  apply Z.leb_le in H0. apply Z.ltb_lt in H1.
  unfold unpack_u32.
  assert (Hb : forall z, Z_of_byte (byte_of_Z z) = z mod 256).
  { intros z. unfold byte_of_Z at 1.
    pose proof (Z.mod_pos_bound z 256 ltac:(lia)) as Hm.
    unfold Z_of_byte.
    destruct (Strings.Byte.of_N (Z.to_N (z mod 256))) as [b|] eqn:E.
    - apply Strings.Byte.to_of_N in E. rewrite E. lia.
    - apply Strings.Byte.of_N_None_iff in E. lia. }
  rewrite !Hb. f_equal.
  pose proof (Z.div_mod n 16777216 ltac:(lia)).
  pose proof (Z.div_mod n 65536 ltac:(lia)).
  pose proof (Z.div_mod n 256 ltac:(lia)).
  Z.to_euclidean_division_equations. lia.
Qed.

(* ================================================================== *)
(** * UTF-8 *)
(* ================================================================== *)

Ltac euclid := Z.to_euclidean_division_equations; lia.

Ltac decide_tests :=
  repeat match goal with
    | |- context [?a <? ?b] => destruct (Z.ltb_spec a b); try euclid
    | |- context [?a <=? ?b] => destruct (Z.leb_spec a b); try euclid
    | |- context [?a =? ?b] => destruct (Z.eqb_spec a b); try euclid
    end.

Lemma utf8_decode_char (c : Z) (cb : bytes) (rest : list Z) (fuel : nat) :
  utf8_encode_char c = Some cb ->
  utf8_decode_Z (S fuel) (map Z_of_byte cb ++ rest)
  = rbind (utf8_decode_Z fuel rest) (fun s => Ok (c :: s)).
Proof.
  unfold utf8_encode_char, is_surrogate.
  destruct (Z.ltb_spec c 0); [discriminate|].
  destruct (Z.ltb_spec c 0x80).
  { intros E; injection E as <-. cbn [map app].
    rewrite Z_of_byte_of_Z by lia. cbn [utf8_decode_Z].
    destruct (Z.ltb_spec c 0x80); [reflexivity | lia]. }
  destruct (Z.ltb_spec c 0x800).
  { intros E; injection E as <-. cbn [map app].
    rewrite !Z_of_byte_of_Z by euclid. cbn [utf8_decode_Z].
    unfold is_cont. decide_tests. cbn [andb].
    replace ((0xC0 + c / 64 - 0xC0) * 64 + (0x80 + c mod 64 - 0x80)) with c
      by euclid.
    reflexivity. }
  destruct (Z.ltb_spec c 0x10000).
  { destruct (Z.leb_spec 0xD800 c); destruct (Z.leb_spec c 0xDFFF);
      cbn [andb]; try discriminate;
      (intros E; injection E as <-; cbn [map app];
       rewrite !Z_of_byte_of_Z by euclid; cbn [utf8_decode_Z];
       unfold is_cont, is_surrogate; decide_tests; cbn [andb negb];
       replace ((0xE0 + c / 4096 - 0xE0) * 4096
                + (0x80 + (c / 64) mod 64 - 0x80) * 64
                + (0x80 + c mod 64 - 0x80)) with c by euclid;
       decide_tests; reflexivity). }
  destruct (Z.ltb_spec c 0x110000); [|discriminate].
  intros E; injection E as <-. cbn [map app].
  rewrite !Z_of_byte_of_Z by euclid. cbn [utf8_decode_Z].
  unfold is_cont. decide_tests. cbn [andb].
  replace ((0xF0 + c / 262144 - 0xF0) * 262144
           + (0x80 + (c / 4096) mod 64 - 0x80) * 4096
           + (0x80 + (c / 64) mod 64 - 0x80) * 64
           + (0x80 + c mod 64 - 0x80)) with c by euclid.
  decide_tests. reflexivity.
Qed.

Lemma utf8_encode_char_length (c : Z) (cb : bytes) :
  utf8_encode_char c = Some cb -> (1 <= length cb)%nat.
Proof.
  unfold utf8_encode_char.
  repeat match goal with
    | |- context [if ?b then _ else _] => destruct b
    end; intros E; try discriminate; injection E as <-; simpl; lia.
Qed.

Lemma utf8_decode_Z_encode (s : str) :
  forall (bs : bytes) (fuel : nat),
    utf8_encode s = Ok bs -> (length bs <= fuel)%nat ->
    utf8_decode_Z fuel (map Z_of_byte bs) = Ok s.
Proof.
  induction s as [|c r IH]; intros bs fuel E Hf.
  - injection E as <-. destruct fuel; reflexivity.
  - cbn [utf8_encode] in E.
    destruct (utf8_encode_char c) as [cb|] eqn:Ec; [|discriminate].
    destruct (utf8_encode r) as [rest|] eqn:Er; [|discriminate].
    injection E as <-.
    pose proof (utf8_encode_char_length _ _ Ec) as Hl.
    rewrite length_app in Hf.
    destruct fuel as [|fuel]; [lia|].
    rewrite map_app, (utf8_decode_char _ _ _ _ Ec).
    rewrite (IH rest fuel eq_refl) by lia. reflexivity.
Qed.

(** Decoding undoes encoding: [s.encode('utf-8').decode('utf-8') == s]
    whenever the encoding exists. *)
Lemma utf8_decode_encode (s : str) (bs : bytes) :
  utf8_encode s = Ok bs -> utf8_decode bs = Ok s.
Proof.
  intros E. unfold utf8_decode. now apply utf8_decode_Z_encode.
Qed.

(** ASCII text is its own UTF-8 encoding. *)
Lemma utf8_encode_ascii (s : str) :
  ascii s -> utf8_encode s = Ok (map byte_of_Z s).
Proof.
  induction 1 as [|c r Hc _ IH]; [reflexivity|].
  cbn [utf8_encode map]. unfold utf8_encode_char.
  destruct (Z.ltb_spec c 0); [lia|].
  destruct (Z.ltb_spec c 0x80); [|lia].
  rewrite IH. reflexivity.
Qed.

(* ================================================================== *)
(** * The frame codec *)
(* ================================================================== *)

Import TCPProtocol.

(** The shape of every frame [encode_message] returns: the length of the
    payload in four bytes, then the payload, the UTF-8 encoding of the
    text. *)
Lemma encode_message_frame (m : pyval) (bs : bytes) :
  encode_message m = Ok bs ->
  exists (text : str) (payload header : bytes),
    match m with
    | PyDict _ => text = json_dumps m
    | PyStr s => text = s
    | _ => False
    end
    /\ utf8_encode text = Ok payload
    /\ pack_u32 (len payload) = Ok header
    /\ bs = header ++ payload.
Proof.
  unfold encode_message. intros E.
  destruct m; try discriminate; cbn [rbind] in E.
  - destruct (utf8_encode s) as [payload|] eqn:Ep; [|discriminate].
    cbn [rbind] in E.
    destruct (pack_u32 (len payload)) as [header|] eqn:Eh; [|discriminate].
    injection E as <-. exists s, payload, header. auto.
  - destruct (utf8_encode (json_dumps (PyDict d))) as [payload|] eqn:Ep;
      [|discriminate].
    cbn [rbind] in E.
    destruct (pack_u32 (len payload)) as [header|] eqn:Eh; [|discriminate].
    injection E as <-. exists (json_dumps (PyDict d)), payload, header. auto.
Qed.

(** What [decode_message] does with a buffer that starts with a whole
    frame: the payload is decoded, and what follows the frame is handed
    back. *)
Lemma decode_message_frame (payload header rest : bytes) :
  pack_u32 (len payload) = Ok header ->
  decode_message (header ++ payload ++ rest)
  = match rbind (utf8_decode payload) json_loads with
    | Ok message => Ok (message, rest)
    | Raise JSONDecodeError =>
        rbind (utf8_decode payload) (fun text => Ok (PyStr text, rest))
    | Raise e => Raise e
    end.
Proof.
  intros Eh. destruct (unpack_pack _ _ Eh) as [Eu Hl].
  unfold decode_message, len, slice, slice_from.
  rewrite !length_app, Hl.
  destruct (Z.ltb_spec (Z.of_nat (4 + (length payload + length rest))) 4);
    [lia|].
  change (Z.to_nat (4 - 0)) with 4%nat. change (Z.to_nat 0) with 0%nat.
  cbn [skipn].
  assert (E4 : firstn 4 (header ++ payload ++ rest) = header).
  { rewrite <- Hl, firstn_app, Nat.sub_diag, firstn_all. cbn [firstn].
    apply app_nil_r. }
  rewrite E4, Eu. cbn [rbind]. unfold len.
  destruct (Z.ltb_spec (Z.of_nat (4 + (length payload + length rest)))
              (4 + Z.of_nat (length payload))); [lia|].
  replace (Z.to_nat (4 + Z.of_nat (length payload) - 4))
    with (length payload) by lia.
  replace (Z.to_nat 4) with (length header) by (rewrite Hl; reflexivity).
  replace (Z.to_nat (4 + Z.of_nat (length payload)))
    with (length header + length payload)%nat by lia.
  rewrite skipn_app, skipn_all, Nat.sub_diag. cbn [skipn app].
  rewrite firstn_app, Nat.sub_diag, firstn_all. cbn [firstn].
  rewrite app_nil_r.
  rewrite app_assoc, skipn_app, <- length_app, skipn_all, Nat.sub_diag.
  reflexivity.
Qed.

(** A buffer shorter than the frame it announces is handed back as it
    is, with [None]. *)
Lemma decode_message_short (payload header : bytes) (k : nat) :
  pack_u32 (len payload) = Ok header ->
  (k < length (header ++ payload))%nat ->
  decode_message (firstn k (header ++ payload))
  = Ok (PyNone, firstn k (header ++ payload)).
Proof.
  intros Eh Hk. destruct (unpack_pack _ _ Eh) as [Eu Hl].
  unfold decode_message, len, slice.
  rewrite length_firstn, Nat.min_l by lia.
  destruct (Z.ltb_spec (Z.of_nat k) 4); [reflexivity|].
  change (Z.to_nat (4 - 0)) with 4%nat. change (Z.to_nat 0) with 0%nat.
  cbn [skipn]. rewrite firstn_firstn, Nat.min_l by lia.
  rewrite <- Hl, firstn_app, Nat.sub_diag, firstn_all. cbn [firstn].
  rewrite app_nil_r, Eu. cbn [rbind]. unfold len.
  rewrite length_app in Hk.
  destruct (Z.ltb_spec (Z.of_nat k) (4 + Z.of_nat (length payload)));
    [reflexivity | lia].
Qed.

(* ================================================================== *)
(** * [json.loads] undoes [json.dumps] *)
(* ================================================================== *)

(** ** Integers *)

Lemma digits_are_digits (u : Decimal.uint) :
  Forall (fun c => is_digit c = true) (digits u).
Proof. induction u; cbn [digits]; constructor; auto. Qed.

Lemma uint_of_digits (u : Decimal.uint) :
  fold_right uint_cons Decimal.Nil (digits u) = u.
Proof. induction u; cbn [digits fold_right]; rewrite ?IHu; reflexivity. Qed.

Lemma span_digits_app (ds rest : str) :
  Forall (fun c => is_digit c = true) ds -> no_digit_ahead rest ->
  span_digits (ds ++ rest) = (ds, rest).
Proof.
  intros Hd Hr. induction Hd as [|c r Hc _ IH]; cbn [app span_digits].
  - destruct rest as [|c r]; [reflexivity|]. cbn [span_digits].
    cbn in Hr. now rewrite Hr.
  - now rewrite Hc, IH.
Qed.

Lemma to_uint_no_leading_zero (p : positive) (u : Decimal.uint) :
  Pos.to_uint p <> Decimal.D0 u.
Proof.
  intros E.
  pose proof (DecimalPos.Unsigned.to_of (Pos.to_uint p)) as H.
  rewrite DecimalPos.Unsigned.of_to in H. cbn [N.to_uint] in H.
  rewrite E in H. unfold Decimal.unorm in H.
  destruct (Decimal.nzhead (Decimal.D0 u)) eqn:En;
    try (symmetry in H; revert H; rewrite <- En;
         apply DecimalFacts.nzhead_nonzero).
  injection H as ->.
  apply (DecimalPos.Unsigned.to_uint_nonzero p). exact E.
Qed.

Lemma to_uint_head (p : positive) :
  exists c t, digits (Pos.to_uint p) = c :: t /\ 49 <= c <= 57.
Proof.
  pose proof (to_uint_no_leading_zero p) as H0.
  pose proof (DecimalPos.Unsigned.to_uint_nonnil p) as Hn.
  destruct (Pos.to_uint p) as [|u|u|u|u|u|u|u|u|u|u]; cbn [digits];
    try (eexists _, _; split; [reflexivity | lia]).
  - now elim Hn.
  - now elim (H0 u).
Qed.

Lemma int_of_digits_to_uint (p : positive) :
  int_of_digits (digits (Pos.to_uint p)) = Z.pos p.
Proof.
  unfold int_of_digits, Z.of_uint.
  now rewrite uint_of_digits, DecimalPos.Unsigned.of_to.
Qed.

Lemma value_end_no_digit (rest : str) : value_end rest -> no_digit_ahead rest.
Proof.
  destruct rest as [|c r]; [trivial|]. cbn.
  intros [->|[->| ->]]; reflexivity.
Qed.

Lemma match_frac_end (rest : str) :
  value_end rest -> match_frac rest = ([], rest).
Proof.
  destruct rest as [|c [|d r]]; try reflexivity. cbn.
  intros [->|[->| ->]]; reflexivity.
Qed.

Lemma match_exp_end (rest : str) :
  value_end rest -> match_exp rest = ([], rest).
Proof.
  destruct rest as [|c r]; try reflexivity. cbn.
  intros [->|[->| ->]]; reflexivity.
Qed.

Lemma is_digit_true (c : Z) : 48 <= c <= 57 -> is_digit c = true.
Proof.
  intros H. unfold is_digit. apply andb_true_iff; split; apply Z.leb_le; lia.
Qed.

Lemma match_number_unsigned (c : Z) (t rest : str) :
  49 <= c <= 57 -> Forall (fun c => is_digit c = true) t -> value_end rest ->
  match_number (c :: t ++ rest)
  = Some (PyInt (int_of_digits (c :: t)), rest).
Proof.
  intros Hc Ht Hr. unfold match_number.
  replace (c =? 45) with false by (symmetry; apply Z.eqb_neq; lia).
  rewrite (is_digit_true c) by lia.
  replace (c =? 48) with false by (symmetry; apply Z.eqb_neq; lia).
  change (c :: t ++ rest) with ((c :: t) ++ rest).
  rewrite span_digits_app; auto using value_end_no_digit.
  - rewrite (match_frac_end _ Hr), (match_exp_end _ Hr). reflexivity.
  - constructor; auto. apply is_digit_true. lia.
Qed.

Lemma match_number_negative (c : Z) (t rest : str) :
  49 <= c <= 57 -> Forall (fun c => is_digit c = true) t -> value_end rest ->
  match_number (45 :: c :: t ++ rest)
  = Some (PyInt (- int_of_digits (c :: t)), rest).
Proof.
  intros Hc Ht Hr. unfold match_number.
  change (45 =? 45) with true. cbv beta iota zeta.
  rewrite (is_digit_true c) by lia.
  replace (c =? 48) with false by (symmetry; apply Z.eqb_neq; lia).
  change (c :: t ++ rest) with ((c :: t) ++ rest).
  rewrite span_digits_app; auto using value_end_no_digit.
  - rewrite (match_frac_end _ Hr), (match_exp_end _ Hr). reflexivity.
  - constructor; auto. apply is_digit_true. lia.
Qed.

Lemma match_number_zero (rest : str) :
  value_end rest -> match_number (48 :: rest) = Some (PyInt 0, rest).
Proof.
  intros Hr. unfold match_number.
  change (48 =? 45) with false. cbv beta iota zeta.
  change (is_digit 48) with true. change (48 =? 48) with true.
  cbv beta iota zeta.
  rewrite (match_frac_end _ Hr), (match_exp_end _ Hr). reflexivity.
Qed.

Lemma match_number_repr (n : Z) (rest : str) :
  value_end rest ->
  match_number (repr_int n ++ rest) = Some (PyInt n, rest).
Proof.
  intros Hr. destruct n as [|p|p]; cbn [repr_int].
  - now apply match_number_zero.
  - destruct (to_uint_head p) as (c & t & E & Hc).
    pose proof (digits_are_digits (Pos.to_uint p)) as Hd.
    rewrite E in Hd |- *. cbn [app].
    rewrite match_number_unsigned; auto; [|now inversion Hd].
    now rewrite <- E, int_of_digits_to_uint.
  - destruct (to_uint_head p) as (c & t & E & Hc).
    pose proof (digits_are_digits (Pos.to_uint p)) as Hd.
    rewrite E in Hd |- *. cbn [app].
    rewrite match_number_negative; auto; [|now inversion Hd].
    now rewrite <- E, int_of_digits_to_uint.
Qed.

(** ** Strings *)

Ltac tests :=
  repeat match goal with
    | |- context [?a <? ?b] => destruct (Z.ltb_spec a b); try (exfalso; euclid)
    | |- context [?a <=? ?b] => destruct (Z.leb_spec a b); try (exfalso; euclid)
    | |- context [?a =? ?b] => destruct (Z.eqb_spec a b); try (exfalso; euclid)
    end.

Lemma hex_val_hex_digit (d : Z) :
  0 <= d < 16 -> hex_val (hex_digit d) = Some d.
Proof.
  intros Hd. unfold hex_val, hex_digit, is_digit.
  destruct (Z.ltb_spec d 10); tests; cbn [andb]; f_equal; lia.
Qed.

Lemma parse_hex4_u_escape (n : Z) (rest : str) :
  0 <= n < 0x10000 ->
  exists a b c d,
    u_escape n = [92; 117; a; b; c; d]
    /\ parse_hex4 (a :: b :: c :: d :: rest) = Some (n, rest).
Proof.
  intros Hn. unfold u_escape. do 4 eexists. split; [reflexivity|].
  unfold parse_hex4. rewrite !hex_val_hex_digit by euclid.
  do 2 f_equal. euclid.
Qed.

Lemma scalar_range (c : Z) :
  scalar c = true -> 0 <= c < 0x110000 /\ (c < 0xD800 \/ 0xDFFF < c).
Proof.
  unfold scalar, is_surrogate. intros H.
  apply andb_true_iff in H as [H H3]. apply andb_true_iff in H as [H1 H2].
  apply Z.leb_le in H1. apply Z.ltb_lt in H2.
  apply negb_true_iff, andb_false_iff in H3 as [H3|H3].
  - apply Z.leb_gt in H3. lia.
  - apply Z.leb_gt in H3. lia.
Qed.

Lemma scanstring_escape_char (c : Z) (rest : str) (fuel : nat) :
  scalar c = true ->
  scanstring (S fuel) (escape_char c ++ rest)
  = scanned c (scanstring fuel rest).
Proof.
  intros Hs. apply scalar_range in Hs as [Hc Hns].
  unfold escape_char.
  destruct (Z.eqb_spec c 34) as [->|N1]; [reflexivity|].
  destruct (Z.eqb_spec c 92) as [->|N2]; [reflexivity|].
  destruct (Z.eqb_spec c 8) as [->|N3]; [reflexivity|].
  destruct (Z.eqb_spec c 12) as [->|N4]; [reflexivity|].
  destruct (Z.eqb_spec c 10) as [->|N5]; [reflexivity|].
  destruct (Z.eqb_spec c 13) as [->|N6]; [reflexivity|].
  destruct (Z.eqb_spec c 9) as [->|N7]; [reflexivity|].
  destruct (Z.leb_spec 32 c) as [L1|L1];
    [destruct (Z.leb_spec c 126) as [L2|L2]|]; cbn [andb].
  - (* printable *)
    cbn [app scanstring]. tests. reflexivity.
  - (* above the printable range *)
    destruct (Z.ltb_spec c 0x10000) as [L3|L3].
    + destruct (parse_hex4_u_escape c rest ltac:(lia)) as (a & b & x & d & E & P).
      rewrite E. cbn [app scanstring].
      change (92 =? 34) with false. change (92 =? 92) with true.
      change (117 =? 117) with true. cbv beta iota. rewrite P.
      tests; cbn [andb]; reflexivity.
    + set (n := c - 0x10000).
      destruct (parse_hex4_u_escape (0xD800 + (n / 1024) mod 1024)
                  (u_escape (0xDC00 + n mod 1024) ++ rest)
                  ltac:(subst n; euclid)) as (a & b & x & d & E & P).
      destruct (parse_hex4_u_escape (0xDC00 + n mod 1024) rest
                  ltac:(subst n; euclid)) as (a' & b' & x' & d' & E' & P').
      rewrite E. rewrite E' in P |- *. cbn [app scanstring].
      change (92 =? 34) with false. change (92 =? 92) with true.
      change (117 =? 117) with true. cbv beta iota.
      cbn [app] in P. rewrite P.
      cbn [strip_prefix].
      change (92 =? 92) with true. change (117 =? 117) with true.
      cbv beta iota. rewrite P'.
      replace (0x10000 + (0xD800 + (n / 1024) mod 1024 - 0xD800) * 1024
               + (0xDC00 + n mod 1024 - 0xDC00)) with c by (subst n; euclid).
      subst n. tests; cbn [andb]; reflexivity.
  - (* control characters *)
    destruct (Z.ltb_spec c 0x10000) as [L3|L3]; [|lia].
    destruct (parse_hex4_u_escape c rest ltac:(lia)) as (a & b & x & d & E & P).
    rewrite E. cbn [app scanstring].
    change (92 =? 34) with false. change (92 =? 92) with true.
    change (117 =? 117) with true. cbv beta iota. rewrite P.
    tests; cbn [andb]; reflexivity.
Qed.

Lemma scanstring_escaped (s rest : str) :
  forall fuel,
    forallb scalar s = true -> (length s < fuel)%nat ->
    scanstring fuel (flat_map escape_char s ++ 34 :: rest) = Some (s, rest).
Proof.
  induction s as [|c r IH]; intros fuel Hs Hf.
  - destruct fuel; [lia|]. reflexivity.
  - cbn [forallb] in Hs. apply andb_true_iff in Hs as [Hc Hr].
    cbn [length] in Hf. destruct fuel as [|fuel]; [lia|].
    cbn [flat_map]. rewrite <- app_assoc.
    rewrite scanstring_escape_char by assumption.
    rewrite IH by (assumption || lia). reflexivity.
Qed.

Lemma escape_char_length (c : Z) : (1 <= length (escape_char c))%nat.
Proof.
  unfold escape_char, u_escape.
  repeat match goal with
    | |- context [if ?b then _ else _] => destruct b
    end; cbn [length app]; lia.
Qed.

Lemma flat_map_escape_length (s : str) :
  (length s <= length (flat_map escape_char s))%nat.
Proof.
  induction s as [|c r IH]; [reflexivity|].
  cbn [flat_map length]. rewrite length_app.
  pose proof (escape_char_length c). lia.
Qed.

(** [parse_string] reads back what [encode_basestring_ascii] wrote. *)
Lemma parse_string_encoded (s rest : str) :
  forallb scalar s = true ->
  exists t,
    encode_basestring_ascii s = 34 :: t
    /\ parse_string (t ++ rest) = Some (s, rest).
Proof.
  intros Hs. exists (flat_map escape_char s ++ [34]). split; [reflexivity|].
  unfold parse_string. rewrite <- app_assoc. cbn [app].
  apply scanstring_escaped; [assumption|].
  rewrite length_app. cbn [length].
  pose proof (flat_map_escape_length s). lia.
Qed.

(** ** Values *)

Lemma pyval_induction (P : pyval -> Prop) :
  P PyNone ->
  (forall b, P (PyBool b)) ->
  (forall n, P (PyInt n)) ->
  (forall l, P (PyFloat l)) ->
  (forall s, P (PyStr s)) ->
  (forall l, Forall P l -> P (PyList l)) ->
  (forall d, Forall (fun kv => P (snd kv)) d -> P (PyDict d)) ->
  forall v, P v.
Proof.
  intros HN HB HI HF HS HL HD.
  fix IH 1. intros [| b | n | l | s | l | d].
  - exact HN.
  - apply HB.
  - apply HI.
  - apply HF.
  - apply HS.
  - apply HL. induction l as [|x r IHr]; constructor; [apply IH | exact IHr].
  - apply HD. induction d as [|[k x] r IHr]; constructor;
      [apply IH | exact IHr].
Qed.

Lemma str_eqb_eq (a b : str) : str_eqb a b = true <-> a = b.
Proof.
  unfold str_eqb. destruct (list_eq_dec Z.eq_dec a b); split;
    congruence.
Qed.

Lemma str_eqb_refl (a : str) : str_eqb a a = true.
Proof. now apply str_eqb_eq. Qed.

Lemma dict_set_fresh {V} (k : str) (v : V) (d : list (str * V)) :
  dict_mem k d = false -> dict_set k v d = d ++ [(k, v)].
Proof.
  unfold dict_mem. induction d as [|[k' v'] r IH]; [reflexivity|].
  cbn [dict_get dict_set app]. destruct (str_eqb k k'); [discriminate|].
  intros H. now rewrite IH.
Qed.

Lemma dict_mem_app {V} (k : str) (a b : list (str * V)) :
  dict_mem k (a ++ b) = dict_mem k a || dict_mem k b.
Proof.
  unfold dict_mem. induction a as [|[k' v'] r IH]; [reflexivity|].
  cbn [dict_get app]. destruct (str_eqb k k'); [reflexivity | exact IH].
Qed.

Lemma dict_mem_false_in {V} (k k' : str) (v' : V) (d : list (str * V)) :
  dict_mem k d = false -> In (k', v') d -> str_eqb k' k = false.
Proof.
  unfold dict_mem. induction d as [|[k0 v0] r IH]; [contradiction|].
  cbn [dict_get In]. destruct (str_eqb k k0) eqn:E; [discriminate|].
  intros H [H1|H1]; [|now apply IH].
  injection H1 as -> ->.
  destruct (str_eqb k' k) eqn:E'; [|reflexivity].
  apply str_eqb_eq in E' as ->. now rewrite str_eqb_refl in E.
Qed.

Lemma dict_of_pairs_acc {V} (d acc : list (str * V)) :
  keys_distinct d = true ->
  (forall kv, In kv d -> dict_mem (fst kv) acc = false) ->
  fold_left (fun d kv => dict_set (fst kv) (snd kv) d) d acc = acc ++ d.
Proof.
  revert acc. induction d as [|[k v] r IH]; intros acc Hd Ha.
  - now rewrite app_nil_r.
  - cbn [keys_distinct] in Hd. apply andb_true_iff in Hd as [Hk Hr].
    apply negb_true_iff in Hk.
    cbn [fold_left fst snd].
    rewrite dict_set_fresh by (apply (Ha (k, v)); now left).
    rewrite IH; [now rewrite <- app_assoc | assumption |].
    intros [k' v'] Hin. cbn [fst]. rewrite dict_mem_app.
    pose proof (Ha (k', v') (or_intror Hin)) as Hm. cbn [fst] in Hm.
    rewrite Hm. cbn [orb].
    unfold dict_mem. cbn [dict_get].
    now rewrite (dict_mem_false_in k k' v' r Hk Hin).
Qed.

(** [dict(d.items()) == d] *)
Lemma dict_of_pairs_distinct {V} (d : list (str * V)) :
  keys_distinct d = true -> dict_of_pairs d = d.
Proof.
  intros H. unfold dict_of_pairs. now rewrite dict_of_pairs_acc.
Qed.

Lemma value_start_app (s t : str) : value_start s -> value_start (s ++ t).
Proof.
  intros (c & u & -> & H). exists c, (u ++ t). auto.
Qed.

Lemma skip_ws_value_start (s : str) : value_start s -> skip_ws s = s.
Proof.
  intros (c & t & -> & Hw & _). cbn [skip_ws]. now rewrite Hw.
Qed.

Lemma json_dumps_start (v : pyval) :
  json_ok v = true -> value_start (json_dumps v).
Proof.
  assert (K : forall c t, is_ws c = false -> c <> 93 -> c <> 125 ->
                          value_start (c :: t)).
  { intros c t H1 H2 H3. exists c, t. auto. }
  assert (K' : forall c t, is_ws c = false /\ c <> 93 /\ c <> 125 ->
                           value_start (c :: t)).
  { intros c t (H1 & H2 & H3). now apply K. }
  destruct v as [| [|] | n | l | s | l | d]; intros H;
    try discriminate H;
    try (apply K'; vm_compute; repeat split; discriminate).
  destruct n as [|p|p]; cbn [json_dumps repr_int];
    try (apply K'; vm_compute; repeat split; discriminate).
  destruct (to_uint_head p) as (c & t & -> & Hc).
  apply K; try lia. unfold is_ws.
  repeat (apply orb_false_iff; split); apply Z.eqb_neq; lia.
Qed.

Lemma join_cons2 (sep x : str) (y : str) (r : list str) :
  join sep (x :: y :: r) = x ++ sep ++ join sep (y :: r).
Proof. reflexivity. Qed.

Lemma join_start (sep x : str) (r : list str) :
  value_start x -> value_start (join sep (x :: r)).
Proof.
  intros H. destruct r as [|y r]; [exact H|].
  rewrite join_cons2. now apply value_start_app.
Qed.

(** The equations of the scanner. *)

Lemma scan_once_string (fuel : nat) (r : str) :
  scan_once (S fuel) (34 :: r)
  = match parse_string r with
    | Some (t, rest) => Some (PyStr t, rest)
    | None => None
    end.
Proof. reflexivity. Qed.

Lemma scan_once_array (fuel : nat) (r : str) :
  scan_once (S fuel) (91 :: r)
  = match skip_ws r with
    | [] => None
    | c' :: r' =>
        if c' =? 93 then Some (PyList [], r')
        else
          match parse_array fuel (c' :: r') with
          | Some (items, rest) => Some (PyList items, rest)
          | None => None
          end
    end.
Proof. reflexivity. Qed.

Lemma scan_once_object (fuel : nat) (r : str) :
  scan_once (S fuel) (123 :: r)
  = match skip_ws r with
    | [] => None
    | c' :: r' =>
        if c' =? 125 then Some (PyDict [], r')
        else
          match parse_object fuel (c' :: r') with
          | Some (pairs, rest) => Some (PyDict (dict_of_pairs pairs), rest)
          | None => None
          end
    end.
Proof. reflexivity. Qed.

Lemma scan_once_number (fuel : nat) (c : Z) (t : str) (res : pyval * str) :
  c = 45 \/ 48 <= c <= 57 ->
  match_number (c :: t) = Some res ->
  scan_once (S fuel) (c :: t) = Some res.
Proof.
  intros Hc Hm. cbn [scan_once]. tests.
  change (lit "null") with [110; 117; 108; 108].
  change (lit "true") with [116; 114; 117; 101].
  change (lit "false") with [102; 97; 108; 115; 101].
  cbn [strip_prefix]. tests. now rewrite Hm.
Qed.

Lemma parse_array_S (fuel : nat) (s : str) :
  parse_array (S fuel) s
  = match scan_once fuel s with
    | None => None
    | Some (v, r) =>
        match skip_ws r with
        | [] => None
        | c :: r' =>
            if c =? 93 then Some ([v], r')
            else if c =? 44 then
              match parse_array fuel (skip_ws r') with
              | Some (vs, rest) => Some (v :: vs, rest)
              | None => None
              end
            else None
        end
    end.
Proof. reflexivity. Qed.

Lemma parse_object_S (fuel : nat) (r : str) :
  parse_object (S fuel) (34 :: r)
  = match parse_string r with
    | None => None
    | Some (key, r1) =>
        match skip_ws r1 with
        | [] => None
        | c1 :: r2 =>
            if c1 =? 58 then
              match scan_once fuel (skip_ws r2) with
              | None => None
              | Some (v, r3) =>
                  match skip_ws r3 with
                  | [] => None
                  | c3 :: r4 =>
                      if c3 =? 125 then Some ([(key, v)], r4)
                      else if c3 =? 44 then
                        match parse_object fuel (skip_ws r4) with
                        | Some (kvs, rest) => Some ((key, v) :: kvs, rest)
                        | None => None
                        end
                      else None
                  end
              end
            else None
        end
    end.
Proof. reflexivity. Qed.

Lemma skip_ws_keep (c : Z) (r : str) :
  is_ws c = false -> skip_ws (c :: r) = c :: r.
Proof. intros H. cbn [skip_ws]. now rewrite H. Qed.

Lemma skip_ws_space (r : str) : skip_ws (32 :: r) = skip_ws r.
Proof. reflexivity. Qed.

Lemma parse_array_items (l : list pyval) :
  Forall scans_back l -> forallb json_ok l = true -> l <> [] ->
  forall (fuel : nat) (rest : str),
    (length (join [44; 32]%Z (map json_dumps l)) < fuel)%nat ->
    parse_array fuel (join [44; 32] (map json_dumps l) ++ 93 :: rest)
    = Some (l, rest).
Proof.
  induction 1 as [|x r Hx Hr IH]; intros Hok Hne fuel rest Hf;
    [congruence|].
  cbn [forallb] in Hok. apply andb_true_iff in Hok as [Hokx Hokr].
  destruct fuel as [|fuel]; [lia|]. rewrite parse_array_S.
  destruct r as [|y r'].
  - cbn [map join] in Hf |- *.
    rewrite (Hx Hokx fuel (93 :: rest)); [|cbn; auto|lia].
    rewrite (skip_ws_keep 93) by reflexivity. reflexivity.
  - cbn [map] in Hf |- *. rewrite join_cons2 in Hf |- *.
    rewrite !length_app in Hf. cbn [length] in Hf.
    rewrite <- !app_assoc. cbn [app].
    rewrite (Hx Hokx fuel); [|cbn; auto|lia].
    rewrite (skip_ws_keep 44) by reflexivity.
    change (44 =? 93) with false. change (44 =? 44) with true.
    cbv beta iota. rewrite skip_ws_space.
    change (json_dumps y :: map json_dumps r')
      with (map json_dumps (y :: r')) in Hf |- *.
    rewrite skip_ws_value_start.
    + rewrite (IH Hokr ltac:(discriminate) fuel rest) by lia.
      reflexivity.
    + apply value_start_app. change (map json_dumps (y :: r'))
        with (json_dumps y :: map json_dumps r').
      apply join_start, json_dumps_start.
      cbn [forallb] in Hokr. now apply andb_true_iff in Hokr as [? _].
Qed.

Lemma dumps_item_start (kv : str * pyval) :
  exists t, dumps_item kv = 34 :: t.
Proof. eexists. reflexivity. Qed.

Lemma dumps_item_value_start (kv : str * pyval) : value_start (dumps_item kv).
Proof.
  destruct (dumps_item_start kv) as [t ->]. exists 34, t.
  repeat split; (reflexivity || lia).
Qed.

Lemma parse_object_item (k : str) (v : pyval) (tail : str) (fuel : nat) :
  forallb scalar k = true -> json_ok v = true -> scans_back v ->
  value_end tail -> (length (dumps_item (k, v)) <= fuel)%nat ->
  exists t,
    dumps_item (k, v) ++ tail = 34 :: t
    /\ parse_object (S fuel) (34 :: t)
       = match skip_ws tail with
         | [] => None
         | c3 :: r4 =>
             if c3 =? 125 then Some ([(k, v)], r4)
             else if c3 =? 44 then
               match parse_object fuel (skip_ws r4) with
               | Some (kvs, rest) => Some ((k, v) :: kvs, rest)
               | None => None
               end
             else None
         end.
Proof.
  intros Hk Hv Hs Ht Hf.
  destruct (parse_string_encoded k (58 :: 32 :: json_dumps v ++ tail) Hk)
    as (t & Et & Pt).
  unfold dumps_item in *. cbn [fst snd] in *.
  rewrite Et in Hf |- *. change (lit ": ") with [58; 32] in Hf |- *.
  exists (t ++ 58 :: 32 :: json_dumps v ++ tail). split.
  { cbn [app]. rewrite <- !app_assoc. reflexivity. }
  rewrite parse_object_S, Pt.
  rewrite (skip_ws_keep 58) by reflexivity.
  change (58 =? 58) with true. cbv beta iota.
  rewrite skip_ws_space.
  rewrite skip_ws_value_start
    by (apply value_start_app, json_dumps_start, Hv).
  rewrite (Hs Hv fuel tail Ht).
  - reflexivity.
  - cbn [length] in Hf. rewrite !length_app in Hf. cbn [length] in Hf. lia.
Qed.

Lemma parse_object_pairs (d : list (str * pyval)) :
  Forall (fun kv => scans_back (snd kv)) d ->
  forallb (fun kv => forallb scalar (fst kv) && json_ok (snd kv)) d = true ->
  d <> [] ->
  forall (fuel : nat) (rest : str),
    (length (join [44; 32]%Z (map dumps_item d)) < fuel)%nat ->
    parse_object fuel (join [44; 32] (map dumps_item d) ++ 125 :: rest)
    = Some (d, rest).
Proof.
  induction 1 as [|[k v] r Hx Hr IH]; intros Hok Hne fuel rest Hf;
    [congruence|].
  cbn [forallb fst snd] in Hok, Hx.
  apply andb_true_iff in Hok as [Hokx Hokr].
  apply andb_true_iff in Hokx as [Hk Hv].
  destruct fuel as [|fuel]; [lia|].
  destruct r as [|y r'].
  - cbn [map join] in Hf |- *.
    destruct (parse_object_item k v (125 :: rest) fuel Hk Hv Hx)
      as (t & Et & Pt); [cbn; auto | lia |].
    rewrite Et, Pt. rewrite (skip_ws_keep 125) by reflexivity.
    reflexivity.
  - change (map dumps_item ((k, v) :: y :: r'))
      with (dumps_item (k, v) :: dumps_item y :: map dumps_item r')
      in Hf |- *.
    rewrite join_cons2 in Hf |- *.
    change (dumps_item y :: map dumps_item r')
      with (map dumps_item (y :: r')) in Hf |- *.
    rewrite !length_app in Hf. cbn [length] in Hf.
    rewrite <- !app_assoc. cbn [app].
    destruct (parse_object_item k v
                (44 :: 32 :: join [44; 32] (map dumps_item (y :: r'))
                 ++ 125 :: rest) fuel Hk Hv Hx)
      as (t & Et & Pt); [cbn; auto | lia |].
    rewrite Et, Pt. rewrite (skip_ws_keep 44) by reflexivity.
    change (44 =? 125) with false. change (44 =? 44) with true.
    cbv beta iota. rewrite skip_ws_space.
    rewrite skip_ws_value_start
      by (apply value_start_app, join_start, dumps_item_value_start).
    rewrite (IH Hokr ltac:(discriminate) fuel rest) by lia.
    reflexivity.
Qed.

Lemma json_dumps_list (l : list pyval) :
  json_dumps (PyList l) = 91 :: join [44; 32] (map json_dumps l) ++ [93].
Proof. reflexivity. Qed.

Lemma json_dumps_dict (d : list (str * pyval)) :
  json_dumps (PyDict d) = 123 :: join [44; 32] (map dumps_item d) ++ [125].
Proof. reflexivity. Qed.

Theorem scan_once_json_dumps (v : pyval) : scans_back v.
Proof.
  induction v as [| b | n | l | s | l IH | d IH] using pyval_induction;
    intros Hok fuel rest Hr Hf.
  - destruct fuel as [|fuel]; [cbn in Hf; lia | reflexivity].
  - destruct fuel as [|fuel]; [destruct b; cbn in Hf; lia|].
    destruct b; reflexivity.
  - destruct fuel as [|fuel].
    { destruct (json_dumps_start (PyInt n) eq_refl) as (c & t & E & _).
      rewrite E in Hf. cbn in Hf. lia. }
    cbn [json_dumps].
    pose proof (match_number_repr n rest Hr) as Hm.
    destruct n as [|p|p]; cbn [repr_int] in Hm |- *.
    + apply scan_once_number; [lia | exact Hm].
    + destruct (to_uint_head p) as (c & t & E & Hc).
      rewrite E in Hm |- *. apply scan_once_number; [lia | exact Hm].
    + apply scan_once_number; [lia | exact Hm].
  - discriminate.
  - cbn [json_ok] in Hok.
    destruct (parse_string_encoded s rest Hok) as (t & Et & Pt).
    cbn [json_dumps] in Hf |- *. rewrite Et in Hf |- *.
    destruct fuel as [|fuel]; [cbn in Hf; lia|].
    cbn [app]. now rewrite scan_once_string, Pt.
  - cbn [json_ok] in Hok. rewrite json_dumps_list in Hf |- *.
    destruct fuel as [|fuel]; [cbn in Hf; lia|].
    cbn [app]. rewrite scan_once_array.
    destruct l as [|x r].
    + reflexivity.
    + rewrite <- app_assoc. cbn [app]. cbn [length] in Hf.
      rewrite length_app in Hf. cbn [length] in Hf.
      assert (Hs : value_start
                     (join [44; 32] (map json_dumps (x :: r)) ++ 93 :: rest)).
      { apply value_start_app, join_start, json_dumps_start.
        cbn [forallb] in Hok. now apply andb_true_iff in Hok as [? _]. }
      rewrite (skip_ws_value_start _ Hs).
      destruct Hs as (c & t & E & _ & N93 & _).
      rewrite E. apply Z.eqb_neq in N93. rewrite N93. rewrite <- E.
      rewrite (parse_array_items _ IH Hok ltac:(discriminate)) by lia.
      reflexivity.
  - cbn [json_ok] in Hok. apply andb_true_iff in Hok as [Hok Hd].
    rewrite json_dumps_dict in Hf |- *.
    destruct fuel as [|fuel]; [cbn in Hf; lia|].
    cbn [app]. rewrite scan_once_object.
    destruct d as [|x r].
    + reflexivity.
    + rewrite <- app_assoc. cbn [app]. cbn [length] in Hf.
      rewrite length_app in Hf. cbn [length] in Hf.
      assert (Hs : value_start
                     (join [44; 32] (map dumps_item (x :: r)) ++ 125 :: rest)).
      { apply value_start_app, join_start, dumps_item_value_start. }
      rewrite (skip_ws_value_start _ Hs).
      destruct Hs as (c & t & E & _ & _ & N125).
      rewrite E. apply Z.eqb_neq in N125. rewrite N125. rewrite <- E.
      rewrite (parse_object_pairs _ IH Hok ltac:(discriminate)) by lia.
      now rewrite dict_of_pairs_distinct.
Qed.

(** [json.loads(json.dumps(v)) == v] *)
Theorem json_loads_dumps (v : pyval) :
  json_ok v = true -> json_loads (json_dumps v) = Ok v.
Proof.
  intros Hok. unfold json_loads.
  rewrite (skip_ws_value_start _ (json_dumps_start v Hok)).
  pose proof (scan_once_json_dumps v Hok (S (length (json_dumps v))) []
                I ltac:(lia)) as H.
  rewrite List.app_nil_r in H. now rewrite H.
Qed.


(* ================================================================== *)
(** * Properties of the frame codec *)
(* ================================================================== *)

Lemma json_loads_raises (s : str) (e : exn) :
  json_loads s = Raise e -> e = JSONDecodeError.
Proof.
  unfold json_loads. destruct (scan_once _ _) as [[v rest]|];
    [destruct (skip_ws rest)|]; congruence.
Qed.

(** C1, as amended. Decoding the frame of a message gives the message back,
    with nothing left in the buffer, for every dictionary of JSON values
    (no floats, strings of Unicode scalar values) and for every text that
    is not itself a JSON document. *)
Theorem decode_encode_round_trip (m : pyval) (frame : bytes) :
  round_trips m ->
  encode_message m = Ok frame ->
  decode_message frame = Ok (m, []).
Proof.
  intros Hm E.
  destruct (encode_message_frame m frame E)
    as (text & payload & header & Ht & Ep & Eh & ->).
  rewrite <- (List.app_nil_r payload) at 1.
  rewrite (decode_message_frame payload header [] Eh).
  rewrite (utf8_decode_encode text payload Ep). cbn [rbind].
  destruct m; try contradiction; cbn [round_trips] in Hm; subst text.
  - now rewrite Hm.
  - now rewrite json_loads_dumps.
Qed.

Lemma decode_encode_round_trip_witness :
  round_trips sample_ping
  /\ encode_message sample_ping = Ok sample_ping_frame
  /\ decode_message sample_ping_frame = Ok (sample_ping, []).
Proof.
  assert (H1 : round_trips sample_ping) by reflexivity.
  assert (H2 : encode_message sample_ping = Ok sample_ping_frame)
    by (vm_compute; reflexivity).
  exact (conj H1 (conj H2
           (decode_encode_round_trip sample_ping sample_ping_frame H1 H2))).
Defined.

(** C1 as stated fails for a text that is a JSON document: the text ['123']
    comes back as the integer [123]. *)
Lemma text_123_decodes_to_int :
  encode_message (PyStr (lit "123")) = Ok text_123_frame
  /\ decode_message text_123_frame = Ok (PyInt 123, [])
  /\ decode_message text_123_frame <> Ok (PyStr (lit "123"), []).
Proof.
  split; [vm_compute; reflexivity|].
  assert (H : decode_message text_123_frame = Ok (PyInt 123, []))
    by (vm_compute; reflexivity).
  split; [exact H|]. rewrite H. discriminate.
Qed.

(** C2, at the failing input. A complete frame whose payload is not UTF-8
    makes [decode_message] raise [UnicodeDecodeError]: the [except] clause
    names [json.JSONDecodeError] only. *)
Theorem decode_message_raises_on_bad_utf8 :
  len bad_utf8_frame = 4 + 1
  /\ unpack_u32 (slice 0 4 bad_utf8_frame) = Ok 1
  /\ decode_message bad_utf8_frame = Raise UnicodeDecodeError.
Proof. repeat split; vm_compute; reflexivity. Qed.



(** The only exception [decode_message] raises on a complete frame is the
    one of the UTF-8 decoder. *)
Lemma decode_message_complete_raises (data : bytes) (n : Z) (e : exn) :
  4 <= len data ->
  unpack_u32 (slice 0 4 data) = Ok n ->
  decode_message data = Raise e ->
  utf8_decode (slice 4 (4 + n) data) = Raise e.
Proof.
  intros H4 Eu. unfold decode_message.
  destruct (Z.ltb_spec (len data) 4); [lia|].
  rewrite Eu. cbn [rbind].
  destruct (Z.ltb_spec (len data) (4 + n)); [discriminate|].
  destruct (utf8_decode _) as [text|e']; cbn [rbind]; [|destruct e'; congruence].
  destruct (json_loads text) as [m|e'] eqn:Ej; [discriminate|].
  apply json_loads_raises in Ej as ->. discriminate.
Qed.

Lemma decode_message_incomplete (data : bytes) :
  incomplete data -> decode_message data = Ok (PyNone, data).
Proof.
  unfold decode_message. intros [H|(n & Eu & H)].
  - destruct (Z.ltb_spec (len data) 4); [reflexivity | lia].
  - destruct (Z.ltb_spec (len data) 4); [reflexivity|].
    rewrite Eu. cbn [rbind].
    destruct (Z.ltb_spec (len data) (4 + n)); [reflexivity | lia].
Qed.

(** C3, as amended. A buffer without a whole frame is handed back unchanged
    with [None]. So every proper prefix of the frame of a message is, and
    once the rest of the frame has arrived the message is decoded, and the
    bytes after the frame are what remains; the message decoded is the one
    sent when it is a dictionary of JSON values or a text that is not a
    JSON document. *)
Theorem decode_message_partial (m : pyval) (frame : bytes) :
  round_trips m ->
  encode_message m = Ok frame ->
  (forall data, incomplete data -> decode_message data = Ok (PyNone, data))
  /\ (forall k, (k < length frame)%nat ->
        decode_message (firstn k frame) = Ok (PyNone, firstn k frame))
  /\ (forall k rest,
        decode_message (firstn k frame ++ skipn k frame ++ rest)
        = Ok (m, rest)).
Proof.
  intros Hm E. split; [exact decode_message_incomplete|].
  destruct (encode_message_frame m frame E)
    as (text & payload & header & Ht & Ep & Eh & ->).
  split.
  - intros k Hk. now apply decode_message_short.
  - intros k rest. rewrite app_assoc, firstn_skipn, <- app_assoc.
    rewrite (decode_message_frame payload header rest Eh).
    rewrite (utf8_decode_encode text payload Ep). cbn [rbind].
    destruct m; try contradiction; cbn [round_trips] in Hm; subst text.
    + now rewrite Hm.
    + now rewrite json_loads_dumps.
Qed.

Lemma decode_message_partial_witness :
  round_trips sample_ping
  /\ encode_message sample_ping = Ok sample_ping_frame
  /\ decode_message (firstn 7 sample_ping_frame)
     = Ok (PyNone, firstn 7 sample_ping_frame)
  /\ decode_message (firstn 7 sample_ping_frame
                     ++ skipn 7 sample_ping_frame ++ text_hello_frame)
     = Ok (sample_ping, text_hello_frame).
Proof.
  assert (H1 : round_trips sample_ping) by reflexivity.
  assert (H2 : encode_message sample_ping = Ok sample_ping_frame)
    by (vm_compute; reflexivity).
  pose proof (decode_message_partial sample_ping sample_ping_frame H1 H2)
    as (_ & Hshort & Hfull).
  refine (conj H1 (conj H2 (conj (Hshort 7%nat _) (Hfull 7%nat _)))).
  vm_compute. lia.
Defined.

(** C3 as stated fails for the text ['null']: with all its bytes supplied
    the decoder consumes the frame and still returns [None]. *)
Lemma text_null_decodes_to_none :
  encode_message (PyStr (lit "null")) = Ok text_null_frame
  /\ decode_message text_null_frame = Ok (PyNone, [])
  /\ decode_message text_null_frame <> Ok (PyStr (lit "null"), []).
Proof.
  split; [vm_compute; reflexivity|].
  assert (H : decode_message text_null_frame = Ok (PyNone, []))
    by (vm_compute; reflexivity).
  split; [exact H|]. rewrite H. discriminate.
Qed.

(* ================================================================== *)
(** * The encoder returns *)
(* ================================================================== *)

Lemma ascii_app (a b : str) : ascii a -> ascii b -> ascii (a ++ b).
Proof. intros Ha Hb. now apply Forall_app. Qed.

Lemma ascii_digits (u : Decimal.uint) : ascii (digits u).
Proof. induction u; cbn [digits]; constructor; (lia || assumption). Qed.

Lemma ascii_repr_int (n : Z) : ascii (repr_int n).
Proof.
  destruct n; cbn [repr_int]; repeat constructor; try lia;
    apply ascii_digits.
Qed.

Lemma hex_digit_range (d : Z) : 0 <= d < 16 -> 0 <= hex_digit d < 128.
Proof. intros H. unfold hex_digit. destruct (Z.ltb_spec d 10); lia. Qed.

Lemma ascii_u_escape (n : Z) : 0 <= n < 0x10000 -> ascii (u_escape n).
Proof.
  intros H. unfold u_escape.
  repeat constructor; try lia; apply hex_digit_range; euclid.
Qed.

Lemma ascii_escape_char (c : Z) : scalar c = true -> ascii (escape_char c).
Proof.
  intros Hs. apply scalar_range in Hs as [Hc _]. unfold escape_char.
  repeat match goal with
    | |- context [if ?a =? ?b then _ else _] =>
        destruct (Z.eqb_spec a b); [repeat constructor; lia|]
    end.
  destruct (Z.leb_spec 32 c); destruct (Z.leb_spec c 126); cbn [andb];
    try (repeat constructor; lia);
    (destruct (Z.ltb_spec c 0x10000);
     [apply ascii_u_escape; lia
     |apply ascii_app; apply ascii_u_escape; euclid]).
Qed.

Lemma ascii_encode_basestring (s : str) :
  forallb scalar s = true -> ascii (encode_basestring_ascii s).
Proof.
  intros H. unfold encode_basestring_ascii. constructor; [lia|].
  apply ascii_app; [|repeat constructor; lia].
  induction s as [|c r IH]; [constructor|].
  cbn [forallb] in H. apply andb_true_iff in H as [Hc Hr].
  cbn [flat_map]. apply ascii_app; [now apply ascii_escape_char | auto].
Qed.

Lemma ascii_join (sep : str) (l : list str) :
  ascii sep -> Forall ascii l -> ascii (join sep l).
Proof.
  intros Hs Hl. induction Hl as [|x r Hx Hr IH]; [constructor|].
  destruct r as [|y r']; [exact Hx|].
  rewrite join_cons2. auto using ascii_app.
Qed.

(** [json.dumps] writes ASCII. *)
Lemma ascii_json_dumps (v : pyval) : json_ok v = true -> ascii (json_dumps v).
Proof.
  induction v as [| b | n | l | s | l IH | d IH] using pyval_induction;
    intros Hok.
  - repeat constructor; lia.
  - destruct b; repeat constructor; lia.
  - apply ascii_repr_int.
  - discriminate.
  - now apply ascii_encode_basestring.
  - rewrite json_dumps_list. constructor; [lia|].
    apply ascii_app; [|repeat constructor; lia].
    apply ascii_join; [repeat constructor; lia|].
    cbn [json_ok] in Hok. induction IH as [|x r Hx _ IHr]; [constructor|].
    cbn [forallb] in Hok. apply andb_true_iff in Hok as [H1 H2].
    cbn [map]. constructor; auto.
  - rewrite json_dumps_dict. constructor; [lia|].
    apply ascii_app; [|repeat constructor; lia].
    apply ascii_join; [repeat constructor; lia|].
    cbn [json_ok] in Hok. apply andb_true_iff in Hok as [Hok _].
    induction IH as [|[k x] r Hx _ IHr]; [constructor|].
    cbn [forallb fst snd] in Hok, Hx.
    apply andb_true_iff in Hok as [H1 H2].
    apply andb_true_iff in H1 as [Hk Hv].
    cbn [map]. constructor; [|auto].
    unfold dumps_item. cbn [fst snd].
    apply ascii_app; [now apply ascii_encode_basestring|].
    apply ascii_app; [repeat constructor; lia | auto].
Qed.

(** [encode_message] returns a frame for every dictionary of JSON values
    whose text is shorter than 2^32 characters. *)
Lemma encode_message_dict_returns (d : list (str * pyval)) :
  json_ok (PyDict d) = true ->
  len (json_dumps (PyDict d)) < 4294967296 ->
  exists frame, encode_message (PyDict d) = Ok frame.
Proof.
  intros Hok Hl. unfold encode_message. cbn [rbind].
  rewrite (utf8_encode_ascii _ (ascii_json_dumps _ Hok)). cbn [rbind].
  unfold len in *. rewrite length_map. unfold pack_u32.
  destruct (Z.leb_spec 0 (Z.of_nat (length (json_dumps (PyDict d)))));
    [|lia].
  destruct (Z.ltb_spec (Z.of_nat (length (json_dumps (PyDict d))))
              4294967296); [|lia].
  cbn [andb rbind]. eauto.
Qed.

Lemma utf8_encode_scalar (s : str) :
  forallb scalar s = true -> exists payload, utf8_encode s = Ok payload.
Proof.
  induction s as [|c r IH]; intros H; [now exists []|].
  cbn [forallb] in H. apply andb_true_iff in H as [Hc Hr].
  destruct (IH Hr) as [rest Er]. cbn [utf8_encode]. rewrite Er.
  apply scalar_range in Hc as [Hc Hns].
  assert (E : exists cb, utf8_encode_char c = Some cb).
  { unfold utf8_encode_char, is_surrogate.
    destruct (Z.ltb_spec c 0); [lia|].
    destruct (Z.ltb_spec c 0x80); [eauto|].
    destruct (Z.ltb_spec c 0x800); [eauto|].
    destruct (Z.ltb_spec c 0x10000).
    - destruct (Z.leb_spec 0xD800 c); destruct (Z.leb_spec c 0xDFFF);
        cbn [andb]; eauto; lia.
    - destruct (Z.ltb_spec c 0x110000); [eauto | lia]. }
  destruct E as [cb ->]. cbn [rbind]. eauto.
Qed.

(** It returns a frame for every text of Unicode scalar values whose UTF-8
    encoding is shorter than 2^32 bytes. *)
Lemma encode_message_text_returns (s : str) (payload : bytes) :
  utf8_encode s = Ok payload ->
  len payload < 4294967296 ->
  exists frame, encode_message (PyStr s) = Ok frame.
Proof.
  intros E Hl. unfold encode_message. cbn [rbind]. rewrite E. cbn [rbind].
  unfold len in *. unfold pack_u32.
  destruct (Z.leb_spec 0 (Z.of_nat (length payload))); [|lia].
  destruct (Z.ltb_spec (Z.of_nat (length payload)) 4294967296); [|lia].
  cbn [andb rbind]. eauto.
Qed.

(* ================================================================== *)
(** * The handler objects and the registry *)
(* ================================================================== *)

Lemma list_update_length {A} (n : nat) (x : A) (l : list A) :
  length (list_update n x l) = length l.
Proof.
  revert n. induction l as [|y r IH]; intros [|n]; cbn; auto.
Qed.

Lemma nth_list_update_same {A} (n : nat) (x d : A) (l : list A) :
  (n < length l)%nat -> nth n (list_update n x l) d = x.
Proof.
  revert n. induction l as [|y r IH]; intros [|n] H; cbn in *;
    try lia; auto. apply IH. lia.
Qed.

Lemma nth_list_update_other {A} (n m : nat) (x d : A) (l : list A) :
  m <> n -> nth m (list_update n x l) d = nth m l d.
Proof.
  revert n m. induction l as [|y r IH]; intros [|n] [|m] H; cbn;
    try reflexivity; try congruence. apply IH. congruence.
Qed.

Lemma list_update_beyond {A} (n : nat) (x : A) (l : list A) :
  (length l <= n)%nat -> list_update n x l = l.
Proof.
  revert n. induction l as [|y r IH]; intros [|n] H; cbn in *;
    try reflexivity; try lia. f_equal. apply IH. lia.
Qed.

Lemma list_update_twice {A} (n : nat) (x y : A) (l : list A) :
  list_update n x (list_update n y l) = list_update n x l.
Proof.
  revert n. induction l as [|z r IH]; intros [|n]; cbn; try reflexivity.
  f_equal. apply IH.
Qed.


Lemma get_set_handler_same (self : nat) (h : handler) (w : server) :
  (self < length (handlers w))%nat ->
  get_handler self (set_handler self h w) = h.
Proof. intros H. now apply nth_list_update_same. Qed.

Lemma get_set_handler_other (self r : nat) (h : handler) (w : server) :
  r <> self -> get_handler r (set_handler self h w) = get_handler r w.
Proof. intros H. now apply nth_list_update_other. Qed.

Lemma get_handler_beyond (self : nat) (w : server) :
  (length (handlers w) <= self)%nat -> get_handler self w = dead_handler.
Proof. intros H. now apply nth_overflow. Qed.

Lemma set_handler_beyond (self : nat) (h : handler) (w : server) :
  (length (handlers w) <= self)%nat -> set_handler self h w = w.
Proof.
  intros H. unfold set_handler, set_handlers.
  rewrite list_update_beyond by assumption. now destruct w.
Qed.

Lemma set_handler_twice (self : nat) (h h' : handler) (w : server) :
  set_handler self h (set_handler self h' w) = set_handler self h w.
Proof.
  unfold set_handler, set_handlers. cbn. now rewrite list_update_twice.
Qed.

(** An open socket belongs to a handler that exists. *)
Lemma is_open_valid (r : nat) (w : server) :
  is_open r w -> (r < length (handlers w))%nat.
Proof.
  unfold is_open. intros H.
  destruct (Nat.lt_ge_cases r (length (handlers w))) as [L|L]; [exact L|].
  rewrite get_handler_beyond in H by assumption. discriminate.
Qed.

Lemma dict_mem_del {V} (k : str) (d : list (str * V)) :
  dict_mem k (dict_del k d) = false.
Proof.
  unfold dict_mem. induction d as [|[k' v] r IH]; [reflexivity|].
  cbn [dict_del]. destruct (str_eqb k k') eqn:E; [exact IH|].
  cbn [dict_get]. now rewrite E.
Qed.

Lemma dict_del_absent {V} (k : str) (d : list (str * V)) :
  dict_mem k d = false -> dict_del k d = d.
Proof.
  unfold dict_mem. induction d as [|[k' v] r IH]; [reflexivity|].
  cbn [dict_del dict_get]. destruct (str_eqb k k'); [discriminate|].
  intros H. now rewrite IH.
Qed.


(** ** Teardown *)

(** [_cleanup] always returns, and what it leaves is [cleaned]. *)
Lemma cleanup_cleaned (self : nat) (w : server) :
  _cleanup self w = (cleaned self w, Ok tt).
Proof.
  unfold _cleanup, cleaned, bind, try_except, client_socket_close, get, lift,
    set_running, set_socket, socket_close, ret, bind.
  cbn [rbind fst snd].
  destruct (Nat.lt_ge_cases self (length (handlers w))) as [L|L].
  - rewrite !get_set_handler_same
      by (unfold set_handler, set_handlers; cbn [handlers];
          rewrite ?list_update_length; exact L).
    cbn [client_id running client_socket buffer sent status].
    rewrite !set_handler_twice.
    destruct (dict_mem _ _) eqn:E.
    + reflexivity.
    + cbn [clients set_handler set_handlers] in E |- *.
      rewrite (dict_del_absent _ _ E).
      unfold set_clients, set_handler, set_handlers. reflexivity.
  - repeat rewrite set_handler_beyond
      by (unfold set_handler, set_handlers; cbn [handlers];
          rewrite ?list_update_length; exact L).
    rewrite !get_handler_beyond by assumption.
    destruct (dict_mem _ _) eqn:E.
    + reflexivity.
    + rewrite (dict_del_absent _ _ E). now destruct w.
Qed.


(** ** Sending *)

Ltac monad :=
  repeat (unfold bind, ret, lift, raise, get, try_except, try_finally;
          cbv beta iota zeta).

Lemma send_message_open (self : nat) (m : pyval) (frame : bytes)
    (w : server) :
  encode_message m = Ok frame -> is_open self w ->
  send_message self m w = (push self frame w, Ok tt).
Proof.
  intros E Ho. unfold is_open in Ho.
  unfold send_message, client_socket_send, set_socket, socket_send, push.
  rewrite E. monad. rewrite Ho. reflexivity.
Qed.

(** A send that fails, by the encoder or by the socket, tears the
    connection down. *)
Lemma send_message_failed (self : nat) (m : pyval) (w : server) :
  (exists e, encode_message m = Raise e) \/ ~ is_open self w ->
  send_message self m w = (cleaned self w, Ok tt).
Proof.
  intros H. unfold is_open in H.
  unfold send_message, client_socket_send, set_socket, socket_send.
  destruct (encode_message m) as [frame|e] eqn:E; monad.
  - destruct H as [[e He]|H]; [discriminate|].
    destruct (status (client_socket (get_handler self w))) eqn:Es;
      try apply cleanup_cleaned.
    now elim H.
  - apply cleanup_cleaned.
Qed.

Lemma push_sent (r : nat) (frame : bytes) (w : server) :
  is_open r w -> sent_to r (push r frame w) = sent_to r w ++ [frame].
Proof.
  intros Ho. apply is_open_valid in Ho. unfold sent_to, push.
  now rewrite get_set_handler_same.
Qed.

Lemma push_other (r r' : nat) (frame : bytes) (w : server) :
  r' <> r -> get_handler r' (push r frame w) = get_handler r' w.
Proof. intros H. unfold push. now apply get_set_handler_other. Qed.

Lemma push_handler (r : nat) (frame : bytes) (w : server) :
  is_open r w ->
  get_handler r (push r frame w)
  = let h := get_handler r w in
    mk_handler (client_id h) (running h)
      (mk_socket SockOpen (sent (client_socket h) ++ [frame])) (buffer h).
Proof.
  intros Ho. apply is_open_valid in Ho. unfold push.
  now rewrite get_set_handler_same.
Qed.

Lemma push_is_open (r r' : nat) (frame : bytes) (w : server) :
  is_open r w -> is_open r' w -> is_open r' (push r frame w).
Proof.
  intros Hr Hr'. unfold is_open.
  destruct (Nat.eq_dec r' r) as [->|N].
  - now rewrite push_handler.
  - now rewrite push_other.
Qed.

Lemma push_clients (r : nat) (frame : bytes) (w : server) :
  clients (push r frame w) = clients w.
Proof. reflexivity. Qed.

(** ** Broadcast, when every send succeeds *)

Lemma recipients_open_tail (k : str) (r : nat) (rest : list (str * nat))
    (e : option str) (w : server) :
  recipients_open ((k, r) :: rest) e w -> recipients_open rest e w.
Proof. intros H k' r' Hin. apply H. now right. Qed.

Lemma recipients_open_push (items : list (str * nat)) (e : option str)
    (r : nat) (frame : bytes) (w : server) :
  is_open r w -> recipients_open items e w ->
  recipients_open items e (push r frame w).
Proof.
  intros Hr H k' r' Hin Hd. apply push_is_open; [assumption|].
  now apply (H k' r').
Qed.

Lemma for_items_deliver (m : pyval) (frame : bytes) (e : option str)
    (used : nat) (items : list (str * nat)) :
  encode_message m = Ok frame ->
  forall w,
    length (clients w) = used ->
    recipients_open items e w ->
    for_items items used
      (fun client_id client_handler =>
         if differs client_id e then send_message client_handler m
         else ret tt) w
    = (deliver frame items e w, Ok tt).
Proof.
  intros E. induction items as [|[k r] rest IH]; intros w Hu Ho;
    cbn [for_items deliver]; rewrite Hu, Nat.eqb_refl; cbn [negb].
  - reflexivity.
  - unfold bind. destruct (differs k e) eqn:Ed.
    + assert (Hr : is_open r w) by (apply (Ho k r); [now left | exact Ed]).
      rewrite (send_message_open r m frame w E Hr).
      apply IH; [exact Hu|].
      apply recipients_open_push; [exact Hr|].
      now apply recipients_open_tail in Ho.
    + unfold ret. apply IH; [exact Hu|].
      now apply recipients_open_tail in Ho.
Qed.

(** [broadcast_message] when every send succeeds: the frame goes out to
    every entry but the excluded one, and the counter grows by the size of
    the registry, less one when a sender is named. *)
Lemma broadcast_message_all_open (m : pyval) (frame : bytes)
    (e : option str) (w : server) :
  encode_message m = Ok frame ->
  recipients_open (clients w) e w ->
  broadcast_message m e w
  = (set_message_count
       (message_count w + len (clients w) - (if truthy e then 1 else 0))
       (deliver frame (clients w) e w), Ok tt).
Proof.
  intros E Ho. unfold broadcast_message, bind.
  rewrite (for_items_deliver m frame e _ _ E w eq_refl Ho).
  assert (Ec : forall items w0, clients (deliver frame items e w0) = clients w0).
  { induction items as [|[k r] rest IH]; intros w0; cbn [deliver];
      [reflexivity|]. rewrite IH. now destruct (differs k e). }
  assert (Em : forall items w0,
             message_count (deliver frame items e w0) = message_count w0).
  { induction items as [|[k r] rest IH]; intros w0; cbn [deliver];
      [reflexivity|]. rewrite IH. now destruct (differs k e). }
  rewrite Ec, Em.
  destruct (truthy e); unfold ret, set_message_count;
    cbn [handlers clients message_count start_time now ticks];
    do 2 f_equal; lia.
Qed.

(** ** The clock *)

Lemma now_isoformat_tick (w : server) :
  now_isoformat w = (tick w, Ok (PyStr (isoformat (clock w)))).
Proof. reflexivity. Qed.

Lemma tick_handler (r : nat) (w : server) :
  get_handler r (tick w) = get_handler r w.
Proof. reflexivity. Qed.

Lemma tick_is_open (r : nat) (w : server) : is_open r w -> is_open r (tick w).
Proof. exact (fun H => H). Qed.

(** ** Ping, echo and plain text *)

Lemma handle_ping_open (self : nat) (d : list (str * pyval)) (frame : bytes)
    (w : server) :
  is_open self w ->
  encode_message
    (pong_message (dict_get_default d (lit "timestamp") PyNone) (clock w)
       (client_id (get_handler self w))) = Ok frame ->
  _handle_ping self d w = (push self frame (tick w), Ok tt).
Proof.
  intros Ho E. unfold _handle_ping. monad. rewrite now_isoformat_tick.
  cbv beta iota zeta. rewrite tick_handler.
  apply send_message_open; [exact E | exact Ho].
Qed.

Lemma handle_echo_open (self : nat) (d : list (str * pyval)) (frame : bytes)
    (w : server) :
  is_open self w ->
  encode_message
    (echo_response_message (dict_get_default d (lit "content") (PyStr []))
       (clock w)) = Ok frame ->
  _handle_echo self d w = (push self frame (tick w), Ok tt).
Proof.
  intros Ho E. unfold _handle_echo. monad. rewrite now_isoformat_tick.
  cbv beta iota zeta.
  apply send_message_open; [exact E | exact Ho].
Qed.


Lemma process_message_type (self : nat) (d : list (str * pyval)) (t : str) :
  dict_get (lit "type") d = Some (PyStr t) ->
  _process_message self (PyDict d)
  = if str_eqb t (lit "ping") then _handle_ping self d
    else if str_eqb t (lit "echo") then _handle_echo self d
    else if str_eqb t (lit "broadcast") then _handle_broadcast self d
    else if str_eqb t (lit "get_stats") then _handle_get_stats self
    else
      bind now_isoformat (fun t =>
      send_message self
        (PyDict [(lit "type", PyStr (lit "response"));
                 (lit "original_message", PyDict d);
                 (lit "timestamp", t);
                 (lit "from_server", PyBool true)])).
Proof.
  intros E. unfold _process_message, dict_get_default. rewrite E.
  reflexivity.
Qed.

(** ** The buffer *)

Lemma set_buffer_with (self : nat) (b : bytes) (w : server) :
  set_buffer self b w = (with_buffer self b w, Ok tt).
Proof. reflexivity. Qed.

Lemma running_valid (self : nat) (w : server) :
  running (get_handler self w) = true -> (self < length (handlers w))%nat.
Proof.
  intros H.
  destruct (Nat.lt_ge_cases self (length (handlers w))) as [L|L]; [exact L|].
  rewrite get_handler_beyond in H by assumption. discriminate.
Qed.

Lemma with_buffer_handler (self : nat) (b : bytes) (w : server) :
  (self < length (handlers w))%nat ->
  get_handler self (with_buffer self b w)
  = let h := get_handler self w in
    mk_handler (client_id h) (running h) (client_socket h) b.
Proof. intros H. unfold with_buffer. now rewrite get_set_handler_same. Qed.

Lemma with_buffer_other (self r : nat) (b : bytes) (w : server) :
  r <> self -> get_handler r (with_buffer self b w) = get_handler r w.
Proof. intros H. unfold with_buffer. now apply get_set_handler_other. Qed.

Lemma with_buffer_length (self : nat) (b : bytes) (w : server) :
  length (handlers (with_buffer self b w)) = length (handlers w).
Proof. unfold with_buffer. cbn. apply list_update_length. Qed.


Lemma decode_message_some_length (data rest : bytes) (m : pyval) :
  decode_message data = Ok (m, rest) -> m <> PyNone ->
  (4 <= length data)%nat.
Proof.
  unfold decode_message. unfold len at 1.
  destruct (Z.ltb_spec (Z.of_nat (length data)) 4); [|lia].
  intros E N. injection E as <- _. now elim N.
Qed.

Lemma with_buffer_is_open (self r : nat) (b : bytes) (w : server) :
  is_open r w -> is_open r (with_buffer self b w).
Proof.
  intros Ho. unfold is_open. destruct (Nat.eq_dec r self) as [->|N].
  - rewrite with_buffer_handler by now apply is_open_valid. exact Ho.
  - now rewrite with_buffer_other.
Qed.

Lemma with_buffer_sent (self r : nat) (b : bytes) (w : server) :
  sent_to r (with_buffer self b w) = sent_to r w.
Proof.
  unfold sent_to. destruct (Nat.eq_dec r self) as [->|N].
  - destruct (Nat.lt_ge_cases self (length (handlers w))) as [L|L].
    + now rewrite with_buffer_handler.
    + unfold with_buffer. now rewrite set_handler_beyond.
  - now rewrite with_buffer_other.
Qed.

Lemma receive_cons (data : bytes) (rest : list bytes) (self : nat)
    (w : server) :
  running (get_handler self w) = true -> data <> [] ->
  receive (data :: rest) self w
  = bind (set_buffer self (buffer (get_handler self w) ++ data)) (fun _ =>
    bind (drain (S (length (buffer (get_handler self w) ++ data))) self)
         (fun _ => receive rest self)) w.
Proof.
  intros Hrun Hd. cbn [receive]. monad. rewrite Hrun. cbn [negb].
  destruct data; [congruence | reflexivity].
Qed.


(** ** What [deliver] changes *)

Lemma deliver_frame (frame : bytes) (e : option str)
    (items : list (str * nat)) :
  forall w,
    clients (deliver frame items e w) = clients w
    /\ message_count (deliver frame items e w) = message_count w
    /\ now (deliver frame items e w) = now w
    /\ ticks (deliver frame items e w) = ticks w
    /\ start_time (deliver frame items e w) = start_time w.
Proof.
  induction items as [|[k r] rest IH]; intros w; cbn [deliver];
    [repeat split|].
  destruct (IH (if differs k e then push r frame w else w))
    as (H1 & H2 & H3 & H4 & H5).
  rewrite H1, H2, H3, H4, H5. now destruct (differs k e).
Qed.

Lemma deliver_is_open (frame : bytes) (e : option str)
    (items : list (str * nat)) (r : nat) :
  forall w,
    recipients_open items e w -> is_open r w ->
    is_open r (deliver frame items e w).
Proof.
  induction items as [|[k r0] rest IH]; intros w Ho Hr; cbn [deliver];
    [exact Hr|].
  pose proof (recipients_open_tail _ _ _ _ _ Ho) as Ht.
  destruct (differs k e) eqn:Ed.
  - assert (H0 : is_open r0 w) by (apply (Ho k r0); [now left | exact Ed]).
    apply IH; [now apply recipients_open_push | now apply push_is_open].
  - now apply IH.
Qed.

(** A handler no entry sends to is left as it was. *)
Lemma deliver_other (frame : bytes) (e : option str)
    (items : list (str * nat)) (r : nat) :
  forall w,
    (forall k, In (k, r) items -> differs k e = false) ->
    get_handler r (deliver frame items e w) = get_handler r w.
Proof.
  induction items as [|[k r0] rest IH]; intros w H; cbn [deliver];
    [reflexivity|].
  rewrite IH by (intros k' Hin; apply H; now right).
  destruct (differs k e) eqn:Ed; [|reflexivity].
  apply push_other. intros ->.
  rewrite (H k) in Ed by now left. discriminate.
Qed.

(** A handler one entry sends to, and no other, gets the frame once. *)
Lemma deliver_recipient (frame : bytes) (e : option str)
    (items : list (str * nat)) (k : str) (r : nat) :
  forall w,
    recipients_open items e w ->
    NoDup (map snd items) ->
    In (k, r) items -> differs k e = true ->
    sent_to r (deliver frame items e w) = sent_to r w ++ [frame].
Proof.
  induction items as [|[k0 r0] rest IH]; intros w Ho Hnd Hin Hd;
    [contradiction|].
  cbn [deliver]. cbn [map snd] in Hnd. inversion Hnd as [|? ? Hnotin Hnd'].
  subst. pose proof (recipients_open_tail _ _ _ _ _ Ho) as Ht.
  destruct Hin as [Heq|Hin].
  - injection Heq as -> ->. rewrite Hd.
    assert (H0 : is_open r w) by (apply (Ho k r); [now left | exact Hd]).
    unfold sent_to. rewrite deliver_other.
    + rewrite push_handler by exact H0. reflexivity.
    + intros k' Hin'. elim Hnotin.
      change r with (snd (k', r)). now apply in_map.
  - assert (N : r <> r0).
    { intros ->. elim Hnotin. change r0 with (snd (k, r0)).
      now apply in_map. }
    destruct (differs k0 e) eqn:Ed.
    + assert (H0 : is_open r0 w)
        by (apply (Ho k0 r0); [now left | exact Ed]).
      rewrite IH; try assumption; [|now apply recipients_open_push].
      unfold sent_to. now rewrite push_other.
    + now apply IH.
Qed.

(** ** [_handle_broadcast], when every send succeeds *)

Lemma handle_broadcast_open (self : nat) (d : list (str * pyval))
    (frame confirmation : bytes) (w : server) :
  let id := client_id (get_handler self w) in
  let content := dict_get_default d (lit "content") (PyStr []) in
  is_open self w ->
  recipients_open (clients w) (Some id) w ->
  encode_message (broadcast_fanout_message id content (clock w)) = Ok frame ->
  encode_message
    (broadcast_sent_message (len (clients w) - 1) (clock (tick w)))
  = Ok confirmation ->
  _handle_broadcast self d w
  = (push self confirmation
       (tick
          (set_message_count
             (message_count w + len (clients w)
              - (if truthy (Some id) then 1 else 0))
             (deliver frame (clients w) (Some id) (tick w)))),
     Ok tt).
Proof.
  intros id content Ho Hr Ef Ec. unfold _handle_broadcast. monad.
  rewrite now_isoformat_tick. cbv beta iota zeta.
  fold id. fold content.
  change (PyDict
            [(lit "type", PyStr (lit "broadcast"));
             (lit "from_client", PyStr id);
             (lit "content", content);
             (lit "timestamp", PyStr (isoformat (clock w)))])
    with (broadcast_fanout_message id content (clock w)).
  rewrite (broadcast_message_all_open _ frame (Some id) (tick w) Ef)
    by exact Hr.
  cbv beta iota zeta.
  set (w1 := set_message_count _ _).
  rewrite now_isoformat_tick. cbv beta iota zeta.
  pose proof (deliver_frame frame (Some id) (clients w) (tick w))
    as (H1 & _ & H3 & H4 & _).
  assert (Hc : clients w1 = clients w) by exact H1.
  assert (Ht : clock w1 = clock (tick w))
    by exact (f_equal2 (fun f n => f n) H3 H4).
  rewrite Hc, Ht.
  apply send_message_open; [exact Ec|].
  apply tick_is_open. unfold w1, is_open. cbn [set_message_count].
  change (is_open self (deliver frame (clients w) (Some id) (tick w))).
  apply deliver_is_open; [exact Hr | exact Ho].
Qed.

(* ================================================================== *)
(** * Properties of the server *)
(* ================================================================== *)

(** C4, at the failing input. Clients A, B and C are connected and the
    socket of B is broken. A broadcasts: the send to B fails, [_cleanup]
    deletes B from the dictionary [broadcast_message] is iterating over, and
    the next step of the iteration raises [RuntimeError]. C gets nothing and
    A gets no [broadcast_sent]. *)
Theorem broadcast_stops_at_broken_socket :
  let w := three_clients broken_socket in
  let r := _process_message 0 broadcast_hi w in
  snd r = Raise RuntimeError
  /\ sent_to 2 (fst r) = []
  /\ sent_to 0 (fst r) = []
  /\ clients (fst r) = [(id_a, 0%nat); (id_c, 2%nat)]
  /\ message_count (fst r) = 0.
Proof. vm_compute. repeat split; reflexivity. Qed.

(** The same broadcast when the three sockets are open: B and C get the
    broadcast once, A gets [broadcast_sent] with two recipients. *)
Lemma broadcast_three_clients_open :
  let w := three_clients open_socket in
  let r := _process_message 0 broadcast_hi w in
  snd r = Ok tt
  /\ sent_to 1 (fst r) = [fanout_hi_frame]
  /\ sent_to 2 (fst r) = [fanout_hi_frame]
  /\ sent_to 0 (fst r) = [confirmation_2_frame]
  /\ message_count (fst r) = 2.
Proof. vm_compute. repeat split; reflexivity. Qed.

(** The thread of A after the failed broadcast: the exception ends its
    loop and A is torn down too. *)
Lemma broadcast_failure_closes_sender :
  let w := three_clients broken_socket in
  let r := _handle_client 0 [frame_of broadcast_hi] w in
  snd r = Ok tt
  /\ running (get_handler 0 (fst r)) = false
  /\ clients (fst r) = [(id_c, 2%nat)].
Proof. vm_compute. repeat split; reflexivity. Qed.

(** C5, at the failing input. The counter is lowered by one whenever a
    sender is named, also when the sender is not in the registry: on an
    empty registry a broadcast reaches nobody and the counter goes from 0
    to -1. The thread of a client reaches that state by itself: the answer
    to a first message fails to go out, [_cleanup] takes the client out of
    the registry, and the inner loop goes on to the broadcast that arrived
    in the same read. *)
Theorem message_count_decreases :
  (let r := broadcast_message sample_ping (Some id_a) empty_server in
   snd r = Ok tt
   /\ message_count empty_server = 0
   /\ message_count (fst r) = -1)
  /\ (let w := one_client broken_socket in
      let r := _handle_client 0 [frame_of echo_one ++ frame_of broadcast_hi] w in
      snd r = Ok tt
      /\ message_count w = 0
      /\ message_count (fst r) = -1).
Proof. vm_compute. repeat split; reflexivity. Qed.

(** What does hold of the counter: when every send succeeds it grows by the
    size of the registry, less one when a sender is named. *)
Lemma message_count_all_open (m : pyval) (frame : bytes) (e : option str)
    (w : server) :
  encode_message m = Ok frame ->
  recipients_open (clients w) e w ->
  snd (broadcast_message m e w) = Ok tt
  /\ message_count (fst (broadcast_message m e w))
     = message_count w + len (clients w) - (if truthy e then 1 else 0).
Proof.
  intros E Ho. rewrite (broadcast_message_all_open m frame e w E Ho).
  split; reflexivity.
Qed.

Lemma cleaned_torn_down (self : nat) (w : server) :
  torn_down self (cleaned self w).
Proof.
  unfold torn_down, cleaned.
  destruct (Nat.lt_ge_cases self (length (handlers w))) as [L|L].
  - set (h := get_handler self w).
    assert (E : get_handler self
                  (set_clients (dict_del (client_id h) (clients w))
                     (set_handler self
                        (mk_handler (client_id h) false
                           (mk_socket SockClosed (sent (client_socket h)))
                           (buffer h)) w))
                = mk_handler (client_id h) false
                    (mk_socket SockClosed (sent (client_socket h)))
                    (buffer h)).
    { unfold get_handler, set_clients, set_handler, set_handlers.
      cbn [handlers]. now apply nth_list_update_same. }
    rewrite E. cbn [running client_socket status client_id].
    repeat split. apply dict_mem_del.
  - rewrite set_handler_beyond by assumption.
    change (get_handler self
              (set_clients
                 (dict_del (client_id (get_handler self w)) (clients w)) w))
      with (get_handler self w).
    rewrite get_handler_beyond by assumption.
    repeat split. apply dict_mem_del.
Qed.



(** C7, as amended. A ping with [timestamp = T1] on an open connection is
    answered by exactly one frame, on the connection it came from: the
    [pong] whose [ping_timestamp] is [T1] and whose [pong_timestamp] is the
    reading of the server's clock. *)
Theorem ping_pong (self : nat) (d : list (str * pyval)) (T1 : pyval)
    (frame : bytes) (w : server) :
  dict_get (lit "type") d = Some (PyStr (lit "ping")) ->
  dict_get (lit "timestamp") d = Some T1 ->
  is_open self w ->
  encode_message
    (pong_message T1 (clock w) (client_id (get_handler self w))) = Ok frame ->
  exists w',
    _process_message self (PyDict d) w = (w', Ok tt)
    /\ sent_to self w' = sent_to self w ++ [frame]
    /\ (forall r, r <> self -> get_handler r w' = get_handler r w)
    /\ clients w' = clients w.
Proof.
  intros Ht E1 Ho E. exists (push self frame (tick w)).
  rewrite (process_message_type self d _ Ht).
  change (str_eqb (lit "ping") (lit "ping")) with true. cbv iota.
  split.
  - apply handle_ping_open; [exact Ho|].
    unfold dict_get_default. now rewrite E1.
  - split; [exact (push_sent self frame (tick w) Ho)|].
    split; [|reflexivity].
    intros r N. exact (push_other self r frame (tick w) N).
Qed.

Lemma ping_pong_witness :
  is_open 0 (one_client open_socket)
  /\ exists w',
       _process_message 0 (PyDict ping_2030) (one_client open_socket)
       = (w', Ok tt)
       /\ sent_to 0 w' = sent_to 0 (one_client open_socket) ++ [pong_2030_frame]
       /\ (forall r, r <> 0%nat ->
             get_handler r w' = get_handler r (one_client open_socket))
       /\ clients w' = clients (one_client open_socket).
Proof.
  split; [reflexivity|].
  apply (ping_pong 0 ping_2030 (PyStr (isoformat new_year_2030))
           pong_2030_frame (one_client open_socket));
    vm_compute; reflexivity.
Defined.

(** C7 as stated fails: the timestamp of a ping is what the client wrote.
    Here it is the first instant of 2030 while the server's clock reads
    noon of 1 May 2024, and the [pong_timestamp] of the answer is that
    earlier reading. *)
Lemma pong_timestamp_before_ping_timestamp :
  dict_get (lit "timestamp") ping_2030 = Some (PyStr (isoformat new_year_2030))
  /\ sent_to 0 (fst (_process_message 0 (PyDict ping_2030)
                       (one_client open_socket)))
     = [frame_of (pong_message (PyStr (isoformat new_year_2030)) noon id_a)]
  /\ decode_message
       (frame_of (pong_message (PyStr (isoformat new_year_2030)) noon id_a))
     = Ok (pong_message (PyStr (isoformat new_year_2030)) noon id_a, [])
  /\ to_microseconds noon < to_microseconds new_year_2030.
Proof. vm_compute. repeat split; reflexivity. Qed.



Lemma dict_get_app {V} (k : str) (a b : list (str * V)) :
  dict_get k (a ++ b)
  = match dict_get k a with
    | Some v => Some v
    | None => dict_get k b
    end.
Proof.
  induction a as [|[k' v] r IH]; [reflexivity|].
  cbn [app dict_get]. now destruct (str_eqb k k').
Qed.

(** A message without a field is handled as the message with the field set
    to its default, whatever the state of the server. *)
Lemma missing_field_is_default (self : nat) (d : list (str * pyval))
    (t key : str) (default : pyval) :
  dict_get (lit "type") d = Some (PyStr t) ->
  dict_get key d = None ->
  (t = lit "echo" /\ key = lit "content" /\ default = PyStr []
   \/ t = lit "broadcast" /\ key = lit "content" /\ default = PyStr []
   \/ t = lit "ping" /\ key = lit "timestamp" /\ default = PyNone) ->
  _process_message self (PyDict d)
  = _process_message self (PyDict (d ++ [(key, default)])).
Proof.
  intros Ht Hk Hc.
  assert (Ht' : dict_get (lit "type") (d ++ [(key, default)])
                = Some (PyStr t)) by now rewrite dict_get_app, Ht.
  rewrite (process_message_type self d t Ht).
  rewrite (process_message_type self _ t Ht').
  assert (Hd : dict_get_default (d ++ [(key, default)]) key default
               = dict_get_default d key default).
  { unfold dict_get_default. rewrite dict_get_app, Hk. cbn [dict_get].
    now rewrite str_eqb_refl. }
  destruct Hc as [(-> & -> & ->)|[(-> & -> & ->)|(-> & -> & ->)]].
  - change (str_eqb (lit "echo") (lit "ping")) with false.
    change (str_eqb (lit "echo") (lit "echo")) with true. cbv iota.
    unfold _handle_echo. now rewrite Hd.
  - change (str_eqb (lit "broadcast") (lit "ping")) with false.
    change (str_eqb (lit "broadcast") (lit "echo")) with false.
    change (str_eqb (lit "broadcast") (lit "broadcast")) with true.
    cbv iota. unfold _handle_broadcast. now rewrite Hd.
  - change (str_eqb (lit "ping") (lit "ping")) with true. cbv iota.
    unfold _handle_ping. now rewrite Hd.
Qed.

(** C9. On an open connection, an [echo] without [content] is answered by
    the [echo_response] with the empty string as content, and a [ping]
    without [timestamp] by the [pong] with [None] as [ping_timestamp]; a
    [broadcast] without [content] goes out with the empty string as content
    (to every entry but the sender's when their sockets are open, and the
    sender gets its [broadcast_sent]). Each of them returns normally, and in
    every state of the server the message is handled as the same message
    with the default written out. *)
Theorem missing_fields_default (self : nat) (d : list (str * pyval))
    (t : str) (w : server) :
  dict_get (lit "type") d = Some (PyStr t) ->
  is_open self w ->
  let id := client_id (get_handler self w) in
  (t = lit "echo" -> dict_get (lit "content") d = None ->
   (forall frame,
      encode_message (echo_response_message (PyStr []) (clock w)) = Ok frame ->
      _process_message self (PyDict d) w = (push self frame (tick w), Ok tt))
   /\ _process_message self (PyDict d)
      = _process_message self (PyDict (d ++ [(lit "content", PyStr [])])))
  /\ (t = lit "ping" -> dict_get (lit "timestamp") d = None ->
      (forall frame,
         encode_message (pong_message PyNone (clock w) id) = Ok frame ->
         _process_message self (PyDict d) w = (push self frame (tick w), Ok tt))
      /\ _process_message self (PyDict d)
         = _process_message self (PyDict (d ++ [(lit "timestamp", PyNone)])))
  /\ (t = lit "broadcast" -> dict_get (lit "content") d = None ->
      (forall frame confirmation,
         recipients_open (clients w) (Some id) w ->
         encode_message (broadcast_fanout_message id (PyStr []) (clock w))
         = Ok frame ->
         encode_message
           (broadcast_sent_message (len (clients w) - 1) (clock (tick w)))
         = Ok confirmation ->
         _process_message self (PyDict d) w
         = (push self confirmation
              (tick
                 (set_message_count
                    (message_count w + len (clients w)
                     - (if truthy (Some id) then 1 else 0))
                    (deliver frame (clients w) (Some id) (tick w)))),
            Ok tt))
      /\ _process_message self (PyDict d)
         = _process_message self (PyDict (d ++ [(lit "content", PyStr [])]))).
Proof.
  intros Ht Ho id. rewrite (process_message_type self d t Ht).
  split; [|split]; intros -> Hk.
  - split.
    + intros frame E.
      change (str_eqb (lit "echo") (lit "ping")) with false.
      change (str_eqb (lit "echo") (lit "echo")) with true. cbv iota.
      apply handle_echo_open; [exact Ho|].
      unfold dict_get_default. now rewrite Hk.
    + rewrite <- (process_message_type self d _ Ht).
      apply (missing_field_is_default self d (lit "echo") (lit "content")
               (PyStr []) Ht Hk). auto.
  - split.
    + intros frame E.
      change (str_eqb (lit "ping") (lit "ping")) with true. cbv iota.
      apply handle_ping_open; [exact Ho|].
      unfold dict_get_default. now rewrite Hk.
    + rewrite <- (process_message_type self d _ Ht).
      apply (missing_field_is_default self d (lit "ping") (lit "timestamp")
               PyNone Ht Hk). auto.
  - split.
    + intros frame confirmation Hr Ef Ec.
      change (str_eqb (lit "broadcast") (lit "ping")) with false.
      change (str_eqb (lit "broadcast") (lit "echo")) with false.
      change (str_eqb (lit "broadcast") (lit "broadcast")) with true.
      cbv iota.
      apply handle_broadcast_open; try assumption.
      unfold dict_get_default. now rewrite Hk.
    + rewrite <- (process_message_type self d _ Ht).
      apply (missing_field_is_default self d (lit "broadcast")
               (lit "content") (PyStr []) Ht Hk). auto.
Qed.

Lemma missing_fields_default_witness :
  is_open 0 (one_client open_socket)
  /\ _process_message 0 (PyDict bare_echo) (one_client open_socket)
     = (push 0 echo_empty_frame (tick (one_client open_socket)), Ok tt)
  /\ sent_to 0 (push 0 echo_empty_frame (tick (one_client open_socket)))
     = [echo_empty_frame].
Proof.
  assert (Ho : is_open 0 (one_client open_socket)) by reflexivity.
  split; [exact Ho|]. split; [|reflexivity].
  refine (proj1 (proj1 (missing_fields_default 0 bare_echo (lit "echo")
                          (one_client open_socket) eq_refl Ho)
                   eq_refl eq_refl) echo_empty_frame _).
  vm_compute. reflexivity.
Defined.

Lemma NoDup_snd_key {A} (l : list (A * nat)) (k k' : A) (r : nat) :
  NoDup (map snd l) -> In (k, r) l -> In (k', r) l -> k = k'.
Proof.
  induction l as [|[k0 r0] rest IH]; intros Hnd H1 H2; [contradiction|].
  cbn [map snd] in Hnd. inversion Hnd as [|? ? Hnotin Hnd']. subst.
  destruct H1 as [H1|H1], H2 as [H2|H2].
  - congruence.
  - injection H1 as -> ->. elim Hnotin.
    change r with (snd (k', r)). now apply in_map.
  - injection H2 as -> ->. elim Hnotin.
    change r with (snd (k, r)). now apply in_map.
  - now apply IH.
Qed.

(** X1. What C4 says does hold when every socket in the registry is open
    (and the registry holds each handler once, the sender under its own
    name): every other member gets the broadcast frame, once; the sender
    gets nothing but the [broadcast_sent] whose [recipients] is the size of
    the registry less one; and the counter grows by that number. *)
Theorem broadcast_exclusion_all_open (self : nat) (d : list (str * pyval))
    (content : pyval) (frame confirmation : bytes) (w : server) :
  let id := client_id (get_handler self w) in
  dict_get (lit "type") d = Some (PyStr (lit "broadcast")) ->
  dict_get (lit "content") d = Some content ->
  id <> [] ->
  In (id, self) (clients w) ->
  NoDup (map snd (clients w)) ->
  (forall k r, In (k, r) (clients w) -> is_open r w) ->
  encode_message (broadcast_fanout_message id content (clock w)) = Ok frame ->
  encode_message
    (broadcast_sent_message (len (clients w) - 1) (clock (tick w)))
  = Ok confirmation ->
  exists w',
    _process_message self (PyDict d) w = (w', Ok tt)
    /\ (forall k r, In (k, r) (clients w) -> k <> id ->
          sent_to r w' = sent_to r w ++ [frame])
    /\ sent_to self w' = sent_to self w ++ [confirmation]
    /\ clients w' = clients w
    /\ message_count w' = message_count w + (len (clients w) - 1).
Proof.
  intros id Ht Hc Hid Hin Hnd Hopen Ef Ec.
  assert (Ho : is_open self w) by now apply (Hopen id self).
  assert (Hr : recipients_open (clients w) (Some id) w)
    by (intros k r Hk _; now apply (Hopen k r)).
  assert (Htr : truthy (Some id) = true)
    by (destruct id; [now elim Hid | reflexivity]).
  rewrite (process_message_type self d _ Ht).
  change (str_eqb (lit "broadcast") (lit "ping")) with false.
  change (str_eqb (lit "broadcast") (lit "echo")) with false.
  change (str_eqb (lit "broadcast") (lit "broadcast")) with true.
  cbv iota.
  rewrite (handle_broadcast_open self d frame confirmation w Ho Hr)
    by (try exact Ec; unfold dict_get_default; rewrite Hc; exact Ef).
  fold id. rewrite Htr.
  set (w1 := deliver frame (clients w) (Some id) (tick w)).
  set (w2 := tick (set_message_count (message_count w + len (clients w) - 1) w1)).
  assert (Ho2 : is_open self w2).
  { change (is_open self w1). apply deliver_is_open; assumption. }
  destruct (deliver_frame frame (Some id) (clients w) (tick w))
    as (H1 & _).
  eexists. split; [reflexivity|]. repeat split.
  - intros k r Hk N.
    assert (Nr : r <> self).
    { intros ->. apply N. exact (NoDup_snd_key _ _ _ _ Hnd Hk Hin). }
    unfold sent_to. rewrite push_other by exact Nr.
    change (sent_to r w1 = sent_to r (tick w) ++ [frame]).
    apply (deliver_recipient frame (Some id) (clients w) k r (tick w));
      try assumption.
    cbn [differs]. apply negb_true_iff.
    destruct (str_eqb k id) eqn:E; [|reflexivity].
    apply str_eqb_eq in E. contradiction.
  - rewrite push_sent by exact Ho2. f_equal.
    change (sent_to self w1 = sent_to self (tick w)).
    unfold sent_to. f_equal. f_equal.
    apply deliver_other. intros k Hk.
    rewrite (NoDup_snd_key _ _ _ _ Hnd Hk Hin).
    cbn [differs]. now rewrite str_eqb_refl.
  - exact H1.
  - cbn [push set_handler set_handlers message_count w2 tick
           set_message_count]. lia.
Qed.

Lemma broadcast_exclusion_all_open_witness :
  exists w',
    _process_message 0 broadcast_hi (three_clients open_socket) = (w', Ok tt)
    /\ (forall k r, In (k, r) (clients (three_clients open_socket)) ->
          k <> id_a ->
          sent_to r w' = sent_to r (three_clients open_socket)
                         ++ [fanout_hi_frame])
    /\ sent_to 0 w' = sent_to 0 (three_clients open_socket)
                      ++ [confirmation_2_frame]
    /\ clients w' = clients (three_clients open_socket)
    /\ message_count w'
       = message_count (three_clients open_socket)
         + (len (clients (three_clients open_socket)) - 1).
Proof.
  apply (broadcast_exclusion_all_open 0
           [(lit "type", PyStr (lit "broadcast"));
            (lit "content", PyStr (lit "hi"))]
           (PyStr (lit "hi")) fanout_hi_frame confirmation_2_frame
           (three_clients open_socket)); try (vm_compute; reflexivity).
  - discriminate.
  - now left.
  - cbn. repeat constructor; cbn; intuition discriminate.
  - intros k r [H|[H|[H|[]]]]; injection H as <- <-; reflexivity.
Defined.

(* ================================================================== *)
(** * The inner loop of [_handle_client] ends by itself *)
(* ================================================================== *)

Lemma keeps_ret {A} (a : A) : keeps_buffers (ret a).
Proof. intros w r. reflexivity. Qed.

Lemma keeps_lift {A} (x : result A) : keeps_buffers (lift x).
Proof. intros w r. reflexivity. Qed.

Lemma keeps_bind {A B} (m : M A) (k : A -> M B) :
  keeps_buffers m -> (forall a, keeps_buffers (k a)) ->
  keeps_buffers (bind m k).
Proof.
  intros Hm Hk w r. unfold bind. specialize (Hm w r).
  destruct (m w) as [w' [a|e]]; cbn [fst] in *; [|exact Hm].
  now rewrite (Hk a w' r).
Qed.

Lemma keeps_try_except {A} (m : M A) (h : exn -> M A) :
  keeps_buffers m -> (forall e, keeps_buffers (h e)) ->
  keeps_buffers (try_except m h).
Proof.
  intros Hm Hh w r. unfold try_except. specialize (Hm w r).
  destruct (m w) as [w' [a|e]]; cbn [fst] in *; [exact Hm|].
  now rewrite (Hh e w' r).
Qed.

Lemma keeps_get (self : nat) : keeps_buffers (get self).
Proof. intros w r. reflexivity. Qed.

Lemma keeps_fun {A} (f : server -> server) (a : server -> result A) :
  (forall w, handlers (f w) = handlers w) ->
  keeps_buffers (fun w => (f w, a w)).
Proof. intros H w r. cbn [fst]. unfold get_handler. now rewrite H. Qed.

Lemma keeps_set_handler (self : nat) (h : handler) (w : server) (r : nat) :
  buffer h = buffer (get_handler self w) ->
  buffer (get_handler r (set_handler self h w)) = buffer (get_handler r w).
Proof.
  intros H. destruct (Nat.eq_dec r self) as [->|N].
  - destruct (Nat.lt_ge_cases self (length (handlers w))) as [L|L].
    + now rewrite get_set_handler_same.
    + now rewrite set_handler_beyond.
  - now rewrite get_set_handler_other.
Qed.

Lemma keeps_set_running (self : nat) (b : bool) :
  keeps_buffers (set_running self b).
Proof. intros w r. cbn [fst set_running]. now apply keeps_set_handler. Qed.

Lemma keeps_set_socket (self : nat) (s : socket) :
  keeps_buffers (set_socket self s).
Proof. intros w r. cbn [fst set_socket]. now apply keeps_set_handler. Qed.

Lemma keeps_datetime_now : keeps_buffers datetime_now.
Proof. intros w r. reflexivity. Qed.

Lemma keeps_now_isoformat : keeps_buffers now_isoformat.
Proof.
  apply keeps_bind; [apply keeps_datetime_now | intros; apply keeps_ret].
Qed.

Lemma keeps_cleanup (self : nat) : keeps_buffers (_cleanup self).
Proof.
  unfold _cleanup. apply keeps_bind; [apply keeps_set_running|]. intros _.
  apply keeps_bind.
  { apply keeps_try_except; [|intros; apply keeps_ret].
    unfold client_socket_close.
    apply keeps_bind; [apply keeps_get|]. intros h.
    apply keeps_bind; [apply keeps_lift | intros; apply keeps_set_socket]. }
  intros _. apply keeps_bind; [apply keeps_get|]. intros h w r.
  destruct (dict_mem _ _); reflexivity.
Qed.

Lemma keeps_send_message (self : nat) (m : pyval) :
  keeps_buffers (send_message self m).
Proof.
  unfold send_message.
  apply keeps_try_except; [|intros; apply keeps_cleanup].
  apply keeps_bind; [apply keeps_lift|]. intros encoded.
  unfold client_socket_send.
  apply keeps_bind; [apply keeps_get|]. intros h.
  apply keeps_bind; [apply keeps_lift | intros; apply keeps_set_socket].
Qed.

Lemma keeps_for_items (items : list (str * nat)) (used : nat)
    (body : str -> nat -> M unit) :
  (forall k h, keeps_buffers (body k h)) ->
  keeps_buffers (for_items items used body).
Proof.
  intros Hb. induction items as [|[k h] rest IH]; intros w r;
    cbn [for_items]; destruct (negb _); try reflexivity.
  apply (keeps_bind (body k h) (fun _ => for_items rest used body));
    [apply Hb | intros; exact IH].
Qed.

Lemma keeps_broadcast_message (m : pyval) (e : option str) :
  keeps_buffers (broadcast_message m e).
Proof.
  unfold broadcast_message. apply keeps_bind.
  { intros w r.
    apply (keeps_for_items (clients w) (length (clients w))).
    intros k h. destruct (differs k e);
      [apply keeps_send_message | apply keeps_ret]. }
  intros _. apply keeps_bind; [intros w r; reflexivity|]. intros _.
  destruct (truthy e); [intros w r; reflexivity | apply keeps_ret].
Qed.

Lemma keeps_get_stats : keeps_buffers get_stats.
Proof.
  unfold get_stats. apply keeps_bind; [apply keeps_datetime_now|].
  intros t w r.
  apply (keeps_bind now_isoformat); [apply keeps_now_isoformat|].
  intros; apply keeps_ret.
Qed.

Lemma keeps_process_message (self : nat) (m : pyval) :
  keeps_buffers (_process_message self m).
Proof.
  assert (K : forall f : pyval -> pyval,
             keeps_buffers (bind now_isoformat
                              (fun t => send_message self (f t)))).
  { intros f. apply keeps_bind; [apply keeps_now_isoformat|].
    intros; apply keeps_send_message. }
  destruct m; try apply (K (fun t => PyDict
                                 [(lit "type", PyStr (lit "echo"));
                                  (lit "original_text", _);
                                  (lit "timestamp", t);
                                  (lit "from_server", PyBool true)])).
  cbn [_process_message].
  repeat match goal with
    | |- keeps_buffers (if ?b then _ else _) => destruct b
    end.
  - unfold _handle_ping. apply keeps_bind; [apply keeps_now_isoformat|].
    intros t. apply keeps_bind; [apply keeps_get|].
    intros; apply keeps_send_message.
  - unfold _handle_echo. apply K with
      (f := fun t => PyDict [(lit "type", PyStr (lit "echo_response"));
                             (lit "content", _); (lit "timestamp", t);
                             (lit "echoed_by", PyStr (lit "TCP Server"))]).
  - unfold _handle_broadcast. apply keeps_bind; [apply keeps_get|].
    intros h. apply keeps_bind; [apply keeps_now_isoformat|]. intros t.
    apply keeps_bind; [apply keeps_broadcast_message|]. intros _.
    apply keeps_bind; [intros w r; reflexivity|]. intros n.
    apply keeps_bind; [apply keeps_now_isoformat|].
    intros; apply keeps_send_message.
  - unfold _handle_get_stats. apply keeps_bind; [apply keeps_get_stats|].
    intros; apply keeps_send_message.
  - apply K with
      (f := fun t => PyDict [(lit "type", PyStr (lit "response"));
                             (lit "original_message", _);
                             (lit "timestamp", t);
                             (lit "from_server", PyBool true)]).
Qed.

(** A message taken off the buffer shortens it by four bytes at least. *)
Lemma decode_message_shortens (data rest : bytes) (m : pyval) :
  decode_message data = Ok (m, rest) -> m <> PyNone ->
  (length rest + 4 <= length data)%nat.
Proof.
  unfold decode_message, len, slice, slice_from.
  destruct (Z.ltb_spec (Z.of_nat (length data)) 4);
    [intros E N; injection E as <- _; now elim N|].
  destruct (unpack_u32 _) as [n|e] eqn:Eu; cbn [rbind]; [|discriminate].
  assert (Hn : 0 <= n).
  { unfold unpack_u32 in Eu.
    destruct (firstn _ _) as [|b0 [|b1 [|b2 [|b3 [|]]]]]; try discriminate.
    injection Eu as <-.
    pose proof (Z_of_byte_range b0). pose proof (Z_of_byte_range b1).
    pose proof (Z_of_byte_range b2). pose proof (Z_of_byte_range b3). lia. }
  destruct (Z.ltb_spec (Z.of_nat (length data)) (4 + n));
    [intros E N; injection E as <- _; now elim N|].
  intros E _.
  assert (Er : rest = skipn (Z.to_nat (4 + n)) data).
  { destruct (rbind _ json_loads) as [x|[]]; try discriminate;
      try (injection E as _ <-; reflexivity).
    destruct (utf8_decode _); cbn [rbind] in E; [|discriminate].
    injection E as _ <-. reflexivity. }
  subst rest. rewrite length_skipn. lia.
Qed.

Lemma drain_S (fuel : nat) (self : nat) (w : server) :
  drain (S fuel) self w
  = match decode_message (buffer (get_handler self w)) with
    | Raise e => (w, Raise e)
    | Ok (m, rest) =>
        match m with
        | PyNone => (with_buffer self rest w, Ok tt)
        | _ =>
            match _process_message self m (with_buffer self rest w) with
            | (w', Ok _) => drain fuel self w'
            | (w', Raise e) => (w', Raise e)
            end
        end
    end.
Proof.
  cbn [drain]. monad.
  destruct (decode_message _) as [[m rest]|e]; [|reflexivity].
  cbn [fst snd]. rewrite set_buffer_with. monad.
  destruct m; reflexivity.
Qed.

(** X4. The inner loop of [_handle_client] ends: a message taken off the
    buffer shortens it by at least four bytes, so the loop is over after at
    most as many turns as the buffer has bytes, and one more; run for more
    turns than that, [drain] gives the same result. *)
Lemma drain_fuel (self : nat) (fuel : nat) :
  forall (extra : nat) (w : server),
    (length (buffer (get_handler self w)) < fuel)%nat ->
    drain (fuel + extra) self w = drain fuel self w.
Proof.
  induction fuel as [|fuel IH]; intros extra w Hf; [lia|].
  cbn [Nat.add]. rewrite !drain_S.
  destruct (decode_message (buffer (get_handler self w)))
    as [[m rest]|e] eqn:Ed; [|reflexivity].
  assert (K : m <> PyNone ->
              match _process_message self m (with_buffer self rest w) with
              | (w', Ok _) => drain (fuel + extra) self w'
              | (w', Raise e) => (w', Raise e)
              end
              = match _process_message self m (with_buffer self rest w) with
                | (w', Ok _) => drain fuel self w'
                | (w', Raise e) => (w', Raise e)
                end).
  { intros N.
    pose proof (decode_message_shortens _ _ _ Ed N) as Hs.
    pose proof (keeps_process_message self m (with_buffer self rest w) self)
      as Hk.
    destruct (_process_message self m (with_buffer self rest w))
      as [w1 [[]|e]]; [|reflexivity].
    cbn [fst] in Hk. apply IH. rewrite Hk.
    destruct (Nat.lt_ge_cases self (length (handlers w))) as [L|L].
    - rewrite with_buffer_handler by exact L. cbn [buffer]. lia.
    - rewrite get_handler_beyond in Hs by exact L. cbn in Hs. lia. }
  destruct m; try reflexivity; apply K; discriminate.
Qed.

(* ================================================================== *)
(** * Properties of the client *)
(* ================================================================== *)

(** C10. While the client is not connected, [send_message] returns [False]
    and leaves the client as it was, its socket and what was written to it
    included; [ping], [echo], [broadcast] and [get_server_stats] return the
    same [False]. *)
Theorem send_when_not_connected (c : TCPClient.client) (m content : pyval)
    (t : datetime) :
  TCPClient.connected c = false ->
  TCPClient.send_message m c = (c, false)
  /\ TCPClient.ping t c = (c, false)
  /\ TCPClient.echo content t c = (c, false)
  /\ TCPClient.broadcast content t c = (c, false)
  /\ TCPClient.get_server_stats t c = (c, false)
  /\ TCPClient.written (fst (TCPClient.send_message m c)) = TCPClient.written c.
Proof.
  intros H.
  assert (K : forall m', TCPClient.send_message m' c = (c, false)).
  { intros m'. unfold TCPClient.send_message. now rewrite H. }
  unfold TCPClient.ping, TCPClient.echo, TCPClient.broadcast,
    TCPClient.get_server_stats.
  rewrite !K. repeat split.
Qed.

Lemma send_when_not_connected_witness :
  TCPClient.connected fresh_client = false
  /\ TCPClient.send_message sample_ping fresh_client = (fresh_client, false)
  /\ TCPClient.ping noon fresh_client = (fresh_client, false)
  /\ TCPClient.written (fst (TCPClient.send_message sample_ping fresh_client))
     = [].
Proof.
  pose proof (send_when_not_connected fresh_client sample_ping PyNone noon
                eq_refl) as (H1 & H2 & _ & _ & _ & H6).
  exact (conj eq_refl (conj H1 (conj H2 H6))).
Defined.

(** The other branch, for comparison: a connected client whose socket is
    open writes the frame of the message and returns [True]. *)
Lemma send_when_connected (c : TCPClient.client) (s : socket) (m : pyval)
    (frame : bytes) :
  TCPClient.connected c = true ->
  TCPClient.sock c = Some s -> status s = SockOpen ->
  encode_message m = Ok frame ->
  snd (TCPClient.send_message m c) = true
  /\ TCPClient.written (fst (TCPClient.send_message m c))
     = TCPClient.written c ++ [frame].
Proof.
  intros Hc Hs Ho E.
  unfold TCPClient.send_message, TCPClient.sock_send, TCPClient.written,
    socket_send.
  rewrite Hc, E, Hs. cbn [negb rbind]. rewrite Ho. cbn [rbind fst snd].
  split; reflexivity.
Qed.

(* ================================================================== *)
(** * More properties of the server *)
(* ================================================================== *)

Local Open Scope monad_scope.

(* helper: frames decode *)
Lemma decode_message_encoded (m : pyval) (frame rest : bytes) :
  round_trips m ->
  encode_message m = Ok frame ->
  decode_message (frame ++ rest) = Ok (m, rest).
Proof.
  intros Hm E.
  destruct (encode_message_frame m frame E)
    as (text & payload & header & Ht & Ep & Eh & ->).
  rewrite <- app_assoc.
  rewrite (decode_message_frame payload header rest Eh).
  rewrite (utf8_decode_encode text payload Ep). cbn [rbind].
  destruct m; try contradiction; cbn [round_trips] in Hm; subst text.
  - now rewrite Hm.
  - now rewrite json_loads_dumps.
Qed.

Lemma round_trips_not_none (m : pyval) : round_trips m -> m <> PyNone.
Proof. intros H ->. exact H. Qed.

Lemma encode_message_length (m : pyval) (frame : bytes) :
  encode_message m = Ok frame -> (4 <= length frame)%nat.
Proof.
  intros E.
  destruct (encode_message_frame m frame E)
    as (text & payload & header & _ & _ & Eh & ->).
  destruct (unpack_pack _ _ Eh) as [_ Hl]. rewrite length_app. lia.
Qed.

Lemma with_buffer_twice (self : nat) (b b' : bytes) (w : server) :
  with_buffer self b (with_buffer self b' w) = with_buffer self b w.
Proof.
  destruct (Nat.lt_ge_cases self (length (handlers w))) as [L|L].
  - unfold with_buffer at 1. rewrite with_buffer_handler by exact L.
    cbn [client_id running client_socket].
    unfold with_buffer. now rewrite set_handler_twice.
  - unfold with_buffer at 2. rewrite set_handler_beyond by exact L.
    reflexivity.
Qed.

Lemma with_buffer_running (self r : nat) (b : bytes) (w : server) :
  running (get_handler r (with_buffer self b w)) = running (get_handler r w).
Proof.
  destruct (Nat.eq_dec r self) as [->|N].
  - destruct (Nat.lt_ge_cases self (length (handlers w))) as [L|L].
    + now rewrite with_buffer_handler.
    + unfold with_buffer. now rewrite set_handler_beyond.
  - now rewrite with_buffer_other.
Qed.

Lemma with_buffer_buffer (self : nat) (b : bytes) (w : server) :
  (self < length (handlers w))%nat ->
  buffer (get_handler self (with_buffer self b w)) = b.
Proof. intros L. now rewrite with_buffer_handler. Qed.

Lemma with_buffer_clients (self : nat) (b : bytes) (w : server) :
  clients (with_buffer self b w) = clients w.
Proof. reflexivity. Qed.

(** The inner loop at a buffer that holds a message. *)
Lemma drain_message (fuel self : nat) (m : pyval) (rest : bytes)
    (w : server) :
  decode_message (buffer (get_handler self w)) = Ok (m, rest) ->
  m <> PyNone ->
  drain (S fuel) self w
  = (_process_message self m ;; drain fuel self) (with_buffer self rest w).
Proof.
  intros Hd Hm. rewrite drain_S, Hd. unfold bind.
  destruct m; try reflexivity. now elim Hm.
Qed.

Lemma drain_none (fuel self : nat) (rest : bytes) (w : server) :
  decode_message (buffer (get_handler self w)) = Ok (PyNone, rest) ->
  drain (S fuel) self w = (with_buffer self rest w, Ok tt).
Proof. intros Hd. now rewrite drain_S, Hd. Qed.

Lemma process_message_buffer (self r : nat) (m : pyval) (w : server) :
  buffer (get_handler r (fst (_process_message self m w)))
  = buffer (get_handler r w).
Proof. apply keeps_process_message. Qed.

Lemma bind_set_buffer {B} (self : nat) (b : bytes) (k : unit -> M B)
    (w : server) :
  bind (set_buffer self b) k w = k tt (with_buffer self b w).
Proof. unfold bind. now rewrite set_buffer_with. Qed.

Lemma bind_process_congr {B} (self : nat) (m : pyval) (k1 k2 : unit -> M B)
    (w : server) :
  (forall w2,
     (forall r, buffer (get_handler r w2) = buffer (get_handler r w)) ->
     k1 tt w2 = k2 tt w2) ->
  bind (_process_message self m) k1 w = bind (_process_message self m) k2 w.
Proof.
  intros H. unfold bind.
  pose proof (fun r => process_message_buffer self r m w) as Hb.
  destruct (_process_message self m w) as [w2 [[]|e]]; [|reflexivity].
  apply H. exact Hb.
Qed.

Lemma buffer_valid (self : nat) (w : server) :
  buffer (get_handler self w) <> [] -> (self < length (handlers w))%nat.
Proof.
  intros H. destruct (Nat.lt_ge_cases self (length (handlers w))); [easy|].
  now rewrite get_handler_beyond in H.
Qed.

Lemma bind_drain_message {B} (fuel self : nat) (m : pyval) (rest : bytes)
    (k : unit -> M B) (w : server) :
  decode_message (buffer (get_handler self w)) = Ok (m, rest) ->
  m <> PyNone ->
  bind (drain (S fuel) self) k w
  = bind (_process_message self m) (fun _ => bind (drain fuel self) k)
      (with_buffer self rest w).
Proof.
  intros Hd Hm. unfold bind at 1. rewrite (drain_message _ _ _ _ _ Hd Hm).
  unfold bind.
  destruct (_process_message self m (with_buffer self rest w))
    as [w2 [[]|e]]; reflexivity.
Qed.

Lemma bind_drain_none {B} (fuel self : nat) (rest : bytes)
    (k : unit -> M B) (w : server) :
  decode_message (buffer (get_handler self w)) = Ok (PyNone, rest) ->
  bind (drain (S fuel) self) k w = k tt (with_buffer self rest w).
Proof. intros Hd. unfold bind. now rewrite (drain_none _ _ _ _ Hd). Qed.

(** X5. One read that brings the frames of two messages is processed as the
    first message and then the second, each with what is behind its frame in
    the buffer; the second is processed whatever the first did to the
    connection, unless it raised. *)
Theorem receive_two_frames (self : nat) (m1 m2 : pyval) (f1 f2 : bytes)
    (w : server) :
  running (get_handler self w) = true ->
  buffer (get_handler self w) = [] ->
  round_trips m1 -> encode_message m1 = Ok f1 ->
  round_trips m2 -> encode_message m2 = Ok f2 ->
  receive [f1 ++ f2] self w
  = (set_buffer self (f1 ++ f2) ;;
     set_buffer self f2 ;; _process_message self m1 ;;
     set_buffer self [] ;; _process_message self m2 ;;
     set_buffer self []) w.
Proof.
  intros Hrun Hb R1 E1 R2 E2.
  pose proof (running_valid self w Hrun) as Hv.
  pose proof (encode_message_length _ _ E1) as L1.
  pose proof (encode_message_length _ _ E2) as L2.
  assert (Hne : f1 ++ f2 <> []).
  { intros H. apply (f_equal (@length _)) in H.
    rewrite length_app in H. cbn in H. lia. }
  rewrite receive_cons by assumption. rewrite Hb. cbn [app].
  rewrite !bind_set_buffer.
  set (w0 := with_buffer self (f1 ++ f2) w).
  assert (Hv0 : (self < length (handlers w0))%nat)
    by (unfold w0; now rewrite with_buffer_length).
  destruct (length (f1 ++ f2)) as [|[|n]] eqn:En;
    [rewrite length_app in En; lia | rewrite length_app in En; lia|].
  (* first message *)
  rewrite (bind_drain_message _ self m1 f2);
    [| unfold w0; rewrite with_buffer_buffer by exact Hv;
       now apply decode_message_encoded
     | now apply round_trips_not_none].
  set (w1 := with_buffer self f2 w0).
  assert (B1 : buffer (get_handler self w1) = f2)
    by (unfold w1; now apply with_buffer_buffer).
  apply bind_process_congr. intros w2 B2.
  (* second message *)
  rewrite (bind_drain_message _ self m2 []);
    [| rewrite B2, B1, <- (List.app_nil_r f2);
       now apply decode_message_encoded
     | now apply round_trips_not_none].
  rewrite bind_set_buffer.
  set (w3 := with_buffer self [] w2).
  assert (B3 : buffer (get_handler self w3) = []).
  { unfold w3.
    destruct (Nat.lt_ge_cases self (length (handlers w2))) as [L|L].
    - now apply with_buffer_buffer.
    - unfold with_buffer. rewrite set_handler_beyond by exact L.
      now rewrite get_handler_beyond. }
  apply bind_process_congr. intros w4 B4.
  rewrite (bind_drain_none _ self []) by (rewrite B4, B3; reflexivity).
  cbn [receive]. unfold ret. now rewrite set_buffer_with.
Qed.


Lemma process_unknown_open (self : nat) (d : list (str * pyval))
    (frame : bytes) (w : server) :
  known_type (dict_get_default d (lit "type") (PyStr (lit "unknown")))
  = false ->
  is_open self w ->
  encode_message (response_message (PyDict d) (clock w)) = Ok frame ->
  _process_message self (PyDict d) w = (push self frame (tick w), Ok tt).
Proof.
  intros Hk Ho E. unfold known_type in Hk.
  apply orb_false_iff in Hk as [Hk H4].
  apply orb_false_iff in Hk as [Hk H3].
  apply orb_false_iff in Hk as [H1 H2].
  cbn [_process_message]. rewrite H1, H2, H3, H4.
  unfold bind. rewrite now_isoformat_tick.
  apply send_message_open; [exact E | now apply tick_is_open].
Qed.

Lemma get_stats_tick (w : server) :
  get_stats w
  = (tick (tick w), Ok (stats_message w (clock w) (clock (tick w)))).
Proof. reflexivity. Qed.

Lemma process_get_stats_open (self : nat) (d : list (str * pyval))
    (frame : bytes) (w : server) :
  dict_get (lit "type") d = Some (PyStr (lit "get_stats")) ->
  is_open self w ->
  encode_message (stats_message w (clock w) (clock (tick w))) = Ok frame ->
  _process_message self (PyDict d) w
  = (push self frame (tick (tick w)), Ok tt).
Proof.
  intros Ht Ho E. rewrite (process_message_type self d _ Ht).
  change (_handle_get_stats self w = (push self frame (tick (tick w)), Ok tt)).
  unfold _handle_get_stats, bind. rewrite get_stats_tick.
  apply send_message_open; [exact E | now do 2 apply tick_is_open].
Qed.

Lemma seconds_between_nonneg (a b : datetime) :
  to_microseconds b <= to_microseconds a -> 0 <= seconds_between a b.
Proof.
  intros H. unfold seconds_between. apply Z.quot_pos; lia.
Qed.

Lemma tick_sent (r : nat) (w : server) : sent_to r (tick w) = sent_to r w.
Proof. reflexivity. Qed.

Lemma answered_push (self : nat) (frame : bytes) (w w1 : server) :
  is_open self w1 ->
  sent_to self w1 = sent_to self w ->
  (forall r, r <> self -> get_handler r w1 = get_handler r w) ->
  clients w1 = clients w ->
  message_count w1 = message_count w ->
  answered self frame w (push self frame w1).
Proof.
  intros Ho Hs Hr Hc Hm. repeat split.
  - now rewrite push_sent, Hs.
  - intros r N. now rewrite push_other, Hr.
  - now rewrite push_clients.
  - exact Hm.
Qed.

Lemma answered_with_buffer (self : nat) (frame b : bytes) (w w1 : server) :
  answered self frame w w1 -> answered self frame w (with_buffer self b w1).
Proof.
  intros (Hs & Hr & Hc & Hm). repeat split; try assumption.
  - now rewrite with_buffer_sent.
  - intros r N. now rewrite with_buffer_other, Hr.
Qed.

(** X6. A message of a type the server has no handler for, the type left out
    or not a string included, is answered by one [response] that carries the
    whole message. *)
Theorem unknown_type_gets_response (self : nat) (d : list (str * pyval))
    (frame : bytes) (w : server) :
  known_type (dict_get_default d (lit "type") (PyStr (lit "unknown")))
  = false ->
  is_open self w ->
  encode_message (response_message (PyDict d) (clock w)) = Ok frame ->
  exists w',
    _process_message self (PyDict d) w = (w', Ok tt)
    /\ answered self frame w w'.
Proof.
  intros Hk Ho E. exists (push self frame (tick w)).
  split; [now apply process_unknown_open|].
  apply answered_push; try reflexivity. now apply tick_is_open.
Qed.

Lemma unknown_type_gets_response_witness :
  exists w',
    _process_message 0 (PyDict custom_test) (one_client open_socket)
    = (w', Ok tt)
    /\ answered 0 custom_response_frame (one_client open_socket) w'.
Proof.
  apply (unknown_type_gets_response 0 custom_test custom_response_frame
           (one_client open_socket)); vm_compute; reflexivity.
Defined.

(** X7. A [get_stats] request is answered by one [server_stats] message with
    the size of the registry, the whole seconds the clock has moved since
    the server was created and the message count; the request changes
    neither the registry nor the count. The seconds are not negative as long
    as the clock is not behind the start time. *)
Theorem get_stats_reply (self : nat) (d : list (str * pyval))
    (frame : bytes) (w : server) :
  dict_get (lit "type") d = Some (PyStr (lit "get_stats")) ->
  is_open self w ->
  encode_message (stats_message w (clock w) (clock (tick w))) = Ok frame ->
  (exists w',
     _process_message self (PyDict d) w = (w', Ok tt)
     /\ answered self frame w w')
  /\ (to_microseconds (start_time w) <= to_microseconds (clock w) ->
      0 <= seconds_between (clock w) (start_time w)).
Proof.
  intros Ht Ho E. split; [|apply seconds_between_nonneg].
  exists (push self frame (tick (tick w))).
  split; [now apply process_get_stats_open|].
  apply answered_push; try reflexivity. now do 2 apply tick_is_open.
Qed.

Lemma get_stats_reply_witness :
  (exists w',
     _process_message 0 (PyDict stats_request) (one_client open_socket)
     = (w', Ok tt)
     /\ answered 0 stats_frame (one_client open_socket) w')
  /\ (to_microseconds noon <= to_microseconds noon ->
      0 <= seconds_between noon noon).
Proof.
  apply (get_stats_reply 0 stats_request stats_frame
           (one_client open_socket)); vm_compute; reflexivity.
Defined.

(** The outer loop at a read that brings exactly one message. *)
Lemma receive_one_frame (self : nat) (inbound : bytes) (m : pyval)
    (w : server) :
  running (get_handler self w) = true ->
  buffer (get_handler self w) = [] ->
  decode_message inbound = Ok (m, []) ->
  m <> PyNone ->
  receive [inbound] self w
  = (set_buffer self inbound ;; set_buffer self [] ;;
     _process_message self m ;; set_buffer self []) w.
Proof.
  intros Hrun Hb Hd Hm.
  pose proof (running_valid self w Hrun) as Hv.
  pose proof (decode_message_some_length _ _ _ Hd Hm) as Hl.
  assert (Hne : inbound <> []) by (intros ->; cbn in Hl; lia).
  rewrite receive_cons by assumption. rewrite Hb. cbn [app].
  rewrite !bind_set_buffer.
  destruct (length inbound) as [|n] eqn:En; [lia|].
  rewrite (bind_drain_message _ self m [])
    by (try rewrite with_buffer_buffer by exact Hv; assumption).
  apply bind_process_congr. intros w2 B2.
  rewrite (bind_drain_none _ self []).
  - cbn [receive]. unfold ret. now rewrite set_buffer_with.
  - rewrite B2, with_buffer_buffer; [reflexivity|].
    now rewrite with_buffer_length.
Qed.



(** X9. A frame whose payload is the JSON text [null] is taken off the
    buffer without an answer, and ends the processing of the read that
    brought it: what came behind it in the same read, complete frames
    included, stays in the buffer. *)
Theorem null_payload_is_dropped (self : nat) (payload header next : bytes)
    (text : str) (w : server) :
  running (get_handler self w) = true ->
  buffer (get_handler self w) = [] ->
  utf8_decode payload = Ok text ->
  json_loads text = Ok PyNone ->
  pack_u32 (len payload) = Ok header ->
  exists w',
    receive [header ++ payload ++ next] self w = (w', Ok tt)
    /\ buffer (get_handler self w') = next
    /\ (forall r, sent_to r w' = sent_to r w)
    /\ (forall r, r <> self -> get_handler r w' = get_handler r w)
    /\ clients w' = clients w.
Proof.
  intros Hrun Hb Hu Hj Hp.
  pose proof (running_valid self w Hrun) as Hv.
  destruct (unpack_pack _ _ Hp) as [_ Hl].
  assert (Hne : header ++ payload ++ next <> [])
    by (destruct header; [discriminate Hl | discriminate]).
  assert (Hd : decode_message (header ++ payload ++ next)
               = Ok (PyNone, next)).
  { rewrite (decode_message_frame payload header next Hp), Hu.
    cbn [rbind]. now rewrite Hj. }
  rewrite receive_cons by assumption. rewrite Hb. cbn [app].
  rewrite bind_set_buffer.
  rewrite (bind_drain_none _ self next)
    by (rewrite with_buffer_buffer by exact Hv; exact Hd).
  cbn [receive]. unfold ret. eexists. split; [reflexivity|].
  rewrite with_buffer_twice. repeat split.
  - now apply with_buffer_buffer.
  - intros r. apply with_buffer_sent.
  - intros r N. now apply with_buffer_other.
Qed.

Lemma null_payload_is_dropped_witness :
  exists w',
    receive [text_null_frame ++ text_hello_frame] 0 (one_client open_socket)
    = (w', Ok tt)
    /\ buffer (get_handler 0 w') = text_hello_frame
    /\ (forall r, sent_to r w' = sent_to r (one_client open_socket))
    /\ (forall r, r <> 0%nat ->
          get_handler r w' = get_handler r (one_client open_socket))
    /\ clients w' = clients (one_client open_socket).
Proof.
  apply (null_payload_is_dropped 0 (bytes_of [110; 117; 108; 108])
           (bytes_of [0; 0; 0; 4]) text_hello_frame (lit "null")
           (one_client open_socket)); vm_compute; reflexivity.
Defined.

(** X10. A frame that arrives in two reads, cut at any place, is processed
    as if it had arrived in one. *)
Theorem split_frame_is_reassembled (self : nat) (m : pyval) (frame : bytes)
    (k : nat) (chunks : list bytes) (w : server) :
  running (get_handler self w) = true ->
  buffer (get_handler self w) = [] ->
  encode_message m = Ok frame ->
  (0 < k < length frame)%nat ->
  receive (firstn k frame :: skipn k frame :: chunks) self w
  = receive (frame :: chunks) self w.
Proof.
  intros Hrun Hb E Hk.
  pose proof (running_valid self w Hrun) as Hv.
  destruct (encode_message_frame m frame E)
    as (text & payload & header & _ & _ & Eh & ->).
  set (frame := header ++ payload) in *.
  assert (H1 : firstn k frame <> []).
  { intros H. apply (f_equal (@length _)) in H.
    rewrite length_firstn in H. cbn in H. lia. }
  assert (H2 : skipn k frame <> []).
  { intros H. apply (f_equal (@length _)) in H.
    rewrite length_skipn in H. cbn in H. lia. }
  assert (H3 : frame <> []) by (intros H; rewrite H in Hk; cbn in Hk; lia).
  rewrite (receive_cons (firstn k frame)) by assumption.
  rewrite Hb. cbn [app]. rewrite bind_set_buffer.
  rewrite (bind_drain_none _ self (firstn k frame))
    by (rewrite with_buffer_buffer by exact Hv;
        apply decode_message_short; [exact Eh | exact (proj2 Hk)]).
  rewrite with_buffer_twice.
  rewrite (receive_cons (skipn k frame))
    by (try rewrite with_buffer_running; assumption).
  rewrite with_buffer_buffer by exact Hv.
  rewrite firstn_skipn, bind_set_buffer, with_buffer_twice.
  rewrite (receive_cons frame) by assumption.
  rewrite Hb. cbn [app]. now rewrite bind_set_buffer.
Qed.

Lemma split_frame_is_reassembled_witness :
  receive [firstn 7 sample_ping_frame; skipn 7 sample_ping_frame] 0
    (one_client open_socket)
  = receive [sample_ping_frame] 0 (one_client open_socket).
Proof.
  apply (split_frame_is_reassembled 0 sample_ping sample_ping_frame 7 []
           (one_client open_socket));
    [reflexivity | reflexivity | vm_compute; reflexivity |].
  split; [lia | apply Nat.ltb_lt; vm_compute; reflexivity].
Defined.

Lemma receive_two_frames_witness :
  receive [sample_ping_frame ++ text_hello_frame] 0 (one_client open_socket)
  = (set_buffer 0 (sample_ping_frame ++ text_hello_frame) ;;
     set_buffer 0 text_hello_frame ;; _process_message 0 sample_ping ;;
     set_buffer 0 [] ;; _process_message 0 (PyStr (lit "hello")) ;;
     set_buffer 0 []) (one_client open_socket).
Proof.
  apply (receive_two_frames 0 sample_ping (PyStr (lit "hello"))
           sample_ping_frame text_hello_frame (one_client open_socket));
    vm_compute; reflexivity.
Defined.

(** ** Dictionaries *)

Lemma str_eqb_neq (a b : str) : str_eqb a b = false <-> a <> b.
Proof.
  split.
  - intros H E. apply str_eqb_eq in E. congruence.
  - intros N. destruct (str_eqb a b) eqn:E; [|reflexivity].
    apply str_eqb_eq in E. contradiction.
Qed.

Lemma str_eqb_sym (a b : str) : str_eqb a b = str_eqb b a.
Proof.
  destruct (str_eqb b a) eqn:E.
  - apply str_eqb_eq in E as ->. apply str_eqb_refl.
  - apply str_eqb_neq. apply str_eqb_neq in E. congruence.
Qed.

Lemma dict_get_set_same {V} (k : str) (v : V) (d : list (str * V)) :
  dict_get k (dict_set k v d) = Some v.
Proof.
  induction d as [|[k' v'] r IH]; cbn [dict_set dict_get].
  - now rewrite str_eqb_refl.
  - destruct (str_eqb k k') eqn:E; cbn [dict_get].
    + now rewrite str_eqb_refl.
    + now rewrite E.
Qed.

Lemma dict_get_set_other {V} (k k' : str) (v : V) (d : list (str * V)) :
  k' <> k -> dict_get k' (dict_set k v d) = dict_get k' d.
Proof.
  intros N. apply str_eqb_neq in N.
  induction d as [|[k0 v0] r IH]; cbn [dict_set dict_get].
  - now rewrite N.
  - destruct (str_eqb k k0) eqn:E; cbn [dict_get].
    + apply str_eqb_eq in E as <-. now rewrite N.
    + now rewrite IH.
Qed.

Lemma dict_get_del_other {V} (k k' : str) (d : list (str * V)) :
  k' <> k -> dict_get k' (dict_del k d) = dict_get k' d.
Proof.
  intros N. apply str_eqb_neq in N.
  induction d as [|[k0 v0] r IH]; cbn [dict_del dict_get]; [reflexivity|].
  destruct (str_eqb k k0) eqn:E; cbn [dict_get].
  - apply str_eqb_eq in E as <-. now rewrite N.
  - now rewrite IH.
Qed.

Lemma in_dict_del {V} (k k' : str) (v : V) (d : list (str * V)) :
  In (k', v) (dict_del k d) <-> In (k', v) d /\ k' <> k.
Proof.
  induction d as [|[k0 v0] r IH]; cbn [dict_del In]; [tauto|].
  destruct (str_eqb k k0) eqn:E.
  - apply str_eqb_eq in E as <-. rewrite IH. split.
    + tauto.
    + intros [[H|H] N]; [|tauto]. injection H as -> _. contradiction.
  - apply str_eqb_neq in E. cbn [In]. rewrite IH. split.
    + intros [H|H]; [|tauto]. injection H as -> ->. split; [now left|].
      congruence.
    + tauto.
Qed.

Lemma dict_mem_in {V} (k : str) (d : list (str * V)) :
  dict_mem k d = true <-> exists v, In (k, v) d.
Proof.
  unfold dict_mem. induction d as [|[k0 v0] r IH]; cbn [dict_get In].
  - split; [discriminate | intros [_ []]].
  - destruct (str_eqb k k0) eqn:E.
    + apply str_eqb_eq in E as <-. split; [|reflexivity].
      intros _. exists v0. now left.
    + apply str_eqb_neq in E. rewrite IH. split.
      * intros [v H]. exists v. now right.
      * intros [v [H|H]]; [injection H as -> _; contradiction|].
        now exists v.
Qed.

Lemma dict_mem_del_other {V} (k k' : str) (d : list (str * V)) :
  dict_mem k' (dict_del k d) = true -> dict_mem k' d = true.
Proof.
  rewrite !dict_mem_in. intros [v H]. apply in_dict_del in H as [H _].
  now exists v.
Qed.

Lemma keys_distinct_del {V} (k : str) (d : list (str * V)) :
  keys_distinct d = true -> keys_distinct (dict_del k d) = true.
Proof.
  induction d as [|[k0 v0] r IH]; cbn [keys_distinct dict_del];
    [reflexivity|].
  intros H. apply andb_true_iff in H as [H1 H2].
  destruct (str_eqb k k0); [now apply IH|].
  cbn [keys_distinct]. rewrite IH by exact H2. rewrite andb_true_r.
  apply negb_true_iff. apply negb_true_iff in H1.
  destruct (dict_mem k0 (dict_del k r)) eqn:E; [|reflexivity].
  apply dict_mem_del_other in E. congruence.
Qed.

Lemma dict_mem_set {V} (k k' : str) (v : V) (d : list (str * V)) :
  dict_mem k' (dict_set k v d) = str_eqb k' k || dict_mem k' d.
Proof.
  unfold dict_mem.
  destruct (str_eqb k' k) eqn:E.
  - apply str_eqb_eq in E as ->. now rewrite dict_get_set_same.
  - apply str_eqb_neq in E. now rewrite dict_get_set_other.
Qed.

Lemma keys_distinct_set {V} (k : str) (v : V) (d : list (str * V)) :
  keys_distinct d = true -> keys_distinct (dict_set k v d) = true.
Proof.
  induction d as [|[k0 v0] r IH]; cbn [keys_distinct dict_set];
    [reflexivity|].
  intros H. apply andb_true_iff in H as [H1 H2].
  destruct (str_eqb k k0) eqn:E.
  - apply str_eqb_eq in E as <-. cbn [keys_distinct].
    now rewrite H1, H2.
  - cbn [keys_distinct]. rewrite IH by exact H2. rewrite andb_true_r.
    rewrite dict_mem_set, str_eqb_sym, E. exact H1.
Qed.

Lemma in_dict_set_distinct {V} (k k' : str) (v v' : V)
    (d : list (str * V)) :
  keys_distinct d = true ->
  In (k', v') (dict_set k v d) ->
  (k' = k /\ v' = v) \/ (k' <> k /\ In (k', v') d).
Proof.
  induction d as [|[k0 v0] r IH]; cbn [dict_set In keys_distinct].
  - intros _ [H|[]]. injection H as <- <-. now left.
  - intros Hd. apply andb_true_iff in Hd as [H1 H2].
    apply negb_true_iff in H1.
    destruct (str_eqb k k0) eqn:E; cbn [In].
    + apply str_eqb_eq in E as <-.
      intros [H|H]; [injection H as <- <-; now left|].
      right. split; [|now right]. intros ->.
      assert (dict_mem k r = true) by (apply dict_mem_in; now exists v').
      congruence.
    + apply str_eqb_neq in E.
      intros [H|H].
      * injection H as <- <-. right. split; [congruence | now left].
      * destruct (IH H2 H) as [?|[? ?]]; [now left|].
        right. split; [assumption | now right].
Qed.

Lemma in_dict_set_new {V} (k : str) (v : V) (d : list (str * V)) :
  In (k, v) (dict_set k v d).
Proof.
  induction d as [|[k0 v0] r IH]; cbn [dict_set]; [now left|].
  destruct (str_eqb k k0); [now left | now right].
Qed.

Lemma length_dict_set {V} (k : str) (v : V) (d : list (str * V)) :
  length (dict_set k v d)
  = if dict_mem k d then length d else S (length d).
Proof.
  unfold dict_mem.
  induction d as [|[k0 v0] r IH]; cbn [dict_set dict_get length];
    [reflexivity|].
  destruct (str_eqb k k0); cbn [length]; [reflexivity|].
  rewrite IH. now destruct (dict_get k r).
Qed.

(** ** What a teardown changes *)

Lemma cleaned_clients (self : nat) (w : server) :
  clients (cleaned self w)
  = dict_del (client_id (get_handler self w)) (clients w).
Proof. reflexivity. Qed.

Lemma cleaned_length (self : nat) (w : server) :
  length (handlers (cleaned self w)) = length (handlers w).
Proof. unfold cleaned. cbn. apply list_update_length. Qed.

Lemma cleaned_other (self r : nat) (w : server) :
  r <> self -> get_handler r (cleaned self w) = get_handler r w.
Proof.
  intros N. unfold cleaned.
  change (get_handler r (set_clients ?c ?x)) with (get_handler r x).
  now apply get_set_handler_other.
Qed.

Lemma cleaned_handler (self : nat) (w : server) :
  get_handler self (cleaned self w)
  = let h := get_handler self w in
    mk_handler (client_id h) false
      (mk_socket SockClosed (sent (client_socket h))) (buffer h).
Proof.
  unfold cleaned.
  change (get_handler self (set_clients ?c ?x)) with (get_handler self x).
  destruct (Nat.lt_ge_cases self (length (handlers w))) as [L|L].
  - now apply get_set_handler_same.
  - rewrite set_handler_beyond by exact L.
    now rewrite get_handler_beyond.
Qed.

Lemma cleaned_client_id (self r : nat) (w : server) :
  client_id (get_handler r (cleaned self w)) = client_id (get_handler r w).
Proof.
  destruct (Nat.eq_dec r self) as [->|N].
  - now rewrite cleaned_handler.
  - now rewrite cleaned_other.
Qed.

Lemma cleaned_sent (self r : nat) (w : server) :
  sent_to r (cleaned self w) = sent_to r w.
Proof.
  unfold sent_to. destruct (Nat.eq_dec r self) as [->|N].
  - now rewrite cleaned_handler.
  - now rewrite cleaned_other.
Qed.

Lemma cleaned_message_count (self : nat) (w : server) :
  message_count (cleaned self w) = message_count w.
Proof. reflexivity. Qed.

(** X11. A send that fails, because the message cannot be encoded or the
    socket does not take it, raises nothing: it tears down the connection it
    was for, and no other. *)
Theorem failed_send_closes_that_connection (self : nat) (m : pyval)
    (w : server) :
  (exists e, encode_message m = Raise e) \/ ~ is_open self w ->
  exists w',
    send_message self m w = (w', Ok tt)
    /\ torn_down self w'
    /\ (forall r, sent_to r w' = sent_to r w)
    /\ (forall r, r <> self -> get_handler r w' = get_handler r w)
    /\ (forall k, k <> client_id (get_handler self w) ->
          dict_get k (clients w') = dict_get k (clients w))
    /\ message_count w' = message_count w.
Proof.
  intros H. exists (cleaned self w).
  split; [now apply send_message_failed|].
  split; [apply cleaned_torn_down|].
  split; [intros r; apply cleaned_sent|].
  split; [intros r; apply cleaned_other|].
  split; [|reflexivity].
  intros k N. rewrite cleaned_clients. now apply dict_get_del_other.
Qed.

Lemma failed_send_closes_that_connection_witness :
  exists w',
    send_message 1 sample_ping (three_clients broken_socket) = (w', Ok tt)
    /\ torn_down 1 w'
    /\ (forall r, sent_to r w' = sent_to r (three_clients broken_socket))
    /\ (forall r, r <> 1%nat ->
          get_handler r w' = get_handler r (three_clients broken_socket))
    /\ (forall k,
          k <> client_id (get_handler 1 (three_clients broken_socket)) ->
          dict_get k (clients w')
          = dict_get k (clients (three_clients broken_socket)))
    /\ message_count w' = message_count (three_clients broken_socket).
Proof.
  apply (failed_send_closes_that_connection 1 sample_ping
           (three_clients broken_socket)).
  right. vm_compute. discriminate.
Defined.

(** ** [_handle_client] *)

Lemma handle_client_cleaned (self : nat) (chunks : list bytes) (w : server) :
  _handle_client self chunks w
  = (cleaned self (fst (receive chunks self w)), Ok tt).
Proof.
  unfold _handle_client, try_finally, try_except.
  destruct (receive chunks self w) as [w1 [[]|e]]; cbn [fst ret];
    now rewrite cleanup_cleaned.
Qed.

(** X12. However the reading ends, by the peer closing, by the handler
    having been stopped, or by an exception from the decoder or from the
    processing of a message, [_handle_client] raises nothing and leaves the
    connection torn down. *)
Theorem handle_client_tears_down (self : nat) (chunks : list bytes)
    (w : server) :
  snd (_handle_client self chunks w) = Ok tt
  /\ torn_down self (fst (_handle_client self chunks w)).
Proof.
  rewrite handle_client_cleaned. cbn [fst snd].
  split; [reflexivity | apply cleaned_torn_down].
Qed.

(** X13. A frame whose payload is not UTF-8 ends the connection: the
    exception of the decoder leaves the loop, no answer is sent, what the
    peer sends afterwards is not read, and the connection is torn down. *)
Theorem undecodable_frame_ends_connection (self : nat)
    (payload header next : bytes) (chunks : list bytes) (e : exn)
    (w : server) :
  running (get_handler self w) = true ->
  buffer (get_handler self w) = [] ->
  utf8_decode payload = Raise e ->
  pack_u32 (len payload) = Ok header ->
  exists w',
    _handle_client self ((header ++ payload ++ next) :: chunks) w
    = (w', Ok tt)
    /\ torn_down self w'
    /\ (forall r, sent_to r w' = sent_to r w)
    /\ (forall r, r <> self -> get_handler r w' = get_handler r w).
Proof.
  intros Hrun Hb Hu Hp.
  pose proof (running_valid self w Hrun) as Hv.
  destruct (unpack_pack _ _ Hp) as [_ Hl].
  assert (Hne : header ++ payload ++ next <> [])
    by (destruct header; [discriminate Hl | discriminate]).
  assert (Hd : decode_message (header ++ payload ++ next) = Raise e).
  { rewrite (decode_message_frame payload header next Hp), Hu.
    cbn [rbind]. now destruct e. }
  rewrite handle_client_cleaned, receive_cons by assumption.
  rewrite Hb. cbn [app]. rewrite bind_set_buffer.
  unfold bind. rewrite drain_S.
  rewrite with_buffer_buffer by exact Hv. rewrite Hd. cbn [fst].
  eexists. split; [reflexivity|].
  split; [apply cleaned_torn_down|]. split.
  - intros r. now rewrite cleaned_sent, with_buffer_sent.
  - intros r N. now rewrite cleaned_other, with_buffer_other.
Qed.

Lemma undecodable_frame_ends_connection_witness :
  exists w',
    _handle_client 0 [bad_utf8_frame ++ text_hello_frame; text_hello_frame]
      (one_client open_socket) = (w', Ok tt)
    /\ torn_down 0 w'
    /\ (forall r, sent_to r w' = sent_to r (one_client open_socket))
    /\ (forall r, r <> 0%nat ->
          get_handler r w' = get_handler r (one_client open_socket)).
Proof.
  apply (undecodable_frame_ends_connection 0 (bytes_of [255])
           (bytes_of [0; 0; 0; 1]) text_hello_frame [text_hello_frame]
           UnicodeDecodeError (one_client open_socket));
    vm_compute; reflexivity.
Defined.

(** ** [accept] *)

Lemma get_handler_app_new (hs : list handler) (h : handler) (w : server) :
  get_handler (length hs) (set_handlers (hs ++ [h]) w) = h.
Proof.
  unfold get_handler. cbn [handlers set_handlers].
  now rewrite app_nth2, Nat.sub_diag by lia.
Qed.

Lemma get_handler_app_old (r : nat) (hs : list handler) (h : handler)
    (w : server) :
  (r < length hs)%nat ->
  get_handler r (set_handlers (hs ++ [h]) w) = nth r hs dead_handler.
Proof.
  intros L. unfold get_handler. cbn [handlers set_handlers].
  now rewrite app_nth1.
Qed.

(** The server once the connection is in the registry, before the
    welcome. *)
Lemma accept_start (s : socket) (host : str) (port : Z) (w : server) :
  accept s host port w
  = (start (length (handlers w)) ;; ret (length (handlers w)))
      (set_clients
         (dict_set (address_id host port) (length (handlers w)) (clients w))
         (set_handlers
            (handlers w ++ [mk_handler (address_id host port) true s []])
            w)).
Proof. reflexivity. Qed.

Lemma start_open (self : nat) (frame : bytes) (w : server) :
  is_open self w ->
  encode_message
    (welcome_message (client_id (get_handler self w)) (clock w)) = Ok frame ->
  start self w = (push self frame (tick w), Ok tt).
Proof.
  intros Ho E. unfold start. monad. rewrite now_isoformat_tick.
  apply send_message_open; [exact E | now apply tick_is_open].
Qed.

Lemma start_failed (self : nat) (w : server) :
  ~ is_open self w -> start self w = (cleaned self (tick w), Ok tt).
Proof.
  intros Ho. unfold start. monad. rewrite now_isoformat_tick.
  apply send_message_failed. right. exact Ho.
Qed.

(** X14. A connection that arrives on an open socket gets a handler of its
    own, named after its address, is entered in the registry under that
    name, replacing what the name stood for, and is sent one [welcome]; the
    handlers and the registry entries there were are not touched. *)
Theorem accept_registers_and_welcomes (s : socket) (host : str) (port : Z)
    (frame : bytes) (w : server) :
  let id := address_id host port in
  let self := length (handlers w) in
  status s = SockOpen ->
  encode_message (welcome_message id (clock w)) = Ok frame ->
  exists w',
    accept s host port w = (w', Ok self)
    /\ get_handler self w'
       = mk_handler id true (mk_socket SockOpen (sent s ++ [frame])) []
    /\ dict_get id (clients w') = Some self
    /\ (forall k, k <> id -> dict_get k (clients w') = dict_get k (clients w))
    /\ length (clients w')
       = (if dict_mem id (clients w) then length (clients w)
          else S (length (clients w)))
    /\ (forall r, (r < length (handlers w))%nat ->
          get_handler r w' = get_handler r w)
    /\ message_count w' = message_count w.
Proof.
  intros id self Ho E. rewrite accept_start. fold id self.
  set (h := mk_handler id true s []).
  set (w2 := set_clients _ _).
  assert (Hh : get_handler self w2 = h)
    by (unfold w2, self; apply (get_handler_app_new (handlers w) h)).
  assert (Ho2 : is_open self w2) by (unfold is_open; now rewrite Hh).
  unfold bind.
  rewrite (start_open self frame w2 Ho2) by (now rewrite Hh).
  unfold ret. eexists. split; [reflexivity|].
  split.
  { rewrite push_handler by (now apply tick_is_open).
    rewrite tick_handler, Hh. reflexivity. }
  rewrite push_clients. cbn [tick clients w2 set_clients].
  split; [apply dict_get_set_same|].
  split; [intros k N; now apply dict_get_set_other|].
  split; [apply length_dict_set|].
  split; [|reflexivity].
  intros r L. rewrite push_other, tick_handler by (unfold self; lia).
  unfold w2.
  change (get_handler r (set_clients ?c ?x)) with (get_handler r x).
  now rewrite get_handler_app_old.
Qed.

Lemma accept_registers_and_welcomes_witness :
  exists w',
    accept open_socket (lit "10.0.0.1") 5001 empty_server = (w', Ok 0%nat)
    /\ get_handler 0 w'
       = mk_handler id_a true (mk_socket SockOpen ([] ++ [welcome_a_frame])) []
    /\ dict_get id_a (clients w') = Some 0%nat
    /\ (forall k, k <> id_a ->
          dict_get k (clients w') = dict_get k (clients empty_server))
    /\ length (clients w') = 1%nat
    /\ (forall r, (r < 0)%nat -> get_handler r w' = get_handler r empty_server)
    /\ message_count w' = 0.
Proof.
  apply (accept_registers_and_welcomes open_socket (lit "10.0.0.1") 5001
           welcome_a_frame empty_server); vm_compute; reflexivity.
Defined.

(** X15. A connection whose socket does not take the welcome is torn down at
    once: [accept] raises nothing, the handler it made is stopped and
    closed, and the name is in the registry no more, whatever it stood for
    before. *)
Theorem accept_on_dead_socket (s : socket) (host : str) (port : Z)
    (w : server) :
  let id := address_id host port in
  let self := length (handlers w) in
  status s <> SockOpen ->
  exists w',
    accept s host port w = (w', Ok self)
    /\ get_handler self w'
       = mk_handler id false (mk_socket SockClosed (sent s)) []
    /\ dict_mem id (clients w') = false
    /\ (forall k, k <> id -> dict_get k (clients w') = dict_get k (clients w))
    /\ (forall r, (r < length (handlers w))%nat ->
          get_handler r w' = get_handler r w).
Proof.
  intros id self Ho. rewrite accept_start. fold id self.
  set (h := mk_handler id true s []).
  set (w2 := set_clients _ _).
  assert (Hh : get_handler self w2 = h)
    by (unfold w2, self; apply (get_handler_app_new (handlers w) h)).
  assert (Ho2 : ~ is_open self w2) by (unfold is_open; now rewrite Hh).
  unfold bind. rewrite (start_failed self w2 Ho2).
  unfold ret. eexists. split; [reflexivity|].
  split; [rewrite cleaned_handler, tick_handler, Hh; reflexivity|].
  rewrite cleaned_clients, tick_handler, Hh.
  cbn [client_id h tick clients w2 set_clients].
  split; [apply dict_mem_del|].
  split.
  - intros k N. rewrite dict_get_del_other by exact N.
    now apply dict_get_set_other.
  - intros r L. rewrite cleaned_other, tick_handler by (unfold self; lia).
    unfold w2.
    change (get_handler r (set_clients ?c ?x)) with (get_handler r x).
    now rewrite get_handler_app_old.
Qed.

Lemma accept_on_dead_socket_witness :
  exists w',
    accept broken_socket (lit "10.0.0.1") 5001 (one_client open_socket)
    = (w', Ok 1%nat)
    /\ get_handler 1 w'
       = mk_handler id_a false (mk_socket SockClosed []) []
    /\ dict_mem id_a (clients w') = false
    /\ (forall k, k <> id_a ->
          dict_get k (clients w')
          = dict_get k (clients (one_client open_socket)))
    /\ (forall r, (r < 1)%nat ->
          get_handler r w' = get_handler r (one_client open_socket)).
Proof.
  apply (accept_on_dead_socket broken_socket (lit "10.0.0.1") 5001
           (one_client open_socket)).
  discriminate.
Defined.

(** ** [stop] *)

Lemma fold_cleanup (l : list nat) :
  forall (m : M unit) (w : server),
    fold_left (fun (m : M unit) h => m ;; _cleanup h) l m w
    = match m w with
      | (w0, Ok _) => (cleaned_all l w0, Ok tt)
      | (w0, Raise e) => (w0, Raise e)
      end.
Proof.
  induction l as [|h l IH]; intros m w; cbn [fold_left].
  - destruct (m w) as [w0 [[]|e]]; reflexivity.
  - rewrite IH. unfold bind.
    destruct (m w) as [w0 [[]|e]]; [|reflexivity].
    now rewrite cleanup_cleaned.
Qed.

Lemma stop_cleaned_all (w : server) :
  stop w = (cleaned_all (map snd (clients w)) w, Ok tt).
Proof. unfold stop. now rewrite fold_cleanup. Qed.

Lemma cleaned_all_cons (h : nat) (l : list nat) (w : server) :
  cleaned_all (h :: l) w = cleaned_all l (cleaned h w).
Proof. reflexivity. Qed.

Lemma cleaned_all_client_id (l : list nat) (r : nat) :
  forall w,
    client_id (get_handler r (cleaned_all l w)) = client_id (get_handler r w).
Proof.
  induction l as [|h l IH]; intros w; [reflexivity|].
  now rewrite cleaned_all_cons, IH, cleaned_client_id.
Qed.

Lemma cleaned_all_sent (l : list nat) (r : nat) :
  forall w, sent_to r (cleaned_all l w) = sent_to r w.
Proof.
  induction l as [|h l IH]; intros w; [reflexivity|].
  now rewrite cleaned_all_cons, IH, cleaned_sent.
Qed.

Lemma cleaned_all_other (l : list nat) (r : nat) :
  forall w, ~ In r l -> get_handler r (cleaned_all l w) = get_handler r w.
Proof.
  induction l as [|h l IH]; intros w N; [reflexivity|].
  rewrite cleaned_all_cons, IH by (intros H; apply N; now right).
  apply cleaned_other. intros ->. apply N. now left.
Qed.

Lemma cleaned_stays_down (self r : nat) (w : server) :
  running (get_handler r w) = false
  /\ status (client_socket (get_handler r w)) = SockClosed ->
  running (get_handler r (cleaned self w)) = false
  /\ status (client_socket (get_handler r (cleaned self w))) = SockClosed.
Proof.
  intros H. destruct (Nat.eq_dec r self) as [->|N].
  - rewrite cleaned_handler. split; reflexivity.
  - now rewrite cleaned_other.
Qed.

Lemma cleaned_all_down (l : list nat) (r : nat) :
  forall w,
    In r l
    \/ (running (get_handler r w) = false
        /\ status (client_socket (get_handler r w)) = SockClosed) ->
    running (get_handler r (cleaned_all l w)) = false
    /\ status (client_socket (get_handler r (cleaned_all l w))) = SockClosed.
Proof.
  induction l as [|h l IH]; intros w H.
  - destruct H as [[]|H]. exact H.
  - rewrite cleaned_all_cons. apply IH.
    destruct H as [[->|H]|H].
    + right. rewrite cleaned_handler. split; reflexivity.
    + now left.
    + right. now apply cleaned_stays_down.
Qed.

Lemma cleaned_all_clients (l : list nat) :
  forall w k v,
    In (k, v) (clients (cleaned_all l w)) ->
    In (k, v) (clients w)
    /\ forall r, In r l -> client_id (get_handler r w) <> k.
Proof.
  induction l as [|h l IH]; intros w k v H.
  - split; [exact H | intros r []].
  - rewrite cleaned_all_cons in H. apply IH in H as [H1 H2].
    rewrite cleaned_clients in H1. apply in_dict_del in H1 as [H1 N].
    split; [exact H1|]. intros r [<-|Hr]; [congruence|].
    specialize (H2 r Hr). now rewrite cleaned_client_id in H2.
Qed.

(** X16. [stop] tears down every connection in the registry and raises
    nothing. When every entry of the registry holds a handler that bears the
    name it is entered under, the registry is empty afterwards. No handler
    is sent anything, and the handlers that were not in the registry are
    left as they were. *)
Theorem stop_empties_registry (w : server) :
  (forall k r, In (k, r) (clients w) -> client_id (get_handler r w) = k) ->
  exists w',
    stop w = (w', Ok tt)
    /\ clients w' = []
    /\ (forall k r, In (k, r) (clients w) ->
          running (get_handler r w') = false
          /\ status (client_socket (get_handler r w')) = SockClosed)
    /\ (forall r, sent_to r w' = sent_to r w)
    /\ (forall r, (forall k, ~ In (k, r) (clients w)) ->
          get_handler r w' = get_handler r w).
Proof.
  intros Hn. rewrite stop_cleaned_all. eexists. split; [reflexivity|].
  split.
  { destruct (clients (cleaned_all _ w)) as [|[k v] rest] eqn:E;
      [reflexivity|].
    exfalso.
    destruct (cleaned_all_clients (map snd (clients w)) w k v) as [H1 H2];
      [rewrite E; now left|].
    apply (H2 v); [|now apply Hn].
    apply in_map_iff. now exists (k, v). }
  split.
  { intros k r H. apply cleaned_all_down. left.
    apply in_map_iff. now exists (k, r). }
  split; [intros r; apply cleaned_all_sent|].
  intros r H. apply cleaned_all_other. intros Hr.
  apply in_map_iff in Hr as ([k r'] & E & Hin). cbn in E. subst r'.
  exact (H k Hin).
Qed.

Lemma stop_empties_registry_witness :
  exists w',
    stop (three_clients broken_socket) = (w', Ok tt)
    /\ clients w' = []
    /\ (forall k r, In (k, r) (clients (three_clients broken_socket)) ->
          running (get_handler r w') = false
          /\ status (client_socket (get_handler r w')) = SockClosed)
    /\ (forall r, sent_to r w' = sent_to r (three_clients broken_socket))
    /\ (forall r,
          (forall k, ~ In (k, r) (clients (three_clients broken_socket))) ->
          get_handler r w' = get_handler r (three_clients broken_socket)).
Proof.
  apply (stop_empties_registry (three_clients broken_socket)).
  intros k r [H|[H|[H|[]]]]; injection H as <- <-; reflexivity.
Defined.

(** ** The registry invariant *)

(** A change that keeps the registry, the number of handlers, their names
    and whether they run, and closes no socket keeps [registry_ok]. *)
Lemma registry_ok_same (w w' : server) :
  clients w' = clients w ->
  length (handlers w') = length (handlers w) ->
  (forall r,
     client_id (get_handler r w') = client_id (get_handler r w)
     /\ running (get_handler r w') = running (get_handler r w)
     /\ (status (client_socket (get_handler r w)) <> SockClosed ->
         status (client_socket (get_handler r w')) <> SockClosed)) ->
  registry_ok w -> registry_ok w'.
Proof.
  intros Hc Hl Hh [Hd He]. split; rewrite Hc; [exact Hd|].
  intros k r Hin. destruct (He k r Hin) as (H1 & H2 & H3 & H4).
  destruct (Hh r) as (G1 & G2 & G3).
  rewrite Hl, G1, G2. auto.
Qed.

Lemma registry_ok_set_handler (self : nat) (h : handler) (w : server) :
  client_id h = client_id (get_handler self w) ->
  running h = running (get_handler self w) ->
  (status (client_socket (get_handler self w)) <> SockClosed ->
   status (client_socket h) <> SockClosed) ->
  registry_ok w -> registry_ok (set_handler self h w).
Proof.
  intros H1 H2 H3. apply registry_ok_same; [reflexivity | |].
  - cbn. apply list_update_length.
  - intros r. destruct (Nat.eq_dec r self) as [->|N].
    + destruct (Nat.lt_ge_cases self (length (handlers w))) as [L|L].
      * rewrite get_set_handler_same by exact L. auto.
      * rewrite set_handler_beyond by exact L. auto.
    + rewrite get_set_handler_other by exact N. auto.
Qed.

Lemma registry_ok_push (r : nat) (frame : bytes) (w : server) :
  registry_ok w -> registry_ok (push r frame w).
Proof.
  apply registry_ok_set_handler; try reflexivity. intros _. discriminate.
Qed.

Lemma registry_ok_with_buffer (r : nat) (b : bytes) (w : server) :
  registry_ok w -> registry_ok (with_buffer r b w).
Proof. apply registry_ok_set_handler; auto. Qed.

Lemma registry_ok_peer_gone (r : nat) (w : server) :
  registry_ok w -> registry_ok (peer_gone r w).
Proof.
  unfold peer_gone.
  destruct (status (client_socket (get_handler r w))) eqn:E; try easy;
    apply registry_ok_set_handler; try reflexivity; intros _; discriminate.
Qed.

Lemma registry_ok_cleaned (self : nat) (w : server) :
  registry_ok w -> registry_ok (cleaned self w).
Proof.
  intros [Hd He]. split.
  - rewrite cleaned_clients. now apply keys_distinct_del.
  - intros k r Hin. rewrite cleaned_clients in Hin.
    apply in_dict_del in Hin as [Hin N].
    destruct (He k r Hin) as (H1 & H2 & H3 & H4).
    assert (Hr : r <> self) by (intros ->; congruence).
    rewrite cleaned_length, cleaned_other by exact Hr. auto.
Qed.

Lemma registry_ok_cleaned_all (l : list nat) :
  forall w, registry_ok w -> registry_ok (cleaned_all l w).
Proof.
  induction l as [|h l IH]; intros w H; [exact H|].
  rewrite cleaned_all_cons. now apply IH, registry_ok_cleaned.
Qed.

Lemma keeps_registry_ret {A} (a : A) : keeps_registry (ret a).
Proof. intros w H. exact H. Qed.

Lemma keeps_registry_bind {A B} (m : M A) (k : A -> M B) :
  keeps_registry m -> (forall a, keeps_registry (k a)) ->
  keeps_registry (bind m k).
Proof.
  intros Hm Hk w H. unfold bind. specialize (Hm w H).
  destruct (m w) as [w' [a|e]]; cbn [fst] in *; [|exact Hm].
  now apply Hk.
Qed.

Lemma keeps_registry_try_except {A} (m : M A) (h : exn -> M A) :
  keeps_registry m -> (forall e, keeps_registry (h e)) ->
  keeps_registry (try_except m h).
Proof.
  intros Hm Hh w H. unfold try_except. specialize (Hm w H).
  destruct (m w) as [w' [a|e]]; cbn [fst] in *; [exact Hm|].
  now apply Hh.
Qed.

Lemma keeps_registry_try_finally {A} (m : M A) (f : M unit) :
  keeps_registry m -> keeps_registry f -> keeps_registry (try_finally m f).
Proof.
  intros Hm Hf w H. unfold try_finally. specialize (Hm w H).
  destruct (m w) as [w' r]; cbn [fst] in *. specialize (Hf w' Hm).
  destruct (f w') as [w'' [[]|e]]; exact Hf.
Qed.

Lemma keeps_registry_get (self : nat) : keeps_registry (get self).
Proof. intros w H. exact H. Qed.

Lemma keeps_registry_now_isoformat : keeps_registry now_isoformat.
Proof. intros w H. rewrite now_isoformat_tick. exact H. Qed.

Lemma keeps_registry_datetime_now : keeps_registry datetime_now.
Proof. intros w H. exact H. Qed.

Lemma keeps_registry_set_buffer (self : nat) (b : bytes) :
  keeps_registry (set_buffer self b).
Proof.
  intros w H. rewrite set_buffer_with. now apply registry_ok_with_buffer.
Qed.

Lemma keeps_registry_cleanup (self : nat) : keeps_registry (_cleanup self).
Proof.
  intros w H. rewrite cleanup_cleaned. now apply registry_ok_cleaned.
Qed.

Lemma keeps_registry_send_message (self : nat) (m : pyval) :
  keeps_registry (send_message self m).
Proof.
  intros w H.
  destruct (encode_message m) as [frame|e] eqn:E.
  - destruct (status (client_socket (get_handler self w))) eqn:Es.
    + rewrite (send_message_open self m frame w E Es).
      now apply registry_ok_push.
    + rewrite send_message_failed
        by (right; unfold is_open; rewrite Es; discriminate).
      now apply registry_ok_cleaned.
    + rewrite send_message_failed
        by (right; unfold is_open; rewrite Es; discriminate).
      now apply registry_ok_cleaned.
  - rewrite send_message_failed by (left; now exists e).
    now apply registry_ok_cleaned.
Qed.

Lemma keeps_registry_for_items (items : list (str * nat)) (used : nat)
    (body : str -> nat -> M unit) :
  (forall k h, keeps_registry (body k h)) ->
  keeps_registry (for_items items used body).
Proof.
  intros Hb. induction items as [|[k h] rest IH]; intros w H;
    cbn [for_items]; destruct (negb _); try exact H.
  apply (keeps_registry_bind (body k h) (fun _ => for_items rest used body));
    [apply Hb | intros; exact IH | exact H].
Qed.

Lemma keeps_registry_broadcast_message (m : pyval) (e : option str) :
  keeps_registry (broadcast_message m e).
Proof.
  unfold broadcast_message. apply keeps_registry_bind.
  { intros w H.
    apply (keeps_registry_for_items (clients w) (length (clients w)));
      [|exact H].
    intros k h. destruct (differs k e);
      [apply keeps_registry_send_message | apply keeps_registry_ret]. }
  intros _. apply keeps_registry_bind; [intros w H; exact H|]. intros _.
  destruct (truthy e); [intros w H; exact H | apply keeps_registry_ret].
Qed.

Lemma keeps_registry_get_stats : keeps_registry get_stats.
Proof. intros w H. rewrite get_stats_tick. exact H. Qed.

Lemma keeps_registry_process_message (self : nat) (m : pyval) :
  keeps_registry (_process_message self m).
Proof.
  assert (K : forall f : pyval -> pyval,
             keeps_registry (bind now_isoformat
                               (fun t => send_message self (f t)))).
  { intros f. apply keeps_registry_bind; [apply keeps_registry_now_isoformat|].
    intros; apply keeps_registry_send_message. }
  destruct m as [| | | | | |d];
    try apply (K (fun t => PyDict
                   [(lit "type", PyStr (lit "echo"));
                    (lit "original_text", _);
                    (lit "timestamp", t);
                    (lit "from_server", PyBool true)])).
  cbn [_process_message].
  repeat match goal with |- keeps_registry (if ?c then _ else _) =>
           destruct c end.
  - unfold _handle_ping.
    apply keeps_registry_bind; [apply keeps_registry_now_isoformat|].
    intros t. apply keeps_registry_bind; [apply keeps_registry_get|].
    intros h. apply keeps_registry_send_message.
  - unfold _handle_echo.
    apply keeps_registry_bind; [apply keeps_registry_now_isoformat|].
    intros t. apply keeps_registry_send_message.
  - unfold _handle_broadcast.
    apply keeps_registry_bind; [apply keeps_registry_get|]. intros h.
    apply keeps_registry_bind; [apply keeps_registry_now_isoformat|].
    intros t.
    apply keeps_registry_bind; [apply keeps_registry_broadcast_message|].
    intros _. apply keeps_registry_bind; [intros w H; exact H|]. intros n.
    apply keeps_registry_bind; [apply keeps_registry_now_isoformat|].
    intros t'. apply keeps_registry_send_message.
  - unfold _handle_get_stats.
    apply keeps_registry_bind; [apply keeps_registry_get_stats|].
    intros s. apply keeps_registry_send_message.
  - apply (K (fun t => PyDict
                [(lit "type", PyStr (lit "response"));
                 (lit "original_message", PyDict d);
                 (lit "timestamp", t);
                 (lit "from_server", PyBool true)])).
Qed.

Lemma keeps_registry_drain (self fuel : nat) :
  keeps_registry (drain fuel self).
Proof.
  induction fuel as [|fuel IH]; cbn [drain]; [apply keeps_registry_ret|].
  apply keeps_registry_bind; [apply keeps_registry_get|]. intros h.
  apply keeps_registry_bind; [intros w H; exact H|]. intros r.
  apply keeps_registry_bind; [apply keeps_registry_set_buffer|]. intros _.
  assert (K : keeps_registry
                (bind (_process_message self (fst r))
                   (fun _ => drain fuel self))).
  { apply keeps_registry_bind; [apply keeps_registry_process_message|].
    intros _. exact IH. }
  destruct (fst r); try exact K. apply keeps_registry_ret.
Qed.

Lemma keeps_registry_receive (self : nat) (chunks : list bytes) :
  keeps_registry (receive chunks self).
Proof.
  induction chunks as [|data rest IH]; cbn [receive];
    [apply keeps_registry_ret|].
  apply keeps_registry_bind; [apply keeps_registry_get|]. intros h.
  destruct (negb (running h)); [apply keeps_registry_ret|].
  destruct data; [apply keeps_registry_ret|].
  apply keeps_registry_bind; [apply keeps_registry_set_buffer|]. intros _.
  apply keeps_registry_bind; [apply keeps_registry_drain|]. intros _.
  exact IH.
Qed.

Lemma keeps_registry_handle_client (self : nat) (chunks : list bytes) :
  keeps_registry (_handle_client self chunks).
Proof.
  unfold _handle_client. apply keeps_registry_try_finally.
  - apply keeps_registry_try_except; [apply keeps_registry_receive|].
    intros; apply keeps_registry_ret.
  - apply keeps_registry_cleanup.
Qed.

Lemma keeps_registry_start (self : nat) : keeps_registry (start self).
Proof.
  unfold start.
  apply keeps_registry_bind; [apply keeps_registry_get|]. intros h.
  apply keeps_registry_bind; [apply keeps_registry_now_isoformat|].
  intros t. apply keeps_registry_send_message.
Qed.

Lemma keeps_registry_stop : keeps_registry stop.
Proof.
  intros w H. rewrite stop_cleaned_all. now apply registry_ok_cleaned_all.
Qed.

Lemma registry_ok_accept (s : socket) (host : str) (port : Z) (w : server) :
  status s <> SockClosed ->
  registry_ok w -> registry_ok (fst (accept s host port w)).
Proof.
  intros Hs [Hd He]. rewrite accept_start.
  set (id := address_id host port). set (self := length (handlers w)).
  set (h := mk_handler id true s []).
  set (w2 := set_clients _ _).
  assert (Hh : get_handler self w2 = h)
    by (unfold w2, self; apply (get_handler_app_new (handlers w) h)).
  assert (H2 : registry_ok w2).
  { split.
    - unfold w2. cbn [clients set_clients]. now apply keys_distinct_set.
    - intros k r Hin. unfold w2 in Hin. cbn [clients set_clients] in Hin.
      assert (L : length (handlers w2) = S self)
        by (unfold w2; cbn; rewrite length_app; cbn; unfold self; lia).
      rewrite L.
      apply in_dict_set_distinct in Hin as [[-> ->]|[N Hin]]; [| |exact Hd].
      + rewrite Hh. cbn. repeat split; [lia | exact Hs].
      + destruct (He k r Hin) as (H1 & H3 & H4 & H5).
        assert (G : get_handler r w2 = get_handler r w).
        { unfold w2.
          change (get_handler r (set_clients ?c ?x)) with (get_handler r x).
          now rewrite get_handler_app_old. }
        rewrite G. fold self in H1. repeat split; try assumption. lia. }
  apply (keeps_registry_bind (start self) (fun _ => ret self));
    [apply keeps_registry_start | intros; apply keeps_registry_ret
    | exact H2].
Qed.

(** X17. In every state the server reaches, the registry holds one entry per
    name, and every entry holds a handler that bears the name, is running,
    and whose socket has not been closed; no handler is entered twice. *)
Theorem registry_invariant (w : server) :
  reachable w ->
  registry_ok w /\ NoDup (map snd (clients w)).
Proof.
  intros R.
  assert (H : registry_ok w).
  { induction R.
    - split; [reflexivity | intros k r []].
    - now apply registry_ok_accept.
    - now apply keeps_registry_handle_client.
    - now apply registry_ok_peer_gone.
    - now apply keeps_registry_broadcast_message.
    - now apply keeps_registry_stop. }
  split; [exact H|]. clear R. destruct H as [Hd He].
  induction (clients w) as [|[k r] rest IH]; [constructor|].
  cbn [keys_distinct] in Hd. apply andb_true_iff in Hd as [H1 H2].
  apply negb_true_iff in H1. cbn [map snd]. constructor.
  - intros Hin. apply in_map_iff in Hin as ([k' r'] & E & Hin).
    cbn in E. subst r'.
    destruct (He k r (or_introl eq_refl)) as (_ & Hk & _).
    destruct (He k' r (or_intror Hin)) as (_ & Hk' & _).
    assert (dict_mem k rest = true)
      by (apply dict_mem_in; exists r; congruence).
    congruence.
  - apply IH; [exact H2|]. intros k' r' Hin. apply He. now right.
Qed.

(** ** A broadcast that meets a dead socket *)

Lemma length_dict_del {V} (k : str) (d : list (str * V)) :
  dict_mem k d = true -> (length (dict_del k d) < length d)%nat.
Proof.
  unfold dict_mem.
  assert (Hle : forall d : list (str * V),
             (length (dict_del k d) <= length d)%nat).
  { induction d0 as [|[k0 v0] r IH]; cbn [dict_del length]; [lia|].
    destruct (str_eqb k k0); cbn [length]; lia. }
  induction d as [|[k0 v0] r IH]; cbn [dict_get dict_del length];
    [discriminate|].
  destruct (str_eqb k k0); cbn [length].
  - intros _. specialize (Hle r). lia.
  - intros H. specialize (IH H). lia.
Qed.

Lemma for_items_check (items : list (str * nat)) (used : nat)
    (body : str -> nat -> M unit) (w : server) :
  length (clients w) <> used ->
  for_items items used body w = (w, Raise RuntimeError).
Proof.
  intros N. apply Nat.eqb_neq in N.
  destruct items as [|[k r] rest]; cbn [for_items]; now rewrite N.
Qed.

Lemma for_items_fails (m : pyval) (frame : bytes) (e : option str)
    (used : nat) (k : str) (r : nat) (after before : list (str * nat)) :
  encode_message m = Ok frame ->
  differs k e = true ->
  forall w,
    length (clients w) = used ->
    recipients_open before e w ->
    ~ is_open r w ->
    dict_mem (client_id (get_handler r w)) (clients w) = true ->
    for_items (before ++ (k, r) :: after) used
      (fun client_id client_handler =>
         if differs client_id e then send_message client_handler m
         else ret tt) w
    = (cleaned r (deliver frame before e w), Raise RuntimeError).
Proof.
  intros E Hk. induction before as [|[k0 r0] rest IH];
    intros w Hu Ho Hr Hm; cbn [app for_items deliver];
    rewrite Hu, Nat.eqb_refl; cbn [negb]; unfold bind.
  - rewrite Hk, send_message_failed by (now right).
    apply for_items_check. rewrite cleaned_clients.
    pose proof (length_dict_del _ _ Hm). lia.
  - destruct (differs k0 e) eqn:Ed.
    + assert (Hr0 : is_open r0 w) by (apply (Ho k0 r0); [now left | exact Ed]).
      assert (N : r <> r0) by (intros ->; contradiction).
      rewrite (send_message_open r0 m frame w E Hr0).
      apply IH.
      * now rewrite push_clients.
      * apply recipients_open_push; [exact Hr0|].
        now apply recipients_open_tail in Ho.
      * unfold is_open. now rewrite push_other.
      * now rewrite push_other, push_clients.
    + unfold ret. apply IH; try assumption.
      now apply recipients_open_tail in Ho.
Qed.

Lemma deliver_app_other (frame : bytes) (e : option str) (r : nat)
    (items : list (str * nat)) (w : server) :
  ~ In r (map snd items) ->
  get_handler r (deliver frame items e w) = get_handler r w.
Proof.
  intros N. apply deliver_other. intros k Hin. elim N.
  apply in_map_iff. now exists (k, r).
Qed.

(** X18. A broadcast that comes to a recipient whose socket does not take
    the frame stops there: the failed send deletes the recipient from the
    registry the loop is iterating over, and the loop raises [RuntimeError].
    The recipients before it got the frame, those after it get nothing, and
    the message count is not updated. *)
Theorem broadcast_raises_on_dead_recipient (m : pyval) (frame : bytes)
    (e : option str) (k : str) (r : nat) (before after : list (str * nat))
    (w : server) :
  encode_message m = Ok frame ->
  clients w = before ++ (k, r) :: after ->
  NoDup (map snd (clients w)) ->
  client_id (get_handler r w) = k ->
  differs k e = true ->
  ~ is_open r w ->
  recipients_open before e w ->
  exists w',
    broadcast_message m e w = (w', Raise RuntimeError)
    /\ torn_down r w'
    /\ (forall k' r', In (k', r') before -> differs k' e = true ->
          sent_to r' w' = sent_to r' w ++ [frame])
    /\ (forall k' r', In (k', r') after -> sent_to r' w' = sent_to r' w)
    /\ message_count w' = message_count w.
Proof.
  intros E Hc Hn Hid Hk Hr Ho.
  assert (Hm : dict_mem (client_id (get_handler r w)) (clients w) = true).
  { rewrite Hid. apply dict_mem_in. exists r. rewrite Hc.
    apply in_or_app. right. now left. }
  rewrite Hc, map_app in Hn. cbn [map snd] in Hn.
  pose proof (NoDup_remove_2 _ _ _ Hn) as Hnr.
  pose proof (NoDup_remove_1 _ _ _ Hn) as Hn'.
  exists (cleaned r (deliver frame before e w)).
  split.
  { unfold broadcast_message, bind. rewrite Hc.
    rewrite (for_items_fails m frame e _ k r after before E Hk w);
      try assumption; [reflexivity | now rewrite Hc].  }
  split; [apply cleaned_torn_down|].
  split; [|split].
  - intros k' r' Hin Hd. rewrite cleaned_sent.
    apply (deliver_recipient frame e before k' r' w Ho); try assumption.
    now apply NoDup_app_remove_r in Hn'.
  - intros k' r' Hin. rewrite cleaned_sent. unfold sent_to.
    rewrite deliver_app_other; [reflexivity|].
    intros Hb. apply NoDup_app_remove_l in Hn as Hn2.
    assert (Ha : In r' (map snd after))
      by (apply in_map_iff; now exists (k', r')).
    clear - Hn' Hb Ha. induction (map snd before) as [|x l IH].
    + contradiction.
    + cbn [app] in Hn'. inversion Hn' as [|? ? Hx Hl]; subst.
      destruct Hb as [->|Hb]; [|now apply IH].
      apply Hx. apply in_or_app. now right.
  - rewrite cleaned_message_count.
    now destruct (deliver_frame frame e before w) as (_ & -> & _).
Qed.

Lemma broadcast_raises_on_dead_recipient_witness :
  exists w',
    broadcast_message sample_ping (Some id_a) (three_clients broken_socket)
    = (w', Raise RuntimeError)
    /\ torn_down 1 w'
    /\ (forall k' r', In (k', r') [(id_a, 0%nat)] ->
          differs k' (Some id_a) = true ->
          sent_to r' w'
          = sent_to r' (three_clients broken_socket) ++ [sample_ping_frame])
    /\ (forall k' r', In (k', r') [(id_c, 2%nat)] ->
          sent_to r' w' = sent_to r' (three_clients broken_socket))
    /\ message_count w' = message_count (three_clients broken_socket).
Proof.
  apply (broadcast_raises_on_dead_recipient sample_ping sample_ping_frame
           (Some id_a) id_b 1 [(id_a, 0%nat)] [(id_c, 2%nat)]
           (three_clients broken_socket));
    try (vm_compute; reflexivity).
  - repeat constructor; cbn; intuition discriminate.
  - vm_compute. discriminate.
  - intros k' r' [H|[]] Hd. injection H as <- <-. discriminate Hd.
Defined.

(** X19. When every socket in the registry takes the frame, a broadcast that
    excludes nobody sends it once to every handler in the registry and
    raises the message count by the size of the registry. *)
Theorem broadcast_reaches_everyone (m : pyval) (frame : bytes) (w : server) :
  encode_message m = Ok frame ->
  NoDup (map snd (clients w)) ->
  (forall k r, In (k, r) (clients w) -> is_open r w) ->
  exists w',
    broadcast_message m None w = (w', Ok tt)
    /\ (forall k r, In (k, r) (clients w) ->
          sent_to r w' = sent_to r w ++ [frame])
    /\ (forall r, ~ In r (map snd (clients w)) ->
          get_handler r w' = get_handler r w)
    /\ clients w' = clients w
    /\ message_count w' = message_count w + len (clients w).
Proof.
  intros E Hn Ho.
  assert (Ho' : recipients_open (clients w) None w)
    by (intros k r Hin _; now apply (Ho k r)).
  rewrite (broadcast_message_all_open m frame None w E Ho').
  eexists. split; [reflexivity|].
  destruct (deliver_frame frame None (clients w) w) as (Hc & Hm & _).
  split; [|split; [|split]].
  - intros k r Hin.
    now apply (deliver_recipient frame None (clients w) k r w Ho' Hn Hin).
  - intros r Hr. now apply (deliver_app_other frame None r (clients w) w).
  - exact Hc.
  - cbn [message_count set_message_count truthy]. lia.
Qed.

Lemma broadcast_reaches_everyone_witness :
  exists w',
    broadcast_message sample_ping None (three_clients open_socket)
    = (w', Ok tt)
    /\ (forall k r, In (k, r) (clients (three_clients open_socket)) ->
          sent_to r w'
          = sent_to r (three_clients open_socket) ++ [sample_ping_frame])
    /\ (forall r, ~ In r (map snd (clients (three_clients open_socket))) ->
          get_handler r w' = get_handler r (three_clients open_socket))
    /\ clients w' = clients (three_clients open_socket)
    /\ message_count w'
       = message_count (three_clients open_socket)
         + len (clients (three_clients open_socket)).
Proof.
  apply (broadcast_reaches_everyone sample_ping sample_ping_frame
           (three_clients open_socket)).
  - vm_compute. reflexivity.
  - repeat constructor; cbn; intuition discriminate.
  - intros k r [H|[H|[H|[]]]]; injection H as <- <-; reflexivity.
Defined.

(* ================================================================== *)
(** * More properties of the client *)
(* ================================================================== *)

Lemma dict_get_update {V} (data : list (str * V)) :
  forall (message : list (str * V)) (k : str),
    keys_distinct data = true ->
    dict_get k (TCPClientRest.dict_update message data)
    = match dict_get k data with
      | Some v => Some v
      | None => dict_get k message
      end.
Proof.
  unfold TCPClientRest.dict_update.
  induction data as [|[k0 v0] rest IH]; intros message k Hd; [reflexivity|].
  cbn [keys_distinct] in Hd. apply andb_true_iff in Hd as [H1 H2].
  apply negb_true_iff in H1.
  cbn [fold_left fst snd dict_get]. rewrite IH by exact H2.
  destruct (str_eqb k k0) eqn:E.
  - apply str_eqb_eq in E as ->. unfold dict_mem in H1.
    destruct (dict_get k0 rest); [discriminate|].
    apply dict_get_set_same.
  - apply str_eqb_neq in E. destruct (dict_get k rest); [reflexivity|].
    now apply dict_get_set_other.
Qed.

Lemma keys_distinct_update {V} (data : list (str * V)) :
  forall message : list (str * V),
    keys_distinct message = true ->
    keys_distinct (TCPClientRest.dict_update message data) = true.
Proof.
  unfold TCPClientRest.dict_update.
  induction data as [|[k0 v0] rest IH]; intros message H; [exact H|].
  cbn [fold_left fst snd]. now apply IH, keys_distinct_set.
Qed.

(** X20. The message [send_custom_message] sends is a dictionary that holds
    every entry of [data], and [type] and [timestamp] as given unless [data]
    has an entry of that name: [data] wins. *)
Theorem custom_message_fields (msg_type : pyval)
    (data : list (str * pyval)) (now : datetime) (k : str)
    (c : TCPClient.client) :
  keys_distinct data = true ->
  let message := TCPClientRest.custom_message msg_type (Some data) now in
  TCPClientRest.send_custom_message msg_type (Some data) now c
  = TCPClient.send_message (PyDict message) c
  /\ keys_distinct message = true
  /\ dict_get k message
     = match dict_get k data with
       | Some v => Some v
       | None =>
           if str_eqb k (lit "type") then Some msg_type
           else if str_eqb k (lit "timestamp")
                then Some (PyStr (isoformat now))
                else None
       end.
Proof.
  intros Hd message. split; [reflexivity|].
  unfold message, TCPClientRest.custom_message.
  destruct data as [|kv rest].
  - split; [reflexivity|]. reflexivity.
  - split; [now apply keys_distinct_update|].
    now rewrite dict_get_update.
Qed.

Lemma custom_message_fields_witness :
  let data := [(lit "type", PyStr (lit "ping")); (lit "test_id", PyInt 123)] in
  let message :=
    TCPClientRest.custom_message (PyStr (lit "custom_test")) (Some data) noon in
  TCPClientRest.send_custom_message (PyStr (lit "custom_test")) (Some data)
    noon connected_client
  = TCPClient.send_message (PyDict message) connected_client
  /\ keys_distinct message = true
  /\ dict_get (lit "type") message = Some (PyStr (lit "ping")).
Proof.
  exact (custom_message_fields (PyStr (lit "custom_test"))
           [(lit "type", PyStr (lit "ping")); (lit "test_id", PyInt 123)]
           noon (lit "type") connected_client eq_refl).
Defined.

(** X21. After [disconnect] the client is not connected and its socket, if
    it had one, is closed; a send returns [False] and writes nothing; a
    second [disconnect] changes nothing. *)
Theorem disconnect_then_send (c : TCPClient.client) (m : pyval) :
  let c' := TCPClient.disconnect c in
  TCPClient.connected c' = false
  /\ (forall s, TCPClient.sock c' = Some s -> status s = SockClosed)
  /\ TCPClient.written c' = TCPClient.written c
  /\ TCPClient.send_message m c' = (c', false)
  /\ TCPClient.disconnect c' = c'.
Proof.
  destruct c as [h p [s|] conn b]; cbn; repeat split; intros s' H;
    now inversion H.
Qed.

(** X22. A send that fails, because the message is neither a dictionary nor
    a text, or cannot be encoded, or because the socket does not take it,
    returns [False] and leaves the client as it was: still marked connected,
    nothing written. *)
Theorem failed_send_returns_false (c : TCPClient.client) (m : pyval) :
  TCPClient.connected c = true ->
  (exists e, encode_message m = Raise e)
  \/ (forall s, TCPClient.sock c = Some s -> status s <> SockOpen) ->
  TCPClient.send_message m c = (c, false).
Proof.
  intros Hc H. unfold TCPClient.send_message. rewrite Hc. cbn [negb].
  destruct H as [[e E]|H].
  - now rewrite E.
  - destruct (encode_message m) as [frame|e]; [|reflexivity].
    cbn [rbind]. unfold TCPClient.sock_send.
    destruct (TCPClient.sock c) as [s|] eqn:Es; [|reflexivity].
    specialize (H s eq_refl). unfold socket_send.
    destruct (status s); [contradiction | reflexivity | reflexivity].
Qed.

Lemma failed_send_returns_false_witness :
  TCPClient.send_message (PyInt 123) connected_client
  = (connected_client, false).
Proof.
  apply (failed_send_returns_false connected_client (PyInt 123) eq_refl).
  left. exists AttributeError. reflexivity.
Defined.

(** ** The receiving loop of the client *)

Lemma app_eq_prefix {A} (b tail f x : list A) :
  b ++ tail = f ++ x -> (length b < length f)%nat ->
  b = firstn (length b) f.
Proof.
  intros E L.
  assert (H : firstn (length b) (b ++ tail) = firstn (length b) (f ++ x))
    by now rewrite E.
  rewrite !firstn_app, Nat.sub_diag, firstn_all in H.
  replace (length b - length f)%nat with 0%nat in H by lia.
  cbn [firstn] in H. now rewrite !List.app_nil_r in H.
Qed.

Lemma app_eq_suffix {A} (b tail f x : list A) :
  b ++ tail = f ++ x -> (length f <= length b)%nat ->
  exists rest, b = f ++ rest /\ rest ++ tail = x.
Proof.
  intros E L. exists (skipn (length f) b).
  assert (Hf : firstn (length f) b = f).
  { assert (H : firstn (length f) (b ++ tail) = firstn (length f) (f ++ x))
      by now rewrite E.
    rewrite !firstn_app, Nat.sub_diag, firstn_all in H.
    replace (length f - length b)%nat with 0%nat in H by lia.
    cbn [firstn] in H. now rewrite !List.app_nil_r in H. }
  assert (Hb : b = f ++ skipn (length f) b).
  { rewrite <- Hf at 1. now rewrite firstn_skipn. }
  split; [exact Hb|].
  apply (app_inv_head f). rewrite <- E. rewrite Hb at 2.
  now rewrite <- app_assoc.
Qed.

Lemma client_drain_S (fuel : nat) (c : TCPClient.client)
    (delivered : list pyval) :
  TCPClientRest.drain (S fuel) c delivered
  = match decode_message (TCPClient.buffer c) with
    | Raise e => (c, delivered, Raise e)
    | Ok (message, rest) =>
        match message with
        | PyNone => (TCPClientRest.set_buffer rest c, delivered, Ok tt)
        | _ => TCPClientRest.drain fuel (TCPClientRest.set_buffer rest c)
                 (delivered ++ [message])
        end
    end.
Proof. reflexivity. Qed.

Lemma client_set_buffer_twice (b b' : bytes) (c : TCPClient.client) :
  TCPClientRest.set_buffer b (TCPClientRest.set_buffer b' c)
  = TCPClientRest.set_buffer b c.
Proof. reflexivity. Qed.

(** The inner loop on a buffer that holds the beginning of a stream of
    frames: it delivers the messages whose frames are complete, in order,
    and keeps the beginning of the next frame. *)
Lemma client_drain_stream (ms : list pyval) (fs : list bytes) :
  frames_of ms fs ->
  forall (fuel : nat) (c : TCPClient.client) (delivered : list pyval)
         (tail : bytes),
    TCPClient.buffer c ++ tail = concat fs ->
    (length (TCPClient.buffer c) < fuel)%nat ->
    exists ms1 ms2 fs2 b',
      ms = ms1 ++ ms2
      /\ frames_of ms2 fs2
      /\ b' ++ tail = concat fs2
      /\ pending fs2 b'
      /\ TCPClientRest.drain fuel c delivered
         = (TCPClientRest.set_buffer b' c, delivered ++ ms1, Ok tt).
Proof.
  induction 1 as [|m f ms fs [Hm Hf] Hrest IH];
    intros fuel c delivered tail E L.
  - cbn [concat] in E. apply app_eq_nil in E as [Eb ->].
    exists [], [], [], [].
    repeat split; [constructor|].
    destruct fuel as [|fuel]; [lia|].
    rewrite client_drain_S, Eb, List.app_nil_r. reflexivity.
  - cbn [concat] in E.
    destruct fuel as [|fuel]; [lia|]. rewrite client_drain_S.
    destruct (Nat.lt_ge_cases (length (TCPClient.buffer c)) (length f))
      as [Hs|Hs].
    + (* the first frame is not complete *)
      pose proof (app_eq_prefix _ _ _ _ E Hs) as Eb.
      exists [], (m :: ms), (f :: fs), (TCPClient.buffer c).
      cbn [concat pending].
      repeat split; [now constructor | exact E | |].
      * exists (length (TCPClient.buffer c)). now split.
      * rewrite List.app_nil_r. rewrite Eb at 1.
        destruct (encode_message_frame m f Hf)
          as (text & payload & header & _ & _ & Eh & ->).
        rewrite (decode_message_short payload header _ Eh Hs).
        rewrite <- Eb. now destruct c.
    + (* the first frame is complete *)
      destruct (app_eq_suffix _ _ _ _ E Hs) as (rest & Eb & Er).
      rewrite Eb, (decode_message_encoded m f rest Hm Hf).
      pose proof (encode_message_length m f Hf) as L4.
      assert (Lr : (length rest < fuel)%nat).
      { rewrite Eb, length_app in L. lia. }
      destruct (IH fuel (TCPClientRest.set_buffer rest c)
                  (delivered ++ [m]) tail Er Lr)
        as (ms1 & ms2 & fs2 & b' & -> & H2 & E2 & P2 & D2).
      exists (m :: ms1), ms2, fs2, b'.
      repeat split; try assumption.
      rewrite client_set_buffer_twice, <- app_assoc in D2. cbn [app] in D2.
      rewrite <- D2. destruct m; try reflexivity. now elim Hm.
Qed.

Lemma pending_complete (fs : list bytes) (b : bytes) :
  pending fs b -> b = concat fs -> fs = [] /\ b = [].
Proof.
  destruct fs as [|f fs]; cbn [pending concat]; [now intros ->|].
  intros (k & Hk & ->) E. exfalso.
  apply (f_equal (@length _)) in E.
  rewrite length_firstn, length_app in E. lia.
Qed.

Lemma client_receive_stream (chunks : list bytes) :
  forall (ms : list pyval) (fs : list bytes) (c : TCPClient.client)
         (delivered : list pyval),
    frames_of ms fs ->
    TCPClient.connected c = true ->
    pending fs (TCPClient.buffer c) ->
    Forall (fun data => data <> []) chunks ->
    TCPClient.buffer c ++ concat chunks = concat fs ->
    TCPClientRest.receive chunks c delivered
    = (TCPClientRest.set_buffer [] c, delivered ++ ms, Ok tt).
Proof.
  induction chunks as [|data rest IH];
    intros ms fs c delivered Hfs Hc Hp Hne E.
  - cbn [concat] in E. rewrite List.app_nil_r in E.
    destruct (pending_complete fs _ Hp E) as [-> Eb].
    inversion Hfs; subst. cbn [TCPClientRest.receive].
    rewrite List.app_nil_r. destruct c as [h p s conn b].
    cbn in Eb. now subst b.
  - inversion Hne as [|? ? Hd Hne']; subst.
    cbn [TCPClientRest.receive]. rewrite Hc. cbn [negb].
    destruct data as [|x data]; [congruence|].
    set (d := x :: data) in *. cbv zeta.
    cbn [concat] in E. rewrite app_assoc in E.
    destruct (client_drain_stream ms fs Hfs
                (S (length (TCPClient.buffer
                              (TCPClientRest.set_buffer
                                 (TCPClient.buffer c ++ d) c))))
                (TCPClientRest.set_buffer (TCPClient.buffer c ++ d) c)
                delivered (concat rest) E (Nat.lt_succ_diag_r _))
      as (ms1 & ms2 & fs2 & b' & -> & H2 & E2 & P2 & D2).
    rewrite D2. rewrite client_set_buffer_twice.
    rewrite (IH ms2 fs2 (TCPClientRest.set_buffer b' c) (delivered ++ ms1)
               H2 Hc P2 Hne' E2).
    now rewrite client_set_buffer_twice, app_assoc.
Qed.

Lemma client_receive_from_empty (ms : list pyval) (fs chunks : list bytes)
    (c : TCPClient.client) (delivered : list pyval) :
  frames_of ms fs ->
  TCPClient.connected c = true ->
  TCPClient.buffer c = [] ->
  Forall (fun data => data <> []) chunks ->
  concat chunks = concat fs ->
  TCPClientRest.receive chunks c delivered
  = (TCPClientRest.set_buffer [] c, delivered ++ ms, Ok tt).
Proof.
  intros Hfs Hc Hb Hne E.
  apply (client_receive_stream chunks ms fs c delivered Hfs Hc);
    [| exact Hne | now rewrite Hb].
  rewrite Hb. destruct fs as [|f fs]; [reflexivity|].
  exists 0%nat. split; [|reflexivity].
  inversion Hfs as [|? ? ? ? [_ Hf] _]; subst.
  pose proof (encode_message_length _ _ Hf). lia.
Qed.

(** X23. However the stream of frames the server sent is cut into reads, the
    client hands the messages to its callback once each, in the order they
    were sent; when the reads end it is marked not connected, with an empty
    buffer. *)
Theorem client_receives_stream (ms : list pyval) (fs chunks : list bytes)
    (c : TCPClient.client) (delivered : list pyval) :
  frames_of ms fs ->
  TCPClient.connected c = true ->
  TCPClient.buffer c = [] ->
  Forall (fun data => data <> []) chunks ->
  concat chunks = concat fs ->
  TCPClientRest._receive_messages chunks c delivered
  = (TCPClient.mk_client (TCPClient.host c) (TCPClient.port c)
       (TCPClient.sock c) false [],
     delivered ++ ms).
Proof.
  intros Hfs Hc Hb Hne E. unfold TCPClientRest._receive_messages.
  now rewrite (client_receive_from_empty ms fs chunks c delivered).
Qed.

Lemma client_receives_stream_witness :
  TCPClientRest._receive_messages
    [firstn 7 sample_ping_frame;
     skipn 7 sample_ping_frame ++ firstn 2 text_hello_frame;
     skipn 2 text_hello_frame]
    connected_client []
  = (TCPClient.mk_client (lit "localhost") 9999 (Some open_socket) false [],
     [] ++ [sample_ping; PyStr (lit "hello")]).
Proof.
  apply (client_receives_stream [sample_ping; PyStr (lit "hello")]
           [sample_ping_frame; text_hello_frame]).
  - repeat constructor; vm_compute; reflexivity.
  - reflexivity.
  - reflexivity.
  - repeat constructor; vm_compute; discriminate.
  - vm_compute. reflexivity.
Defined.

(** ** From the client to the server and back *)

Lemma ascii_scalar (s : str) : ascii s -> forallb scalar s = true.
Proof.
  induction 1 as [|c r Hc _ IH]; [reflexivity|].
  cbn [forallb]. rewrite IH, andb_true_r.
  unfold scalar, is_surrogate.
  destruct (Z.leb_spec 0 c); [|lia].
  destruct (Z.ltb_spec c 0x110000); [|lia].
  destruct (Z.leb_spec 0xD800 c); [lia | reflexivity].
Qed.

Lemma ascii_repeat (c : Z) (n : nat) : 0 <= c < 128 -> ascii (repeat c n).
Proof. intros H. induction n; constructor; assumption. Qed.

Lemma ascii_pad (width : nat) (n : Z) : ascii (pad width n).
Proof.
  unfold pad. apply ascii_app; [apply ascii_repeat; lia|].
  apply ascii_repr_int.
Qed.

Lemma ascii_isoformat (d : datetime) : ascii (isoformat d).
Proof.
  unfold isoformat.
  repeat (apply ascii_app;
          [first [apply ascii_pad | repeat constructor; lia]|]).
  destruct (microsecond d =? 0); [constructor|].
  apply ascii_app; [repeat constructor; lia | apply ascii_pad].
Qed.

Lemma scalar_isoformat (d : datetime) : forallb scalar (isoformat d) = true.
Proof. apply ascii_scalar, ascii_isoformat. Qed.

Lemma round_trips_client_ping (t : datetime) (host : str) (port : Z) :
  forallb scalar host = true ->
  round_trips (client_ping_message t host port).
Proof.
  intros H. unfold round_trips, client_ping_message.
  cbn [json_ok]. apply andb_true_iff. split; [|reflexivity].
  cbn [forallb fst snd json_ok].
  rewrite scalar_isoformat, !forallb_app, H.
  rewrite (ascii_scalar _ (ascii_repr_int port)). reflexivity.
Qed.

Lemma round_trips_pong (t1 t2 : datetime) (id : str) :
  forallb scalar id = true ->
  round_trips (pong_message (PyStr (isoformat t1)) t2 id).
Proof.
  intros H. unfold round_trips, pong_message.
  cbn [json_ok]. apply andb_true_iff. split; [|reflexivity].
  cbn [forallb fst snd json_ok].
  rewrite !scalar_isoformat, H. reflexivity.
Qed.

(** X24. A ping from the client to the server and back: [ping] writes one
    frame; the server, reading it, answers with one [pong] frame and nothing
    else; the client, reading that, hands its callback a [pong] whose
    [ping_timestamp] is the time the client stamped the ping with and whose
    [pong_timestamp] is the time of the server. *)
Theorem ping_there_and_back (c : TCPClient.client) (s : socket)
    (t : datetime) (self : nat) (w : server) (f g : bytes) :
  let id := client_id (get_handler self w) in
  let pong := pong_message (PyStr (isoformat t)) (clock w) id in
  TCPClient.connected c = true ->
  TCPClient.sock c = Some s -> status s = SockOpen ->
  forallb scalar (TCPClient.host c) = true ->
  running (get_handler self w) = true ->
  is_open self w ->
  buffer (get_handler self w) = [] ->
  forallb scalar id = true ->
  encode_message
    (client_ping_message t (TCPClient.host c) (TCPClient.port c)) = Ok f ->
  encode_message pong = Ok g ->
  (snd (TCPClient.ping t c) = true
   /\ TCPClient.written (fst (TCPClient.ping t c))
      = TCPClient.written c ++ [f])
  /\ (exists w', receive [f] self w = (w', Ok tt) /\ answered self g w w')
  /\ (forall c2 delivered,
        TCPClient.connected c2 = true -> TCPClient.buffer c2 = [] ->
        snd (TCPClientRest._receive_messages [g] c2 delivered)
        = delivered ++ [pong]).
Proof.
  intros id pong Hc Hs Ho Hh Hrun Hopen Hb Hid Ef Eg.
  pose proof (running_valid self w Hrun) as Hv.
  split; [|split].
  - exact (send_when_connected c s _ f Hc Hs Ho Ef).
  - pose proof (decode_message_encoded _ f []
                  (round_trips_client_ping t _ _ Hh) Ef) as Hd.
    rewrite List.app_nil_r in Hd.
    rewrite (receive_one_frame self f _ w Hrun Hb Hd)
      by (unfold client_ping_message; discriminate).
    rewrite !bind_set_buffer.
    set (w1 := with_buffer self [] (with_buffer self f w)).
    assert (Ho1 : is_open self w1)
      by (unfold w1; now do 2 apply with_buffer_is_open).
    assert (Hid1 : client_id (get_handler self w1) = id).
    { unfold w1. rewrite with_buffer_handler
        by (now rewrite with_buffer_length).
      cbn [client_id]. now rewrite with_buffer_handler. }
    unfold bind.
    assert (Hp : _process_message self
                   (client_ping_message t (TCPClient.host c)
                      (TCPClient.port c)) w1
                 = (push self g (tick w1), Ok tt)).
    { unfold client_ping_message.
      rewrite (process_message_type self _ (lit "ping"))
        by reflexivity.
      change (str_eqb (lit "ping") (lit "ping")) with true. cbv iota.
      apply handle_ping_open; [exact Ho1|]. rewrite Hid1. exact Eg. }
    rewrite Hp, set_buffer_with. eexists. split; [reflexivity|].
    apply answered_with_buffer, answered_push;
      [now apply tick_is_open | | | reflexivity | reflexivity].
    + rewrite tick_sent. unfold w1. now rewrite !with_buffer_sent.
    + intros r N. rewrite tick_handler. unfold w1.
      now rewrite !with_buffer_other.
  - intros c2 delivered Hc2 Hb2.
    unfold TCPClientRest._receive_messages.
    rewrite (client_receive_from_empty [pong] [g] [g] c2 delivered);
      [reflexivity | | exact Hc2 | exact Hb2 | | reflexivity].
    + repeat constructor; [|exact Eg].
      now apply round_trips_pong.
    + repeat constructor. intros ->.
      pose proof (encode_message_length _ _ Eg) as L. cbn in L. lia.
Qed.

Lemma ping_there_and_back_witness :
  let c := fst (TCPClientRest.connect (Some open_socket) fresh_client) in
  (snd (TCPClient.ping noon c) = true
   /\ TCPClient.written (fst (TCPClient.ping noon c))
      = TCPClient.written c ++ [ping_noon_frame])
  /\ (exists w',
        receive [ping_noon_frame] 0 (one_client open_socket) = (w', Ok tt)
        /\ answered 0 pong_noon_frame (one_client open_socket) w')
  /\ (forall c2 delivered,
        TCPClient.connected c2 = true -> TCPClient.buffer c2 = [] ->
        snd (TCPClientRest._receive_messages [pong_noon_frame] c2 delivered)
        = delivered ++ [pong_message (PyStr (isoformat noon)) noon id_a]).
Proof.
  apply (ping_there_and_back
           (fst (TCPClientRest.connect (Some open_socket) fresh_client))
           open_socket noon 0
           (one_client open_socket) ping_noon_frame pong_noon_frame);
    vm_compute; reflexivity.
Defined.

Lemma round_trips_client_echo (content : pyval) (t : datetime) :
  json_ok content = true ->
  round_trips (client_echo_message content t).
Proof.
  intros H. unfold round_trips, client_echo_message.
  cbn [json_ok]. apply andb_true_iff. split; [|reflexivity].
  cbn [forallb fst snd json_ok].
  rewrite scalar_isoformat, H. reflexivity.
Qed.

Lemma round_trips_echo_response (content : pyval) (t : datetime) :
  json_ok content = true ->
  round_trips (echo_response_message content t).
Proof.
  intros H. unfold round_trips, echo_response_message.
  cbn [json_ok]. apply andb_true_iff. split; [|reflexivity].
  cbn [forallb fst snd json_ok].
  rewrite scalar_isoformat, H. reflexivity.
Qed.

(** X26. An echo from the client to the server and back, for a content
    that is any JSON value without floats: [echo] writes one frame; the
    server, reading it, answers with one [echo_response] frame and nothing
    else; the client, reading that, hands its callback an [echo_response]
    whose content is the content sent, unchanged. *)
Theorem echo_there_and_back (c : TCPClient.client) (s : socket)
    (content : pyval) (t : datetime) (self : nat) (w : server)
    (f g : bytes) :
  let response := echo_response_message content (clock w) in
  TCPClient.connected c = true ->
  TCPClient.sock c = Some s -> status s = SockOpen ->
  json_ok content = true ->
  running (get_handler self w) = true ->
  is_open self w ->
  buffer (get_handler self w) = [] ->
  encode_message (client_echo_message content t) = Ok f ->
  encode_message response = Ok g ->
  (snd (TCPClient.echo content t c) = true
   /\ TCPClient.written (fst (TCPClient.echo content t c))
      = TCPClient.written c ++ [f])
  /\ (exists w', receive [f] self w = (w', Ok tt) /\ answered self g w w')
  /\ (forall c2 delivered,
        TCPClient.connected c2 = true -> TCPClient.buffer c2 = [] ->
        snd (TCPClientRest._receive_messages [g] c2 delivered)
        = delivered ++ [response]).
Proof.
  intros response Hc Hs Ho Hj Hrun Hopen Hb Ef Eg.
  pose proof (running_valid self w Hrun) as Hv.
  split; [|split].
  - exact (send_when_connected c s _ f Hc Hs Ho Ef).
  - pose proof (decode_message_encoded _ f []
                  (round_trips_client_echo content t Hj) Ef) as Hd.
    rewrite List.app_nil_r in Hd.
    rewrite (receive_one_frame self f _ w Hrun Hb Hd)
      by (unfold client_echo_message; discriminate).
    rewrite !bind_set_buffer.
    set (w1 := with_buffer self [] (with_buffer self f w)).
    assert (Ho1 : is_open self w1)
      by (unfold w1; now do 2 apply with_buffer_is_open).
    unfold bind.
    assert (Hp : _process_message self (client_echo_message content t) w1
                 = (push self g (tick w1), Ok tt)).
    { unfold client_echo_message.
      rewrite (process_message_type self _ (lit "echo")) by reflexivity.
      change (str_eqb (lit "echo") (lit "ping")) with false.
      change (str_eqb (lit "echo") (lit "echo")) with true. cbv iota.
      apply handle_echo_open; [exact Ho1 | exact Eg]. }
    rewrite Hp, set_buffer_with. eexists. split; [reflexivity|].
    apply answered_with_buffer, answered_push;
      [now apply tick_is_open | | | reflexivity | reflexivity].
    + rewrite tick_sent. unfold w1. now rewrite !with_buffer_sent.
    + intros r N. rewrite tick_handler. unfold w1.
      now rewrite !with_buffer_other.
  - intros c2 delivered Hc2 Hb2.
    unfold TCPClientRest._receive_messages.
    rewrite (client_receive_from_empty [response] [g] [g] c2 delivered);
      [reflexivity | | exact Hc2 | exact Hb2 | | reflexivity].
    + repeat constructor; [|exact Eg].
      now apply round_trips_echo_response.
    + repeat constructor. intros ->.
      pose proof (encode_message_length _ _ Eg) as L. cbn in L. lia.
Qed.

Lemma echo_there_and_back_witness :
  (snd (TCPClient.echo rich_content noon connected_client) = true
   /\ TCPClient.written (fst (TCPClient.echo rich_content noon
                                 connected_client))
      = TCPClient.written connected_client ++ [echo_rich_frame])
  /\ (exists w',
        receive [echo_rich_frame] 0 (one_client open_socket) = (w', Ok tt)
        /\ answered 0 echo_rich_response_frame (one_client open_socket) w')
  /\ (forall c2 delivered,
        TCPClient.connected c2 = true -> TCPClient.buffer c2 = [] ->
        snd (TCPClientRest._receive_messages [echo_rich_response_frame] c2
               delivered)
        = delivered ++ [echo_response_message rich_content noon]).
Proof.
  apply (echo_there_and_back connected_client open_socket rich_content noon
           0 (one_client open_socket) echo_rich_frame
           echo_rich_response_frame);
    vm_compute; reflexivity.
Defined.

(* ================================================================== *)
(** * More properties of the codec and of the loops *)
(* ================================================================== *)





Lemma drain_fuel_witness :
  drain (S (length text_hello_frame) + 7) 0 reading_client
  = drain (S (length text_hello_frame)) 0 reading_client.
Proof.
  apply (drain_fuel 0 (S (length text_hello_frame)) 7 reading_client).
  vm_compute. lia.
Defined.

Lemma registry_invariant_witness :
  let w :=
    fst (_handle_client 0 [frame_of broadcast_hi]
           (peer_gone 1
              (fst (accept open_socket (lit "10.0.0.2") 5002
                      (fst (accept open_socket (lit "10.0.0.1") 5001
                              empty_server)))))) in
  registry_ok w /\ NoDup (map snd (clients w)).
Proof.
  apply registry_invariant.
  apply reach_handle_client, reach_peer_gone.
  apply reach_accept; [|discriminate].
  apply reach_accept; [|discriminate].
  apply (reach_init noon (fun _ => noon)).
Defined.
